(** * gpu-docker-api: schedulers, version registry, memory strings and the
      replica-set controller, embedded from the Go sources.

    Go values are modelled as follows.
    - [int], [int64], [uint64] and the [byte] flags of the status maps are
      integers of [Z]; every number that occurs stays far inside 64 bits.
    - a Go [string] is a [string] of bytes; a [[]string] is a [list string].
    - a Go [map[string]T] is a [gmap string T]; reading a missing key gives
      the zero value of [T], assigning to a missing key inserts it.
    - a [float64] is a primitive binary64 [float].
    - an [error] is a message with the chain of messages wrapped around it. *)

From Stdlib Require Import ZArith String Ascii List Bool Lia.
From Stdlib Require Import PrimFloat FloatOps SpecFloat.
From stdpp Require Import base gmap strings list fin_maps pretty sorting.

Local Open Scope string_scope.
Local Open Scope Z_scope.

(** ** Package [errors] (github.com/pkg/errors) and [xerrors] *)

Module errors.

Inductive error : Type :=
| New (msg : string)
| Wrap (cause : error) (msg : string).

(** [errors.Cause]: the innermost error of a chain of wraps. *)
Fixpoint Cause (e : error) : error :=
  match e with
  | New _ => e
  | Wrap c _ => Cause c
  end.

(** [err.Error()]: wrapped errors print as "msg: cause". *)
Fixpoint Error (e : error) : string :=
  match e with
  | New m => m
  | Wrap c m => m +:+ ": " +:+ Error c
  end.

End errors.

Export errors.

Module xerrors.

Definition gpuNotEnough : string := "gpu not enough".
Definition portNotEnough : string := "port not enough".
Definition cpuNotEnough : string := "cpu not enough".

Definition NewGpuNotEnoughError : error := New gpuNotEnough.
Definition NewPortNotEnoughError : error := New portNotEnough.
Definition NewCpuNotEnoughError : error := New cpuNotEnough.

Definition IsGpuNotEnoughError (err : option error) : bool :=
  match err with
  | None => false
  | Some e => bool_decide (Error (Cause e) = gpuNotEnough)
  end.

Definition IsPortNotEnoughError (err : option error) : bool :=
  match err with
  | None => false
  | Some e => bool_decide (Error (Cause e) = portNotEnough)
  end.

Definition IsCpuNotEnoughError (err : option error) : bool :=
  match err with
  | None => false
  | Some e => bool_decide (Error (Cause e) = cpuNotEnough)
  end.

End xerrors.

(** ** The parts of Go's [strings] and [strconv] that the sources call *)

Module gostrings.

(** [len(s)] as a Go [int]. *)
Definition len (s : string) : Z := Z.of_nat (String.length s).

(** [s[lo:]]; [None] is the run-time panic "slice bounds out of range". *)
Definition slice_from (s : string) (lo : Z) : option string :=
  if (lo <? 0) || (len s <? lo) then None
  else Some (String.substring (Z.to_nat lo)
               (String.length s - Z.to_nat lo)%nat s).

(** [s[:hi]]. *)
Definition slice_to (s : string) (hi : Z) : option string :=
  if (hi <? 0) || (len s <? hi) then None
  else Some (String.substring 0 (Z.to_nat hi) s).

Definition HasPrefix (s pre : string) : bool := String.prefix pre s.

Definition HasSuffix (s suf : string) : bool :=
  (String.length suf <=? String.length s)%nat
  && String.eqb
       (String.substring (String.length s - String.length suf)
          (String.length suf) s) suf.

(** [strings.TrimSuffix]. *)
Definition TrimSuffix (s suf : string) : string :=
  if HasSuffix s suf
  then String.substring 0 (String.length s - String.length suf) s
  else s.

(** [strings.Split(s, sep)] for a separator of one byte, which is what
    every call in the sources passes ("-" and ","). The result is never
    empty: a string without the separator comes back whole. *)
Fixpoint split_acc (sep : ascii) (cur : string) (s : string) : list string :=
  match s with
  | EmptyString => [String.rev cur]
  | String c s' =>
      if Ascii.eqb c sep
      then String.rev cur :: split_acc sep EmptyString s'
      else split_acc sep (String c cur) s'
  end.

Definition Split (s : string) (sep : ascii) : list string :=
  split_acc sep EmptyString s.

(** [strings.Join]. *)
Fixpoint Join (elems : list string) (sep : string) : string :=
  match elems with
  | [] => ""
  | [e] => e
  | e :: rest => e +:+ sep +:+ Join rest sep
  end.

Fixpoint trim_left (cut : ascii) (s : string) : string :=
  match s with
  | EmptyString => EmptyString
  | String c s' => if Ascii.eqb c cut then trim_left cut s' else s
  end.

(** [strings.Trim(s, cutset)] for a cutset of one byte. *)
Definition Trim (s : string) (cut : ascii) : string :=
  String.rev (trim_left cut (String.rev (trim_left cut s))).

(** [strconv.Itoa]: the decimal numeral, with "-" for negatives. *)
Definition Itoa (i : Z) : string := pretty i.

Definition digit_of (c : ascii) : option Z :=
  let n := Z.of_N (N_of_ascii c) in
  if (48 <=? n) && (n <=? 57) then Some (n - 48) else None.

Fixpoint digits_acc (acc : Z) (s : string) : option Z :=
  match s with
  | EmptyString => Some acc
  | String c s' =>
      match digit_of c with
      | Some d => digits_acc (10 * acc + d) s'
      | None => None
      end
  end.

Definition maxInt64 : Z := 2 ^ 63 - 1.
Definition minInt64 : Z := - 2 ^ 63.

(** [strconv.Atoi]: an optional sign and decimal digits. A syntax error
    gives 0, a range error the nearest bound; the flag is [err != nil]. *)
Definition Atoi (s : string) : Z * bool :=
  let '(neg, body) :=
    match s with
    | String "-" r => (true, r)
    | String "+" r => (false, r)
    | _ => (false, s)
    end in
  match body with
  | EmptyString => (0, true)
  | _ =>
      match digits_acc 0 body with
      | None => (0, true)
      | Some n =>
          let v := if neg then - n else n in
          if v <? minInt64 then (minInt64, true)
          else if maxInt64 <? v then (maxInt64, true)
          else (v, false)
      end
  end.

End gostrings.

Export gostrings.

(** ** Conversions between [float64] and integers *)

Module gofloat.

(** [float64(u)] for a [uint64]: the nearest binary64, ties to even. *)
Definition float64_of_uint64 (u : Z) : float :=
  SF2Prim (binary_normalize prec emax u 0 false).

(** The value a conversion to [int64] yields when the float is NaN, an
    infinity or too large. Go leaves it to the implementation; this is
    the "integer indefinite" that amd64 produces. *)
Definition int64_indefinite : Z := minInt64.

(** [int64(f)]: the fraction is discarded (truncation towards zero). *)
Definition int64_of_float64 (f : float) : Z :=
  match Prim2SF f with
  | S754_zero _ => 0
  | S754_finite s m e =>
      let mag := if 0 <=? e then Z.pos m * 2 ^ e
                 else Z.pos m / 2 ^ (- e) in
      let v := if s then - mag else mag in
      if (minInt64 <=? v) && (v <=? maxInt64) then v else int64_indefinite
  | S754_infinity _ | S754_nan => int64_indefinite
  end.

End gofloat.

Export gofloat.

(** ** Package [models]: memory.go *)

Module models.

Definition MemorySizeMap : gset string :=
  {[ "KB"; "MB"; "GB"; "TB" ]}.

Definition MemoryUnitMap : gmap string Z :=
  <[ "KB" := 1024 ]>
  (<[ "MB" := 1024 * 1024 ]>
  (<[ "GB" := 1024 * 1024 * 1024 ]>
  (<[ "TB" := 1024 * 1024 * 1024 * 1024 ]> ∅))).

(** What a call does: it returns a value, returns an error, or panics. *)
Inductive result (A : Type) : Type :=
| Ok (a : A)
| Err (e : error)
| Panic.
Arguments Ok {A} a.
Arguments Err {A} e.
Arguments Panic {A}.

Section MemoryGetBytes.

(** [strconv.ParseFloat(s, 64)] belongs to Go's library; the function
    is studied for every behaviour it may have. It returns the float
    and the error, [None] for [nil]. *)
Variable ParseFloat : string -> float * option error.

Definition MemoryGetBytes (size : string) : result Z :=
  match slice_from size (len size - 2) with
  | None => Panic
  | Some unit =>
      let valueStr := TrimSuffix size unit in
      match ParseFloat valueStr with
      | (_, Some err) => Err err
      | (value, None) =>
          Ok (int64_of_float64
                (PrimFloat.mul value
                   (float64_of_uint64 (default 0 (MemoryUnitMap !! unit)))))
      end
  end.

End MemoryGetBytes.

Definition ErrSyntax : error := New "invalid syntax".

(** A float parser for the places where a concrete one is needed. It
    reads the decimal numerals [digits] and [digits.digits] whose digits,
    taken without the point, stay below 2^53 and that have at most 22
    digits after the point; on these [strconv.ParseFloat] is the integer
    divided by the power of ten, rounded once, and so is this. Any other
    text is answered with a syntax error here, which is Go's answer for
    the texts that are no numeral. *)
Definition ParseFloat_decimal (s : string) : float * option error :=
  let parts := Split s "."%char in
  let bad := (PrimFloat.zero, Some ErrSyntax) in
  match parts with
  | [ip] =>
      match ip, digits_acc 0 ip with
      | String _ _, Some n =>
          if n <? 2 ^ 53 then (float64_of_uint64 n, None) else bad
      | _, _ => bad
      end
  | [ip; fp] =>
      match ip, fp, digits_acc 0 (ip +:+ fp) with
      | String _ _, String _ _, Some n =>
          if (n <? 2 ^ 53) && (len fp <=? 22)
          then (PrimFloat.div (float64_of_uint64 n)
                  (float64_of_uint64 (10 ^ len fp)), None)
          else bad
      | _, _, _ => bad
      end
  | _ => bad
  end.

End models.

Export models.

(** ** Package [schedulers] *)

Module schedulers.

(** What a call does to the state [S] it runs on: it returns, or it waits
    for ever on a lock (a [sync.RWMutex] is not reentrant: locking it
    again from the goroutine that holds it never returns). *)
Inductive outcome (S A : Type) : Type :=
| Returns (a : A) (s : S)
| Blocks (s : S).
Arguments Returns {S A} a s.
Arguments Blocks {S A} s.

(** [len(l)] of a slice as a Go [int]. *)
Definition llen {A : Type} (l : list A) : Z := Z.of_nat (length l).

(** [for _, id := range ids { m[id] = 0 }] *)
Definition mark_free (ids : list string) (m : gmap string Z) : gmap string Z :=
  foldl (fun acc id => <[ id := 0 ]> acc) m ids.

(** The loop of [gpuScheduler.Apply]. [order] is the order in which
    [range] visits the keys of the map, which Go leaves unspecified; a key
    that is not in the map is not visited. *)
Fixpoint apply_loop (num : Z) (order : list string) (m : gmap string Z)
    (available : list string) : gmap string Z * list string :=
  match order with
  | [] => (m, available)
  | k :: rest =>
      match m !! k with
      | Some v =>
          if v =? 0 then
            let m' := <[ k := 1 ]> m in
            let available' := (available ++ [k])%list in
            if llen available' =? num then (m', available')
            else apply_loop num rest m' available'
          else apply_loop num rest m available
      | None => apply_loop num rest m available
      end
  end.

Module Gpu.

Record gpuScheduler : Type := {
  mu : bool;  (* the embedded RWMutex: [true] while held for writing *)
  AvailableGpuNums : Z;
  GpuStatusMap : gmap string Z;
  GpuAllocMap : gmap string (list string)
}.

Definition with_mu (b : bool) (gs : gpuScheduler) : gpuScheduler :=
  {| mu := b; AvailableGpuNums := AvailableGpuNums gs;
     GpuStatusMap := GpuStatusMap gs; GpuAllocMap := GpuAllocMap gs |}.

Definition with_status (m : gmap string Z) (gs : gpuScheduler) : gpuScheduler :=
  {| mu := mu gs; AvailableGpuNums := AvailableGpuNums gs;
     GpuStatusMap := m; GpuAllocMap := GpuAllocMap gs |}.

Definition Restore (gpus : list string) (gs : gpuScheduler)
  : outcome gpuScheduler unit :=
  if (llen gpus <=? 0) || (AvailableGpuNums gs <? llen gpus) then Returns tt gs
  else if mu gs then Blocks gs
  else
    let gs1 := with_mu true gs in
    let gs2 := with_status (mark_free gpus (GpuStatusMap gs1)) gs1 in
    Returns tt (with_mu false gs2).

Definition Apply (order : list string) (num : Z) (gs : gpuScheduler)
  : outcome gpuScheduler (list string * option error) :=
  if (num <=? 0) || (AvailableGpuNums gs <? num) then
    Returns ([], Some (New ("num must be greater than 0 and less than "
                              +:+ Itoa (AvailableGpuNums gs)))) gs
  else if mu gs then Blocks gs
  else
    let gs1 := with_mu true gs in
    let '(m, availableGpus) := apply_loop num order (GpuStatusMap gs1) [] in
    let gs2 := with_status m gs1 in
    if llen availableGpus <? num then
      match Restore availableGpus gs2 with
      | Returns _ gs3 => Returns ([], Some xerrors.NewGpuNotEnoughError) (with_mu false gs3)
      | Blocks gs3 => Blocks gs3
      end
    else Returns (availableGpus, None) (with_mu false gs2).

Definition GetGpuStatus (gs : gpuScheduler) : gmap string Z := GpuStatusMap gs.

End Gpu.

Module Cpu.

Record cpuScheduler : Type := {
  mu : bool;
  AvailableCpuNums : Z;
  CpuStatusMap : gmap string Z
}.

Definition with_mu (b : bool) (cs : cpuScheduler) : cpuScheduler :=
  {| mu := b; AvailableCpuNums := AvailableCpuNums cs;
     CpuStatusMap := CpuStatusMap cs |}.

Definition with_status (m : gmap string Z) (cs : cpuScheduler) : cpuScheduler :=
  {| mu := mu cs; AvailableCpuNums := AvailableCpuNums cs; CpuStatusMap := m |}.

(** [getAllCpuProcessors] for a host that reports [cpuNum] processors. *)
Definition getAllCpuProcessors (cpuNum : Z) : list string :=
  (fun i => Itoa (Z.of_nat i)) <$> seq 0 (Z.to_nat cpuNum).

(** [InitCpuScheduler] when etcd holds no snapshot: the pool is built from
    the processors of the host, all free. *)
Definition InitCpuScheduler (cpuNum : Z) : cpuScheduler :=
  let cpus := getAllCpuProcessors cpuNum in
  {| mu := false; AvailableCpuNums := llen cpus;
     CpuStatusMap := mark_free cpus ∅ |}.

(** The unexported [restore]; its error is always [nil]. *)
Definition restore (cpuSet : list string) (cs : cpuScheduler) : cpuScheduler :=
  with_status (mark_free cpuSet (CpuStatusMap cs)) cs.

(** [keys]: the map's keys through [strconv.Atoi] (errors dropped), then
    [sort.Ints]. The order in which the map is read does not survive the
    sort. *)
Definition sorted_keys (m : gmap string Z) : list Z :=
  merge_sort Z.le ((fun k => (Atoi k).1) <$> elements (dom m)).

(** The loop [for k := range keys]: with one variable, [range] over a
    slice yields the indices 0, 1, ..., len(keys)-1. Reading a missing key
    gives 0, writing it inserts the key. *)
Fixpoint apply_loop (num : Z) (indices : list Z) (m : gmap string Z)
    (applyCpus : list string) : gmap string Z * list string :=
  match indices with
  | [] => (m, applyCpus)
  | k :: rest =>
      let ks := Itoa k in
      let v := default 0 (m !! ks) in
      if v =? 0 then
        let m' := <[ ks := 1 ]> m in
        let applyCpus' := (applyCpus ++ [ks])%list in
        if llen applyCpus' =? num then (m', applyCpus')
        else apply_loop num rest m' applyCpus'
      else apply_loop num rest m applyCpus
  end.

Definition range_indices {A : Type} (l : list A) : list Z :=
  Z.of_nat <$> seq 0 (length l).

(** [Apply] also returns, here, the slice [applyCpus] that the cpu-set
    string is joined from. The snapshot that [go cs.putToEtcd()] sends to
    the work queue later does not touch the pool and is left out. *)
Definition Apply_ids (num : Z) (cs : cpuScheduler)
  : outcome cpuScheduler (list string * string * option error) :=
  if (num <=? 0) || (AvailableCpuNums cs <? num) then
    Returns ([], "", Some (New ("num must be greater than 0 and less than "
                                  +:+ Itoa (AvailableCpuNums cs)))) cs
  else if mu cs then Blocks cs
  else
    let cs1 := with_mu true cs in
    let keys := sorted_keys (CpuStatusMap cs1) in
    let '(m, applyCpus) :=
      apply_loop num (range_indices keys) (CpuStatusMap cs1) [] in
    let cs2 := with_status m cs1 in
    if llen applyCpus <? num then
      Returns ([], "", Some xerrors.NewCpuNotEnoughError)
              (with_mu false (restore applyCpus cs2))
    else
      let cpuSet := Trim (Join applyCpus ",") ","%char in
      Returns (applyCpus, cpuSet, None) (with_mu false cs2).

Definition Apply (num : Z) (cs : cpuScheduler)
  : outcome cpuScheduler (string * option error) :=
  match Apply_ids num cs with
  | Returns (_, cpuSet, err) cs' => Returns (cpuSet, err) cs'
  | Blocks cs' => Blocks cs'
  end.

Definition Restore (cpuSet : list string) (cs : cpuScheduler)
  : outcome cpuScheduler (option error) :=
  if mu cs then Blocks cs
  else Returns None (with_mu false (restore cpuSet (with_mu true cs))).

Definition GetCpuStatus (cs : cpuScheduler) : gmap string Z := CpuStatusMap cs.

End Cpu.

Module Port.

(** Modelled from the spec: the port scheduler, whose source file is not
    among the sources (only its callers are). A pool of host ports with a
    free/in-use flag each and a cached total. [Apply n] returns [n] ports
    that were free, in the order the map is read, or fails with
    [PortNotEnough] when fewer than [n] are free (also when [n] exceeds
    the total) and then reserves nothing; [n] must be positive. [Restore]
    marks each port free and does not fail. *)
Record portScheduler : Type := {
  AvailablePortNums : Z;
  PortStatusMap : gmap string Z
}.

Definition with_status (m : gmap string Z) (ps : portScheduler) : portScheduler :=
  {| AvailablePortNums := AvailablePortNums ps; PortStatusMap := m |}.

Definition Apply (order : list string) (num : Z) (ps : portScheduler)
  : (list string * option error) * portScheduler :=
  if num <=? 0 then
    (([], Some (New "num must be greater than 0")), ps)
  else if AvailablePortNums ps <? num then
    (([], Some xerrors.NewPortNotEnoughError), ps)
  else
    let '(m, ports) := apply_loop num order (PortStatusMap ps) [] in
    if llen ports <? num then (([], Some xerrors.NewPortNotEnoughError), ps)
    else ((ports, None), with_status m ps).

Definition Restore (ports : list string) (ps : portScheduler) : portScheduler :=
  with_status (mark_free ports (PortStatusMap ps)) ps.

End Port.

End schedulers.

Export schedulers.

(** ** Package [version] (imported as [vmap]) *)

Module vmap.

(** Modelled from the spec: the version registry, whose source file is
    not among the sources. A map from replica-set name to version with
    [Get(name)] giving the version and whether it is present, [Set] and
    [Remove]. *)
Definition Get (name : string) (m : gmap string Z) : Z * bool :=
  match m !! name with
  | Some v => (v, true)
  | None => (0, false)
  end.

Definition Set_ (name : string) (version : Z) (m : gmap string Z) : gmap string Z :=
  <[ name := version ]> m.

Definition Remove (name : string) (m : gmap string Z) : gmap string Z :=
  delete name m.

End vmap.

(** ** Packages [etcd] and [workQueue]: the items sent to the queue *)

Module etcd.

Inductive Resource : Type := Containers | Volumes | Gpus | Cpus | Ports.

End etcd.

(** ** Package [models]: container.go, and the Docker types it refers to *)

Module container.

Record DeviceRequest : Type := {
  Driver : string;
  DeviceIDs : list string
}.

Record Resources : Type := {
  DeviceRequests : list DeviceRequest;
  CpusetCpus : string;
  Memory : Z
}.

(** [PortBindings] maps a container port to its bindings, each reduced to
    its [HostPort]; a [nil] map and an empty one are both [∅]. *)
Record HostConfig : Type := {
  Binds : list string;
  PortBindings : gmap string (list string);
  HostResources : Resources;
  StorageOpt : gmap string string;
  ShmSize : Z;
  Runtime : string
}.

Record Config : Type := {
  Image : string;
  Cmd : list string;
  Env : list string;
  ExposedPorts : gset string;
  OpenStdin : bool;
  Tty : bool
}.

Definition with_PortBindings (pb : gmap string (list string)) (h : HostConfig) : HostConfig :=
  {| Binds := Binds h; PortBindings := pb; HostResources := HostResources h;
     StorageOpt := StorageOpt h; ShmSize := ShmSize h; Runtime := Runtime h |}.

Definition with_Resources (r : Resources) (h : HostConfig) : HostConfig :=
  {| Binds := Binds h; PortBindings := PortBindings h; HostResources := r;
     StorageOpt := StorageOpt h; ShmSize := ShmSize h; Runtime := Runtime h |}.

Definition with_Binds (b : list string) (h : HostConfig) : HostConfig :=
  {| Binds := b; PortBindings := PortBindings h; HostResources := HostResources h;
     StorageOpt := StorageOpt h; ShmSize := ShmSize h; Runtime := Runtime h |}.

Definition with_Env (e : list string) (c : Config) : Config :=
  {| Image := Image c; Cmd := Cmd c; Env := e; ExposedPorts := ExposedPorts c;
     OpenStdin := OpenStdin c; Tty := Tty c |}.

End container.

Module containermodels.

Record Bind : Type := { Src : string; Dest : string }.

Record ContainerRun : Type := {
  ImageName : string;
  ReplicaSetName : string;
  GpuCount : Z;
  CpuCount : Z;
  Memory : string;
  Binds : list Bind;
  Env : list string;
  Cmd : list string;
  ContainerPorts : list string
}.

(** The networking configuration and the platform are passed through
    untouched and are left out. *)
Record EtcdContainerInfo : Type := {
  Version : Z;
  CreateTime : string;
  Config : container.Config;
  HostConfig : container.HostConfig;
  ContainerName : string
}.

End containermodels.

Module workQueue.

(** [etcd.PutKeyValue] and [etcd.DelKey]; the value of a put is kept as
    the record that [Serialize] would encode. *)
Inductive item : Type :=
| PutKeyValue (Resource : etcd.Resource) (Key : string)
    (Value : containermodels.EtcdContainerInfo)
| DelKey (Resource : etcd.Resource) (Key : string).

End workQueue.

(** ** Package [services]: replicaset.go and its [runContainer] *)

Module services.

Import containermodels.

(** The process-wide state the controller works on: the three scheduler
    singletons, the version registry, the work queue (oldest item first)
    and the [merges] directory, as the set of entries of each of its
    sub-directories. *)
Record world : Type := {
  GpuScheduler : Gpu.gpuScheduler;
  CpuScheduler : Cpu.cpuScheduler;
  PortScheduler : Port.portScheduler;
  ContainerVersionMap : gmap string Z;
  Queue : list workQueue.item;
  merges : gmap string (gset string)
}.

Definition with_Gpu (g : Gpu.gpuScheduler) (w : world) : world :=
  {| GpuScheduler := g; CpuScheduler := CpuScheduler w;
     PortScheduler := PortScheduler w;
     ContainerVersionMap := ContainerVersionMap w; Queue := Queue w;
     merges := merges w |}.

Definition with_Cpu (c : Cpu.cpuScheduler) (w : world) : world :=
  {| GpuScheduler := GpuScheduler w; CpuScheduler := c;
     PortScheduler := PortScheduler w;
     ContainerVersionMap := ContainerVersionMap w; Queue := Queue w;
     merges := merges w |}.

Definition with_Port (p : Port.portScheduler) (w : world) : world :=
  {| GpuScheduler := GpuScheduler w; CpuScheduler := CpuScheduler w;
     PortScheduler := p;
     ContainerVersionMap := ContainerVersionMap w; Queue := Queue w;
     merges := merges w |}.

Definition with_Versions (v : gmap string Z) (w : world) : world :=
  {| GpuScheduler := GpuScheduler w; CpuScheduler := CpuScheduler w;
     PortScheduler := PortScheduler w;
     ContainerVersionMap := v; Queue := Queue w; merges := merges w |}.

Definition with_Queue (q : list workQueue.item) (w : world) : world :=
  {| GpuScheduler := GpuScheduler w; CpuScheduler := CpuScheduler w;
     PortScheduler := PortScheduler w;
     ContainerVersionMap := ContainerVersionMap w; Queue := q;
     merges := merges w |}.

Definition with_merges (m : gmap string (gset string)) (w : world) : world :=
  {| GpuScheduler := GpuScheduler w; CpuScheduler := CpuScheduler w;
     PortScheduler := PortScheduler w;
     ContainerVersionMap := ContainerVersionMap w; Queue := Queue w;
     merges := m |}.

(** What [docker.Cli.ContainerInspect] reports of a container, as far as
    the controller reads it. A published port has at least one binding. *)
Record ContainerJSON : Type := {
  Running : bool;
  Paused : bool;
  InspectDeviceRequests : list container.DeviceRequest;
  InspectCpusetCpus : string;
  InspectPortBindings : gmap string (string * list string)
}.

(** What lies outside the controller and answers its calls: the container
    runtime, the clock, the file system's verdict on a removal, the order
    in which Go reads the scheduler maps, and [utils.ToBytes], whose file
    is not among the sources. An answer depends on the arguments only. *)
Record Outside : Type := {
  ContainerList : string -> bool;  (* some container matches "^name-" *)
  ContainerCreate : string -> string * option error;
  ContainerStart : string -> option error;
  ContainerRemove : string -> option error;
  ContainerInspect : string -> ContainerJSON * option error;
  RemoveAll : string -> option error;
  Now : string;
  ToBytes : string -> Z * option error;
  gpu_order : list string;
  port_order : list string
}.

(** A controller method: a function of the world with an [outcome]. *)
Definition M (A : Type) : Type := world -> outcome world A.

Definition ret {A : Type} (a : A) : M A := fun w => Returns a w.

Definition bind {A B : Type} (c : M A) (k : A -> M B) : M B :=
  fun w =>
    match c w with
    | Returns a w' => k a w'
    | Blocks w' => Blocks w'
    end.

Notation "'call' x ':=' c 'in' k" := (bind c (fun x => k))
  (at level 10, x pattern, c at level 100, k at level 200).

Definition lift_gpu {A : Type} (f : Gpu.gpuScheduler -> outcome Gpu.gpuScheduler A) : M A :=
  fun w =>
    match f (GpuScheduler w) with
    | Returns a g => Returns a (with_Gpu g w)
    | Blocks g => Blocks (with_Gpu g w)
    end.

Definition lift_cpu {A : Type} (f : Cpu.cpuScheduler -> outcome Cpu.cpuScheduler A) : M A :=
  fun w =>
    match f (CpuScheduler w) with
    | Returns a c => Returns a (with_Cpu c w)
    | Blocks c => Blocks (with_Cpu c w)
    end.

Definition GpuRestore (uuids : list string) : M unit := lift_gpu (Gpu.Restore uuids).
Definition GpuApply (o : Outside) (num : Z) : M (list string * option error) :=
  lift_gpu (Gpu.Apply (gpu_order o) num).
Definition CpuRestore (cpuSet : list string) : M (option error) :=
  lift_cpu (Cpu.Restore cpuSet).
Definition CpuApply (num : Z) : M (string * option error) := lift_cpu (Cpu.Apply num).
Definition PortApply (o : Outside) (num : Z) : M (list string * option error) :=
  fun w => let '(r, p) := Port.Apply (port_order o) num (PortScheduler w) in
           Returns r (with_Port p w).
Definition PortRestore (ports : list string) : M unit :=
  fun w => Returns tt (with_Port (Port.Restore ports (PortScheduler w)) w).

Definition versionGet (name : string) : M (Z * bool) :=
  fun w => Returns (vmap.Get name (ContainerVersionMap w)) w.
Definition versionSet (name : string) (v : Z) : M unit :=
  fun w => Returns tt (with_Versions (vmap.Set_ name v (ContainerVersionMap w)) w).
Definition versionRemove (name : string) : M unit :=
  fun w => Returns tt (with_Versions (vmap.Remove name (ContainerVersionMap w)) w).

(** [workQueue.Queue <- item] *)
Definition send (i : workQueue.item) : M unit :=
  fun w => Returns tt (with_Queue (Queue w ++ [i])%list w).

(** [fmt.Sprintf("%s-%d", name, version)] *)
Definition versionName (name : string) (version : Z) : string :=
  name +:+ "-" +:+ Itoa version.

(** The loop that overwrites the first CONTAINER_VERSION entry of the
    environment; [None] when there is none ([isExist] stays false). *)
Fixpoint replaceVersionEnv (entry : string) (env : list string) : option (list string) :=
  match env with
  | [] => None
  | e :: rest =>
      if HasPrefix e "CONTAINER_VERSION=" then Some (entry :: rest)
      else option_map (cons e) (replaceVersionEnv entry rest)
  end.

Definition setVersionEnv (version : Z) (env : list string) : list string :=
  let entry := "CONTAINER_VERSION=" +:+ Itoa version in
  match replaceVersionEnv entry env with
  | Some env' => env'
  | None => (env ++ [entry])%list
  end.

(** The loop that gives the [index]-th acquired port to the [index]-th
    key of the port map, for keys in the order [range] yields them. It
    has as many ports as keys, [Apply] having returned that many. *)
Fixpoint fillPortBindings (keys ports : list string) (pb : gmap string (list string))
  : gmap string (list string) :=
  match keys, ports with
  | k :: keys', p :: ports' => fillPortBindings keys' ports' (<[ k := [p] ]> pb)
  | _, _ => pb
  end.

(** The deferred function of [runContainer]: it sees the variable [err]
    of the function body. *)
Definition rollbackVersion (name : string) (version : Z) (err : option error) : M unit :=
  match err with
  | None => ret tt
  | Some _ =>
      if version =? 1 then versionRemove name
      else versionSet name (version - 1)
  end.

(** [startContainer]. After a failed start the container is removed, the
    result of the removal being dropped; the goroutine that writes the
    ballast file five seconds after a good start is left out. *)
Definition startContainer (o : Outside) (respId ctrVersionName : string) : M (option error) :=
  match ContainerStart o respId with
  | Some err =>
      ret (Some (Wrap err ("docker.ContainerStart failed, id: " +:+ respId
                             +:+ ", name: " +:+ ctrVersionName)))
  | None => ret None
  end.

Definition noKv : option workQueue.item := None.

(** [runContainer]. The result carries, besides the four values of the Go
    function, the record [info] as the callee leaves it behind the
    pointer. The deferred function is written out as [rollbackVersion] at
    each return, with the value that the variable [err] of [var err error]
    has there: the [err] of the port block is a new variable of that
    block ([:=] inside the [if]), so a failed port acquisition returns
    with the outer [err] still [nil]; [resp, err := ...] and [err = ...]
    in the function body assign the outer one. The keys of the port map
    are taken in the order of [map_to_list], one of the orders Go may
    choose. *)
Definition runContainer (o : Outside) (name : string) (info : EtcdContainerInfo)
    (onlyCreate : bool)
  : M (string * string * option workQueue.item * option error * EtcdContainerInfo) :=
  call (version0, _) := versionGet name in
  let version := version0 + 1 in
  call _ := versionSet name version in
  let config := container.with_Env (setVersionEnv version (container.Env (Config info)))
                  (Config info) in
  let hostConfig := HostConfig info in
  let info1 := {| Version := Version info; CreateTime := CreateTime info;
                  Config := config; HostConfig := hostConfig;
                  ContainerName := ContainerName info |} in
  let pb := container.PortBindings hostConfig in
  call (portErr, hostConfig2) :=
    (if 0 <? Z.of_nat (size pb) then
       call (availableOSPorts, err) := PortApply o (Z.of_nat (size pb)) in
       match err with
       | Some e => ret (Some e, hostConfig)
       | None =>
           ret (None, container.with_PortBindings
                        (fillPortBindings (map_to_list pb).*1 availableOSPorts pb)
                        hostConfig)
       end
     else ret (None, hostConfig)) in
  match portErr with
  | Some e =>
      call _ := rollbackVersion name version None in
      ret ("", "", noKv,
           Some (Wrap e "Portscheduler.Apply failed"), info1)
  | None =>
      let ctrVersionName := versionName name version in
      let info2 := {| Version := Version info; CreateTime := Now o;
                      Config := config; HostConfig := hostConfig2;
                      ContainerName := ContainerName info |} in
      match ContainerCreate o ctrVersionName with
      | (_, Some err) =>
          call _ := rollbackVersion name version (Some err) in
          ret ("", "", noKv,
               Some (Wrap err ("docker.ContainerCreate failed, name: " +:+ ctrVersionName)),
               info2)
      | (respID, None) =>
          call startErr :=
            (if onlyCreate then ret None
             else startContainer o respID ctrVersionName) in
          match startErr with
          | Some err =>
              call _ := rollbackVersion name version (Some err) in
              ret ("", "", noKv,
                   Some (Wrap err ("docker.ContainerStart failed, id: " +:+ respID
                                     +:+ ", name: " +:+ ctrVersionName)),
                   info2)
          | None =>
              let val := {| Version := version; CreateTime := Now o;
                            Config := config; HostConfig := hostConfig2;
                            ContainerName := ctrVersionName |} in
              call _ := rollbackVersion name version None in
              ret (respID, ctrVersionName,
                   Some (workQueue.PutKeyValue etcd.Containers name val),
                   None, info2)
          end
      end
  end.

(** [existContainer] *)
Definition existContainer (o : Outside) (name : string) : bool := ContainerList o name.

Definition containerRuntime : string := "nvidia".

Definition newContainerResource (uuids : list string) : container.Resources :=
  {| container.DeviceRequests :=
       [ {| container.Driver := "cdi"; container.DeviceIDs := uuids |} ];
     container.CpusetCpus := ""; container.Memory := 0 |}.

Definition with_CpusetCpus (c : string) (r : container.Resources) : container.Resources :=
  {| container.DeviceRequests := container.DeviceRequests r;
     container.CpusetCpus := c; container.Memory := container.Memory r |}.

Definition with_Memory (m : Z) (r : container.Resources) : container.Resources :=
  {| container.DeviceRequests := container.DeviceRequests r;
     container.CpusetCpus := container.CpusetCpus r; container.Memory := m |}.

Definition lxcfsBind : list string :=
  [ "/var/lib/lxcfs/proc/cpuinfo:/proc/cpuinfo:rw";
    "/var/lib/lxcfs/proc/diskstats:/proc/diskstats:rw";
    "/var/lib/lxcfs/proc/meminfo:/proc/meminfo:rw";
    "/var/lib/lxcfs/proc/stat:/proc/stat:rw";
    "/var/lib/lxcfs/proc/swaps:/proc/swaps:rw";
    "/var/lib/lxcfs/proc/uptime:/proc/uptime:rw" ].

(** Modelled from the spec: the error kind [ContainerExisted], whose
    constructor [xerrors.NewContainerExistedError] is not among the
    sources. *)
Definition NewContainerExistedError : error := New "container existed".

(** [DeviceRequests[0].DeviceIDs], read under [len(DeviceRequests) > 0]. *)
Definition firstDeviceIDs (r : container.Resources) : list string :=
  match container.DeviceRequests r with
  | d :: _ => container.DeviceIDs d
  | [] => []
  end.

(** [RunGpuContainer]: the named results [id], [containerName], [err]. *)
Definition RunGpuContainer (o : Outside) (spec : ContainerRun)
  : M (string * string * option error) :=
  if existContainer o (ReplicaSetName spec) then
    ret ("", "", Some (Wrap NewContainerExistedError
                         ("container " +:+ ReplicaSetName spec)))
  else
    let config :=
      {| container.Image := ImageName spec; container.Cmd := Cmd spec;
         container.Env := Env spec;
         container.ExposedPorts :=
           list_to_set ((fun port => port +:+ "/tcp") <$> ContainerPorts spec);
         container.OpenStdin := true; container.Tty := true |} in
    let hostConfig0 :=
      {| container.Binds := [];
         container.PortBindings :=
           list_to_map ((fun port => (port +:+ "/tcp", [])) <$> ContainerPorts spec);
         container.HostResources :=
           {| container.DeviceRequests := []; container.CpusetCpus := "";
              container.Memory := 0 |};
         container.StorageOpt := {[ "size" := "30G" ]};
         container.ShmSize := (ToBytes o "256GB").1;
         container.Runtime := containerRuntime |} in
    (* bind gpu resource *)
    call (uuids, gpuErr, hostConfig1) :=
      (if 0 <? GpuCount spec then
         call (uuids, err) := GpuApply o (GpuCount spec) in
         match err with
         | Some e => ret ([], Some e, hostConfig0)
         | None => ret (uuids, None,
                        container.with_Resources (newContainerResource uuids) hostConfig0)
         end
       else ret ([], None, hostConfig0)) in
    match gpuErr with
    | Some e => ret ("", "", Some (Wrap e "GpuScheduler.Apply failed"))
    | None =>
    (* bind cpu resource *)
    call (cpuErr, hostConfig2) :=
      (if 0 <? CpuCount spec then
         call (cpusets, err) := CpuApply (CpuCount spec) in
         match err with
         | Some e =>
             call _ := (if 0 <? GpuCount spec then GpuRestore uuids else ret tt) in
             ret (Some e, hostConfig1)
         | None =>
             ret (None, container.with_Resources
                          (with_CpusetCpus cpusets (container.HostResources hostConfig1))
                          hostConfig1)
         end
       else ret (None, hostConfig1)) in
    match cpuErr with
    | Some e => ret ("", "", Some (Wrap e "CpuScheduler.Apply failed"))
    | None =>
    (* bind memory resource *)
    call (memErr, hostConfig3) :=
      (if bool_decide (Memory spec <> "") then
         match ToBytes o (Memory spec) with
         | (_, Some e) =>
             call _ := (if 0 <? GpuCount spec then GpuRestore uuids else ret tt) in
             call _ := (if 0 <? CpuCount spec
                        then call _ := CpuRestore
                               (Split (container.CpusetCpus (container.HostResources hostConfig2))
                                      ","%char) in ret tt
                        else ret tt) in
             ret (Some e, hostConfig2)
         | (memory, None) =>
             ret (None, container.with_Resources
                          (with_Memory memory (container.HostResources hostConfig2))
                          hostConfig2)
         end
       else ret (None, hostConfig2)) in
    match memErr with
    | Some e => ret ("", "", Some (Wrap e "MemoryGetBytes failed"))
    | None =>
    (* bind volume *)
    let binds := (((fun b => Src b +:+ ":" +:+ Dest b) <$> Binds spec) ++ lxcfsBind)%list in
    let hostConfig4 := container.with_Binds binds hostConfig3 in
    (* create and start *)
    call (id, containerName, kv, err, info') :=
      runContainer o (ReplicaSetName spec)
        {| Version := 0; CreateTime := ""; Config := config;
           HostConfig := hostConfig4; ContainerName := "" |} false in
    let resources := container.HostResources (HostConfig info') in
    match err, kv with
    | Some e, _ =>
        call _ := (if 0 <? llen (container.DeviceRequests resources)
                   then GpuRestore (firstDeviceIDs resources) else ret tt) in
        call _ := CpuRestore (Split (container.CpusetCpus resources) ","%char) in
        ret (id, containerName, Some (Wrap e "serivce.runContainer failed"))
    | None, Some item =>
        call _ := send item in
        ret (id, containerName, None)
    | None, None => ret (id, containerName, None)
    end
    end end end.

(** The readers of [ContainerInspect]. *)
Definition containerStatusRunning (o : Outside) (name : string) : bool * option error :=
  match ContainerInspect o name with
  | (_, Some err) => (false, Some (Wrap err ("docker.ContainerInspect failed, name: " +:+ name)))
  | (resp, None) => (Running resp, None)
  end.

Definition containerStatusPaused (o : Outside) (name : string) : bool * option error :=
  match ContainerInspect o name with
  | (_, Some err) => (false, Some (Wrap err ("docker.ContainerInspect failed, name: " +:+ name)))
  | (resp, None) => (Paused resp, None)
  end.

Definition containerDeviceRequestsDeviceIDs (o : Outside) (name : string)
  : list string * option error :=
  match ContainerInspect o name with
  | (_, Some err) => ([], Some (Wrap err ("docker.ContainerInspect failed, name: " +:+ name)))
  | (resp, None) =>
      match InspectDeviceRequests resp with
      | [] => ([], None)
      | d :: _ => (container.DeviceIDs d, None)
      end
  end.

Definition containerCpusetCpus (o : Outside) (name : string) : list string * option error :=
  match ContainerInspect o name with
  | (_, Some err) => ([], Some (Wrap err ("docker.ContainerInspect failed, name: " +:+ name)))
  | (resp, None) => (Split (InspectCpusetCpus resp) ","%char, None)
  end.

Definition containerPortBindings (o : Outside) (name : string) : list string * option error :=
  match ContainerInspect o name with
  | (_, Some err) => ([], Some (Wrap err ("docker.ContainerInspect failed, name: " +:+ name)))
  | (resp, None) => ((fun kv => kv.2.1) <$> map_to_list (InspectPortBindings resp), None)
  end.

(** [strings.Split(name, "-")[0]] *)
Definition firstSegment (name : string) : string :=
  default "" (head (Split name "-"%char)).

(** [deleteMergeMap]: [os.RemoveAll] of merges/<first segment of name>.
    When the removal reports an error the directory is taken as left in
    place. *)
Definition deleteMergeMap (o : Outside) (name : string) : M (option error) :=
  let path := firstSegment name in
  match RemoveAll o path with
  | Some err =>
      ret (Some (Wrap err ("remove container merge layer failed, path: " +:+ path)))
  | None => fun w => Returns None (with_merges (delete path (merges w)) w)
  end.


Definition DeleteContainer (o : Outside) (name : string) : M (option error) :=
  call (version, ok) := versionGet name in
  if negb ok then
    ret (Some (New ("container: " +:+ name +:+ " version: " +:+ Itoa version
                      +:+ " not found in ContainerVersionMap")))
  else
    let ctrVersionName := versionName name version in
    match containerStatusRunning o ctrVersionName with
    | (_, Some err) => ret (Some (Wrap err "services.containerStatusRunning failed"))
    | (running, None) =>
    match containerStatusPaused o ctrVersionName with
    | (_, Some err) => ret (Some (Wrap err "services.containerStatusPaused failed"))
    | (pause, None) =>
    call restoreErr :=
      (if running || pause then
         match containerDeviceRequestsDeviceIDs o ctrVersionName with
         | (_, Some err) =>
             ret (Some (Wrap err "services.containerDeviceRequestsDeviceIDs failed"))
         | (uuids, None) =>
             call _ := GpuRestore uuids in
             match containerCpusetCpus o ctrVersionName with
             | (_, Some err) => ret (Some (Wrap err "services.containerCpusetCpus failed"))
             | (cpusets, None) =>
                 call _ := CpuRestore cpusets in
                 match containerPortBindings o ctrVersionName with
                 | (_, Some err) =>
                     ret (Some (Wrap err "services.containerPortBindings failed"))
                 | (ports, None) =>
                     call _ := PortRestore ports in
                     ret None
                 end
             end
         end
       else ret None) in
    match restoreErr with
    | Some e => ret (Some e)
    | None =>
    call mergeErr := deleteMergeMap o name in
    match mergeErr with
    | Some err => ret (Some (Wrap err "deleteMergeMap failed"))
    | None =>
        (* delete the version number and asynchronously delete the
           container info in etcd *)
        call _ := versionRemove (firstSegment name) in
        call _ := send (workQueue.DelKey etcd.Containers name) in
        match ContainerRemove o (versionName name version) with
        | Some err => ret (Some (Wrap err "docker.Cli.ContainerRemove failed"))
        | None => ret None
        end
    end end end end.

End services.

Export services.
Export containermodels.

(** ** Vocabulary of the properties *)

Module pool.

(** An id is free when its flag is 0; [Apply] takes every other flag as
    in use. *)
Definition is_free (m : gmap string Z) (id : string) : Prop := m !! id = Some 0.
Definition in_use (m : gmap string Z) (id : string) : Prop :=
  exists v, m !! id = Some v /\ v <> 0.

Definition count_free (m : gmap string Z) : Z :=
  Z.of_nat (size (filter (fun kv => kv.2 = 0) m)).
Definition count_in_use (m : gmap string Z) : Z :=
  Z.of_nat (size (filter (fun kv => kv.2 <> 0) m)).

(** The state a call leaves behind, whatever its outcome. *)
Definition state_of {S A : Type} (r : outcome S A) : S :=
  match r with
  | Returns _ s => s
  | Blocks s => s
  end.

(** Calls on the GPU scheduler and a sequence of them; a call that does
    not return ends the sequence. *)
Inductive gpu_call : Type :=
| CallGpuApply (order : list string) (num : Z)
| CallGpuRestore (gpus : list string).

Definition gpu_step (c : gpu_call) (gs : Gpu.gpuScheduler) : outcome Gpu.gpuScheduler unit :=
  match c with
  | CallGpuApply order num =>
      match Gpu.Apply order num gs with
      | Returns _ s => Returns tt s
      | Blocks s => Blocks s
      end
  | CallGpuRestore gpus => Gpu.Restore gpus gs
  end.

Fixpoint gpu_run (cs : list gpu_call) (gs : Gpu.gpuScheduler) : outcome Gpu.gpuScheduler unit :=
  match cs with
  | [] => Returns tt gs
  | c :: rest =>
      match gpu_step c gs with
      | Returns _ s => gpu_run rest s
      | Blocks s => Blocks s
      end
  end.

Inductive cpu_call : Type :=
| CallCpuApply (num : Z)
| CallCpuRestore (cpuSet : list string).

Definition cpu_step (c : cpu_call) (cs : Cpu.cpuScheduler) : outcome Cpu.cpuScheduler unit :=
  match c with
  | CallCpuApply num =>
      match Cpu.Apply num cs with
      | Returns _ s => Returns tt s
      | Blocks s => Blocks s
      end
  | CallCpuRestore cpuSet =>
      match Cpu.Restore cpuSet cs with
      | Returns _ s => Returns tt s
      | Blocks s => Blocks s
      end
  end.

Fixpoint cpu_run (cl : list cpu_call) (cs : Cpu.cpuScheduler) : outcome Cpu.cpuScheduler unit :=
  match cl with
  | [] => Returns tt cs
  | c :: rest =>
      match cpu_step c cs with
      | Returns _ s => cpu_run rest s
      | Blocks s => Blocks s
      end
  end.

(** Every id that a [Restore] of the sequence passes is in [ids]. *)
Definition gpu_restores_within (ids : gset string) (c : gpu_call) : Prop :=
  match c with
  | CallGpuApply _ _ => True
  | CallGpuRestore gpus => Forall (fun id => id ∈ ids) gpus
  end.

Definition cpu_restores_within (ids : gset string) (c : cpu_call) : Prop :=
  match c with
  | CallCpuApply _ => True
  | CallCpuRestore cpuSet => Forall (fun id => id ∈ ids) cpuSet
  end.

(** The pool states the CPU scheduler reaches from its initialization on
    a host with [cpuNum] processors, through calls that return. *)
Inductive cpu_reachable (cpuNum : Z) : Cpu.cpuScheduler -> Prop :=
| reach_init : cpu_reachable cpuNum (Cpu.InitCpuScheduler cpuNum)
| reach_step c cs r cs' :
    cpu_reachable cpuNum cs -> cpu_step c cs = Returns r cs' ->
    cpu_reachable cpuNum cs'.

(** The ids of a cpu-set string, and their order by integer value. *)
Definition ids_of (cpuSet : string) : list string := Split cpuSet ","%char.

Definition ascending (ids : list string) : Prop :=
  StronglySorted Z.lt ((fun id => (Atoi id).1) <$> ids).

(** Whether the byte [c] occurs in [s]. *)
Fixpoint has_byte (c : ascii) (s : string) : bool :=
  match s with
  | EmptyString => false
  | String c' s' => Ascii.eqb c' c || has_byte c s'
  end.

(** The units of a memory string with the power of 1024 each stands for. *)
Definition units : list (string * Z) :=
  [ ("KB", 1); ("MB", 2); ("GB", 3); ("TB", 4) ].

End pool.

Export pool.

(** ** Concrete pools, worlds and runtimes used as test inputs *)

Module scenarios.

Definition pool2 (a b : Z) : gmap string Z :=
  <[ "GPU-0" := a ]> (<[ "GPU-1" := b ]> ∅).

(** Two GPUs: both free; the first free and the second held; both held. *)
Definition gpus_free : Gpu.gpuScheduler :=
  {| Gpu.mu := false; Gpu.AvailableGpuNums := 2;
     Gpu.GpuStatusMap := pool2 0 0; Gpu.GpuAllocMap := ∅ |}.

Definition gpus_one_free : Gpu.gpuScheduler :=
  {| Gpu.mu := false; Gpu.AvailableGpuNums := 2;
     Gpu.GpuStatusMap := pool2 0 1; Gpu.GpuAllocMap := ∅ |}.

Definition gpus_held : Gpu.gpuScheduler :=
  {| Gpu.mu := false; Gpu.AvailableGpuNums := 2;
     Gpu.GpuStatusMap := pool2 1 1; Gpu.GpuAllocMap := ∅ |}.

Definition gpu_order2 : list string := [ "GPU-0"; "GPU-1" ].

(** Two host ports, free or held. *)
Definition ports (flag : Z) : Port.portScheduler :=
  {| Port.AvailablePortNums := 2;
     Port.PortStatusMap := <[ "40000" := flag ]> (<[ "40001" := flag ]> ∅) |}.

(** A host with two GPUs, two CPUs and two ports, everything free, no
    replica set yet. *)
Definition fresh : world :=
  {| GpuScheduler := gpus_free; CpuScheduler := Cpu.InitCpuScheduler 2;
     PortScheduler := ports 0; ContainerVersionMap := ∅; Queue := [];
     merges := ∅ |}.

(** The same host with every port taken. *)
Definition no_port_left : world := with_Port (ports 1) fresh.

Definition stopped : ContainerJSON :=
  {| Running := false; Paused := false; InspectDeviceRequests := [];
     InspectCpusetCpus := ""; InspectPortBindings := ∅ |}.

(** A runtime on which every call succeeds. *)
Definition obliging : Outside :=
  {| ContainerList := fun _ => false;
     ContainerCreate := fun name => ("id-" +:+ name, None);
     ContainerStart := fun _ => None;
     ContainerRemove := fun _ => None;
     ContainerInspect := fun _ => (stopped, None);
     RemoveAll := fun _ => None;
     Now := "2024-01-01 00:00:00";
     ToBytes := fun _ => (8 * 1024 ^ 3, None);
     gpu_order := gpu_order2;
     port_order := [ "40000"; "40001" ] |}.

(** The same runtime, except that it refuses to create a container. *)
Definition refusing : Outside :=
  {| ContainerList := fun _ => false;
     ContainerCreate := fun _ => ("", Some (New "No such image"));
     ContainerStart := fun _ => None;
     ContainerRemove := fun _ => None;
     ContainerInspect := fun _ => (stopped, None);
     RemoveAll := fun _ => None;
     Now := "2024-01-01 00:00:00";
     ToBytes := fun _ => (8 * 1024 ^ 3, None);
     gpu_order := gpu_order2;
     port_order := [ "40000"; "40001" ] |}.

(** POST /containers for the replica set "job". *)
Definition job (gpuCount cpuCount : Z) (containerPorts : list string) : ContainerRun :=
  {| ImageName := "img"; ReplicaSetName := "job"; GpuCount := gpuCount;
     CpuCount := cpuCount; Memory := "8GB"; Binds := []; Env := [];
     Cmd := []; ContainerPorts := containerPorts |}.

(** A host that runs version 1 of the replica set "a-b" next to version 3
    of the replica set "a", each with a preserved overlay. *)
Definition two_sets : world :=
  with_merges (<[ "a" := {[ "a-b-0"; "a-2" ]} ]> ∅)
    (with_Versions (<[ "a-b" := 1 ]> (<[ "a" := 3 ]> ∅)) fresh).

(** The record that [PatchContainer] or [RunGpuContainer] hands to
    [runContainer] for a container that publishes port 22. *)
Definition info_one_port : EtcdContainerInfo :=
  {| Version := 0; CreateTime := "";
     Config := {| container.Image := "img"; container.Cmd := [];
                  container.Env := []; container.ExposedPorts := {[ "22/tcp" ]};
                  container.OpenStdin := true; container.Tty := true |};
     HostConfig := {| container.Binds := [];
                      container.PortBindings := {[ "22/tcp" := [] ]};
                      container.HostResources :=
                        {| container.DeviceRequests := [];
                           container.CpusetCpus := ""; container.Memory := 0 |};
                      container.StorageOpt := ∅; container.ShmSize := 0;
                      container.Runtime := "" |};
     ContainerName := "" |}.

(** A CPU pool as a snapshot may hold it: two ids, "5" and "7", held. *)
Definition cpus_5_7 : Cpu.cpuScheduler :=
  {| Cpu.mu := false; Cpu.AvailableCpuNums := 2;
     Cpu.CpuStatusMap := <[ "5" := 1 ]> (<[ "7" := 1 ]> ∅) |}.

(** Calls that restore only ids of the pool they are made on. *)
Definition gpu_calls_ok : list gpu_call :=
  [ CallGpuApply gpu_order2 2; CallGpuRestore [ "GPU-1" ]; CallGpuApply gpu_order2 1 ].

Definition cpu_calls_ok : list cpu_call :=
  [ CallCpuApply 2; CallCpuRestore [ "1"; "0" ]; CallCpuApply 1 ].

(** The CPU pool of a host with two processors after one CPU was taken
    and the empty id was restored. *)
Definition cpus_after_empty_restore : Cpu.cpuScheduler :=
  state_of (cpu_run [ CallCpuApply 1; CallCpuRestore [ "" ] ] (Cpu.InitCpuScheduler 2)).

End scenarios.

Export scenarios.

(** ** Package [schedulers]: the allocation index of the GPU scheduler *)

Module GpuAlloc.

Definition with_alloc (a : gmap string (list string)) (gs : Gpu.gpuScheduler)
  : Gpu.gpuScheduler :=
  {| Gpu.mu := Gpu.mu gs; Gpu.AvailableGpuNums := Gpu.AvailableGpuNums gs;
     Gpu.GpuStatusMap := Gpu.GpuStatusMap gs; Gpu.GpuAllocMap := a |}.

(** [Alloc]: [gs.GpuAllocMap[name] = gpus] under the write lock. *)
Definition Alloc (name : string) (gpus : list string) (gs : Gpu.gpuScheduler)
  : outcome Gpu.gpuScheduler unit :=
  if Gpu.mu gs then Blocks gs
  else
    let gs1 := Gpu.with_mu true gs in
    Returns tt (Gpu.with_mu false
                  (with_alloc (<[ name := gpus ]> (Gpu.GpuAllocMap gs1)) gs1)).

(** [Dealloc]: [delete(gs.GpuAllocMap, name)] under the write lock. *)
Definition Dealloc (name : string) (gs : Gpu.gpuScheduler)
  : outcome Gpu.gpuScheduler unit :=
  if Gpu.mu gs then Blocks gs
  else
    let gs1 := Gpu.with_mu true gs in
    Returns tt (Gpu.with_mu false
                  (with_alloc (delete name (Gpu.GpuAllocMap gs1)) gs1)).

(** [GetAllocMap]: a copy of the index, taken under the read lock, which
    waits while the lock is held for writing. *)
Definition GetAllocMap (gs : Gpu.gpuScheduler)
  : outcome Gpu.gpuScheduler (gmap string (list string)) :=
  if Gpu.mu gs then Blocks gs else Returns (Gpu.GpuAllocMap gs) gs.

(** [GetAllocGpus]: [gpus, ok := gs.GpuAllocMap[name]] under the read
    lock; a missing name gives the nil slice and [false]. *)
Definition GetAllocGpus (name : string) (gs : Gpu.gpuScheduler)
  : outcome Gpu.gpuScheduler (list string * bool) :=
  if Gpu.mu gs then Blocks gs
  else
    match Gpu.GpuAllocMap gs !! name with
    | Some gpus => Returns (gpus, true) gs
    | None => Returns ([], false) gs
    end.

End GpuAlloc.

(** ** Package [services]: replicaset.go, stopping and patching *)

Module replicaset.

Definition with_HostResources (r : container.Resources) (info : EtcdContainerInfo)
  : EtcdContainerInfo :=
  {| Version := Version info; CreateTime := CreateTime info; Config := Config info;
     HostConfig := container.with_Resources r (HostConfig info);
     ContainerName := ContainerName info |}.

Definition with_DeviceRequests (d : list container.DeviceRequest) (r : container.Resources)
  : container.Resources :=
  {| container.DeviceRequests := d; container.CpusetCpus := container.CpusetCpus r;
     container.Memory := container.Memory r |}.


(** [patchGpu]. The pointer [spec] to a [GpuPatch], a struct of the one
    field [GpuCount], is [None] for nil. The result is the record behind
    [info] as the call leaves it, and the error. *)
Definition patchGpu (o : Outside) (name : string) (spec : option Z)
    (info : EtcdContainerInfo) : M (EtcdContainerInfo * option error) :=
  match containerStatusRunning o name with
  | (_, Some err) => ret (info, Some (Wrap err "services.containerStatusRunning failed"))
  | (running, None) =>
  match containerStatusPaused o name with
  | (_, Some err) => ret (info, Some (Wrap err "services.containerStatusPaused failed"))
  | (pause, None) =>
  match containerDeviceRequestsDeviceIDs o name with
  | (_, Some err) =>
      ret (info, Some (Wrap err "services.containerDeviceRequestsDeviceIDs failed"))
  | (uuids, None) =>
      if match spec with
         | Some GpuCount => (llen uuids =? GpuCount) && (running || pause)
         | None => false
         end
      then ret (info, None)
      else
        let GpuCount := match spec with
                        | Some GpuCount => GpuCount
                        | None => llen uuids
                        end in
        call _ := (if running || pause then GpuRestore uuids else ret tt) in
        if GpuCount =? 0 then
          ret (with_HostResources
                 {| container.DeviceRequests := []; container.CpusetCpus := "";
                    container.Memory :=
                      container.Memory (container.HostResources (HostConfig info)) |}
                 info, None)
        else
          call (uuids', err) := GpuApply o GpuCount in
          match err with
          | Some e => ret (info, Some (Wrap e "GpuScheduler.Apply failed"))
          | None =>
              ret (with_HostResources
                     (with_DeviceRequests
                        (container.DeviceRequests (newContainerResource uuids'))
                        (container.HostResources (HostConfig info)))
                     info, None)
          end
  end end end.


End replicaset.

(** ** Package [services]: replicaset_mock.go, the build without GPUs *)

Module mock.

(** The loop of [runContainer] that overwrites the first MOCK_GPU_UUID
    entry of the environment; [None] when there is none. *)
Fixpoint replaceGpuEnv (entry : string) (env : list string) : option (list string) :=
  match env with
  | [] => None
  | e :: rest =>
      if HasPrefix e "MOCK_GPU_UUID=" then Some (entry :: rest)
      else option_map (cons e) (replaceGpuEnv entry rest)
  end.

Definition setGpuEnv (uuids : list string) (env : list string) : list string :=
  let entry := "MOCK_GPU_UUID=" +:+ Join uuids "," in
  match replaceGpuEnv entry env with
  | Some env' => env'
  | None => (env ++ [entry])%list
  end.

(** [runContainer] of the mock build. The device requests are moved into
    the environment before the container is created and are put back into
    the record when the creation or the start fails; the deferred function
    and the variable [err] are as in the other build. *)
Definition runContainer (o : Outside) (name : string) (info : EtcdContainerInfo)
    (onlyCreate : bool)
  : M (string * string * option workQueue.item * option error * EtcdContainerInfo) :=
  call (version0, _) := versionGet name in
  let version := version0 + 1 in
  call _ := versionSet name version in
  let env1 := setVersionEnv version (container.Env (Config info)) in
  let deviceRequest :=
    container.DeviceRequests (container.HostResources (HostConfig info)) in
  let env2 := match deviceRequest with
              | d :: _ => setGpuEnv (container.DeviceIDs d) env1
              | [] => env1
              end in
  let resources := match deviceRequest with
                   | _ :: _ => replicaset.with_DeviceRequests []
                                 (container.HostResources (HostConfig info))
                   | [] => container.HostResources (HostConfig info)
                   end in
  let config := container.with_Env env2 (Config info) in
  let hostConfig := container.with_Resources resources (HostConfig info) in
  let info1 := {| Version := Version info; CreateTime := CreateTime info;
                  Config := config; HostConfig := hostConfig;
                  ContainerName := ContainerName info |} in
  let pb := container.PortBindings hostConfig in
  call (portErr, hostConfig2) :=
    (if 0 <? Z.of_nat (size pb) then
       call (availableOSPorts, err) := PortApply o (Z.of_nat (size pb)) in
       match err with
       | Some e => ret (Some e, hostConfig)
       | None =>
           ret (None, container.with_PortBindings
                        (fillPortBindings (map_to_list pb).*1 availableOSPorts pb)
                        hostConfig)
       end
     else ret (None, hostConfig)) in
  match portErr with
  | Some e =>
      call _ := rollbackVersion name version None in
      ret ("", "", noKv,
           Some (Wrap e "Portscheduler.Apply failed"), info1)
  | None =>
      let ctrVersionName := versionName name version in
      let info2 := {| Version := Version info; CreateTime := Now o;
                      Config := config; HostConfig := hostConfig2;
                      ContainerName := ContainerName info |} in
      let restored :=
        {| Version := Version info; CreateTime := Now o; Config := config;
           HostConfig :=
             container.with_Resources
               (replicaset.with_DeviceRequests deviceRequest
                  (container.HostResources hostConfig2))
               hostConfig2;
           ContainerName := ContainerName info |} in
      match ContainerCreate o ctrVersionName with
      | (_, Some err) =>
          call _ := rollbackVersion name version (Some err) in
          ret ("", "", noKv,
               Some (Wrap err ("docker.ContainerCreate failed, name: " +:+ ctrVersionName)),
               restored)
      | (respID, None) =>
          match (if onlyCreate then None else ContainerStart o respID) with
          | Some err =>
              call _ := rollbackVersion name version (Some err) in
              ret ("", "", noKv,
                   Some (Wrap err ("docker.ContainerStart failed, id: " +:+ respID
                                     +:+ ", name: " +:+ ctrVersionName)),
                   restored)
          | None =>
              let val := {| Version := version; CreateTime := Now o;
                            Config := config; HostConfig := hostConfig2;
                            ContainerName := ctrVersionName |} in
              call _ := rollbackVersion name version None in
              ret (respID, ctrVersionName,
                   Some (workQueue.PutKeyValue etcd.Containers name val),
                   None, info2)
          end
      end
  end.

(** The loop of [containerDeviceRequestsDeviceIDs] over the environment
    of the inspected container. An entry with the prefix has a "=", so
    the index 1 of its split exists; no entry gives the nil slice. *)
Fixpoint envDeviceIDs (env : list string) : list string :=
  match env with
  | [] => []
  | e :: rest =>
      if HasPrefix e "MOCK_GPU_UUID="
      then Split (default "" (Split e "="%char !! 1%nat)) ","%char
      else envDeviceIDs rest
  end.

(** [containerDeviceRequestsDeviceIDs] of the mock build; [InspectEnv] is
    the environment that [ContainerInspect] reports for a container. *)
Definition containerDeviceRequestsDeviceIDs (o : Outside)
    (InspectEnv : string -> list string) (name : string)
  : list string * option error :=
  match ContainerInspect o name with
  | (_, Some err) => ([], Some (Wrap err ("docker.ContainerInspect failed, name: " +:+ name)))
  | (_, None) => (envDeviceIDs (InspectEnv name), None)
  end.

Definition newContainerResource (uuids : list string) : container.Resources :=
  {| container.DeviceRequests :=
       [ {| container.Driver := "mock"; container.DeviceIDs := uuids |} ];
     container.CpusetCpus := ""; container.Memory := 0 |}.

Definition containerRuntime : string := "".

End mock.

(** ** Further vocabulary *)

Module listing.

(** The free ids of a pool in the order of a listing of its ids. *)
Definition free_ids (order : list string) (m : gmap string Z) : list string :=
  filter (fun id => m !! id = Some 0) order.

(** The parts of the world that a call on the GPU or the CPU scheduler
    does not touch. *)
Definition same_records (w w' : world) : Prop :=
  Queue w' = Queue w /\ merges w' = merges w
  /\ ContainerVersionMap w' = ContainerVersionMap w
  /\ PortScheduler w' = PortScheduler w.

End listing.

Export listing.

(** ** Further test inputs *)

Module cases.



(** A running container that holds the GPU "GPU-1" and the CPU "1", and
    a runtime that reports it for every name. *)
Definition live : ContainerJSON :=
  {| Running := true; Paused := false;
     InspectDeviceRequests :=
       [ {| container.Driver := "cdi"; container.DeviceIDs := [ "GPU-1" ] |} ];
     InspectCpusetCpus := "1"; InspectPortBindings := ∅ |}.

Definition running : Outside :=
  {| ContainerList := ContainerList obliging;
     ContainerCreate := ContainerCreate obliging;
     ContainerStart := ContainerStart obliging;
     ContainerRemove := ContainerRemove obliging;
     ContainerInspect := fun _ => (live, None);
     RemoveAll := RemoveAll obliging; Now := Now obliging;
     ToBytes := ToBytes obliging;
     gpu_order := gpu_order obliging; port_order := port_order obliging |}.

(** The host of [fresh] while that container runs: "GPU-1" and the CPU
    "1" are held. *)
Definition busy : world :=
  with_Cpu {| Cpu.mu := false; Cpu.AvailableCpuNums := 2;
              Cpu.CpuStatusMap := <[ "0" := 0 ]> (<[ "1" := 1 ]> ∅) |}
    (with_Gpu gpus_one_free fresh).

(** The record of a container with the GPU "GPU-0". *)
Definition info_one_gpu : EtcdContainerInfo :=
  {| Version := 0; CreateTime := ""; Config := Config info_one_port;
     HostConfig :=
       container.with_Resources (newContainerResource [ "GPU-0" ])
         (container.with_PortBindings ∅ (HostConfig info_one_port));
     ContainerName := "" |}.

End cases.

Export cases.

(** * Properties *)

(** ** Memory strings *)

Lemma substring_app_left (s u : string) :
  String.substring 0 (String.length s) (s +:+ u) = s.
Proof.
  induction s as [|c s IH]; simpl.
  - by destruct u.
  - by rewrite IH.
Qed.

Lemma substring_all (u : string) : String.substring 0 (String.length u) u = u.
Proof. induction u as [|c u IH]; simpl; [done | by rewrite IH]. Qed.

Lemma substring_app_right (s u : string) :
  String.substring (String.length s) (String.length u) (s +:+ u) = u.
Proof.
  induction s as [|c s IH]; simpl; [apply substring_all | done].
Qed.

Lemma length_string_app (s u : string) :
  String.length (s +:+ u) = (String.length s + String.length u)%nat.
Proof. induction s as [|c s IH]; simpl; [done | by rewrite IH]. Qed.

Lemma slice_from_last (s u : string) :
  slice_from (s +:+ u) (len (s +:+ u) - len u) = Some u.
Proof.
  unfold slice_from, len. rewrite length_string_app.
  replace (Z.of_nat (String.length s + String.length u) - Z.of_nat (String.length u))
    with (Z.of_nat (String.length s)) by lia.
  rewrite Nat2Z.id.
  destruct (Z.ltb_spec (Z.of_nat (String.length s)) 0); [lia|].
  destruct (Z.ltb_spec (Z.of_nat (String.length s + String.length u))
              (Z.of_nat (String.length s))); [lia|].
  simpl. f_equal.
  replace (String.length s + String.length u - String.length s)%nat
    with (String.length u) by lia.
  apply substring_app_right.
Qed.

Lemma String_eqb_refl (s : string) : String.eqb s s = true.
Proof. by apply String.eqb_eq. Qed.

Lemma TrimSuffix_app (s u : string) : TrimSuffix (s +:+ u) u = s.
Proof.
  unfold TrimSuffix, HasSuffix. rewrite length_string_app.
  replace (String.length s + String.length u - String.length u)%nat
    with (String.length s) by lia.
  rewrite substring_app_right, String_eqb_refl, substring_app_left.
  destruct (Nat.leb_spec (String.length u) (String.length s + String.length u)); [done | lia].
Qed.

Lemma slice_from_Some (s : string) (lo : Z) :
  0 <= lo <= len s -> exists u, slice_from s lo = Some u.
Proof.
  intros [H0 H1]. unfold slice_from.
  destruct (Z.ltb_spec lo 0); [lia|].
  destruct (Z.ltb_spec (len s) lo); [lia|]. simpl. eauto.
Qed.

Lemma slice_from_None (s : string) (lo : Z) : lo < 0 -> slice_from s lo = None.
Proof.
  intros H. unfold slice_from. by destruct (Z.ltb_spec lo 0); [|lia].
Qed.

Lemma MemoryUnitMap_unit (u : string) (k : Z) :
  (u, k) ∈ units -> MemoryUnitMap !! u = Some (1024 ^ k).
Proof.
  unfold units. rewrite !elem_of_cons, elem_of_nil.
  intros [H|[H|[H|[H|[]]]]]; inversion H; subst; reflexivity.
Qed.

Lemma MemoryUnitMap_other (u : string) :
  u ∉ MemorySizeMap -> MemoryUnitMap !! u = None.
Proof.
  unfold MemorySizeMap, MemoryUnitMap.
  rewrite !not_elem_of_union, !not_elem_of_singleton. intros [[[? ?] ?] ?].
  rewrite !lookup_insert_ne, lookup_empty by done. done.
Qed.

(** A string shorter than two bytes makes the slice expression panic. *)
Lemma MemoryGetBytes_short_panics (ParseFloat : string -> float * option error)
    (size : string) :
  len size < 2 -> MemoryGetBytes ParseFloat size = Panic.
Proof.
  intros H. unfold MemoryGetBytes. rewrite slice_from_None by lia. done.
Qed.

(** C10. [MemoryGetBytes] on a string of at least two bytes does not
    panic: the slice that takes the last two bytes as the unit succeeds,
    and the call returns either a byte count or the error of the float
    parser, whatever that parser answers. *)
Theorem MemoryGetBytes_no_panic (ParseFloat : string -> float * option error)
    (size : string) :
  2 <= len size ->
  (exists unit, slice_from size (len size - 2) = Some unit) /\
  ((exists n, MemoryGetBytes ParseFloat size = Ok n) \/
   (exists e, MemoryGetBytes ParseFloat size = Err e)).
Proof.
  intros H.
  destruct (slice_from_Some size (len size - 2)) as [unit Hu].
  { unfold len in *. lia. }
  split; [eauto|].
  unfold MemoryGetBytes. rewrite Hu.
  destruct (ParseFloat (TrimSuffix size unit)) as [value [e|]]; eauto.
Qed.

Lemma MemoryGetBytes_no_panic_witness :
  2 <= len "8GB" /\
  ((exists unit, slice_from "8GB" (len "8GB" - 2) = Some unit) /\
   ((exists n, MemoryGetBytes ParseFloat_decimal "8GB" = Ok n) \/
    (exists e, MemoryGetBytes ParseFloat_decimal "8GB" = Err e))).
Proof.
  split; [vm_compute; discriminate |].
  apply (MemoryGetBytes_no_panic ParseFloat_decimal "8GB").
  vm_compute; discriminate.
Defined.

(** C7. When the float parser reads the text [s] as the value [v], the
    memory string [s] followed by a unit KB, MB, GB or TB is parsed to
    [int64(v * 1024^k)] with k = 1, 2, 3, 4, for every float [v]; with
    "8" read as 8 and "1.5" as 1.5, "8GB" gives 8 * 1024^3 and "1.5TB"
    gives 1.5 * 1024^4 = 1649267441664. *)
Theorem MemoryGetBytes_units (ParseFloat : string -> float * option error) :
  (forall (s u : string) (v : float) (k : Z),
      ParseFloat s = (v, None) ->
      (u, k) ∈ units ->
      MemoryGetBytes ParseFloat (s +:+ u)
      = Ok (int64_of_float64 (PrimFloat.mul v (float64_of_uint64 (1024 ^ k)))))
  /\ (ParseFloat "8" = (8%float, None) ->
      MemoryGetBytes ParseFloat "8GB" = Ok (8 * 1024 ^ 3))
  /\ (ParseFloat "1.5" = (1.5%float, None) ->
      MemoryGetBytes ParseFloat "1.5TB" = Ok 1649267441664).
Proof.
  assert (Hmain : forall (s u : string) (v : float) (k : Z),
      ParseFloat s = (v, None) ->
      (u, k) ∈ units ->
      MemoryGetBytes ParseFloat (s +:+ u)
      = Ok (int64_of_float64 (PrimFloat.mul v (float64_of_uint64 (1024 ^ k))))).
  { intros s u v k HP Hu.
    assert (Hlen : len u = 2).
    { revert Hu. unfold units. rewrite !elem_of_cons, elem_of_nil.
      intros [H|[H|[H|[H|[]]]]]; inversion H; reflexivity. }
    unfold MemoryGetBytes.
    rewrite <- Hlen, slice_from_last, TrimSuffix_app, HP.
    by rewrite (MemoryUnitMap_unit u k Hu). }
  split; [exact Hmain|].
  split; intros HP.
  - change "8GB" with ("8" +:+ "GB").
    rewrite (Hmain "8" "GB" _ 3 HP)
      by (unfold units; do 2 apply list_elem_of_further; apply list_elem_of_here).
    vm_compute. reflexivity.
  - change "1.5TB" with ("1.5" +:+ "TB").
    rewrite (Hmain "1.5" "TB" _ 4 HP)
      by (unfold units; do 3 apply list_elem_of_further; apply list_elem_of_here).
    vm_compute. reflexivity.
Qed.

Lemma MemoryGetBytes_units_witness :
  MemoryGetBytes ParseFloat_decimal "8GB" = Ok (8 * 1024 ^ 3)
  /\ MemoryGetBytes ParseFloat_decimal "1.5TB" = Ok 1649267441664
  /\ MemoryGetBytes ParseFloat_decimal ("0.25" +:+ "MB")
     = Ok (int64_of_float64 (PrimFloat.mul 0.25%float (float64_of_uint64 (1024 ^ 2)))).
Proof.
  destruct (MemoryGetBytes_units ParseFloat_decimal) as (Hall & H8 & H15).
  split; [apply H8; vm_compute; reflexivity |].
  split; [apply H15; vm_compute; reflexivity |].
  apply Hall; [vm_compute; reflexivity |].
  unfold units. apply list_elem_of_further, list_elem_of_here.
Defined.

(** A memory string that ends in an unknown unit: the text before it is a
    number, and the call returns 0 bytes and no error. *)
Lemma MemoryGetBytes_unknown_unit_returns :
  MemoryGetBytes ParseFloat_decimal "8XB" = Ok 0 /\ ("XB" ∉ MemorySizeMap).
Proof.
  split; [vm_compute; reflexivity |].
  unfold MemorySizeMap.
  rewrite !not_elem_of_union, !not_elem_of_singleton. repeat split; discriminate.
Qed.

(** C8, amended. For a memory string of at least two bytes whose last two
    bytes are not KB, MB, GB or TB, [MemoryGetBytes] fails only when the
    text before them is not a float, with the error of the float parser;
    otherwise it returns [int64(value * 0)] as the byte count, without an
    error, the unknown unit counting as the multiplier 0. *)
Theorem MemoryGetBytes_unknown_unit (ParseFloat : string -> float * option error)
    (size unit : string) :
  slice_from size (len size - 2) = Some unit ->
  unit ∉ MemorySizeMap ->
  MemoryGetBytes ParseFloat size
  = match ParseFloat (TrimSuffix size unit) with
    | (_, Some err) => Err err
    | (value, None) =>
        Ok (int64_of_float64 (PrimFloat.mul value (float64_of_uint64 0)))
    end.
Proof.
  intros Hu Hn. unfold MemoryGetBytes. rewrite Hu.
  rewrite (MemoryUnitMap_other unit Hn). reflexivity.
Qed.

Lemma MemoryGetBytes_unknown_unit_witness :
  slice_from "8XB" (len "8XB" - 2) = Some "XB"
  /\ ("XB" ∉ MemorySizeMap)
  /\ MemoryGetBytes ParseFloat_decimal "8XB"
     = match ParseFloat_decimal (TrimSuffix "8XB" "XB") with
       | (_, Some err) => Err err
       | (value, None) =>
           Ok (int64_of_float64 (PrimFloat.mul value (float64_of_uint64 0)))
       end.
Proof.
  assert (Hn : "XB" ∉ MemorySizeMap)
    by (unfold MemorySizeMap;
        rewrite !not_elem_of_union, !not_elem_of_singleton; repeat split; discriminate).
  split; [vm_compute; reflexivity |].
  split; [exact Hn |].
  apply (MemoryGetBytes_unknown_unit ParseFloat_decimal "8XB" "XB");
    [vm_compute; reflexivity | exact Hn].
Defined.

(** ** The status maps under [Restore] and [Apply] *)

Lemma mark_free_lookup (ids : list string) (m : gmap string Z) (k : string) :
  mark_free ids m !! k = if decide (k ∈ ids) then Some 0 else m !! k.
Proof.
  revert m. induction ids as [|id ids IH]; intros m.
  - simpl. destruct (decide (k ∈ [])) as [H|H]; [by apply elem_of_nil in H | done].
  - change (mark_free ids (<[ id := 0 ]> m) !! k
            = if decide (k ∈ id :: ids) then Some 0 else m !! k).
    rewrite IH.
    destruct (decide (k ∈ ids)) as [Hin|Hnin];
      destruct (decide (k ∈ id :: ids)) as [Hin2|Hnin2].
    + done.
    + exfalso. apply Hnin2. by apply list_elem_of_further.
    + apply elem_of_cons in Hin2 as [->|?]; [apply lookup_insert_eq | done].
    + apply lookup_insert_ne. intros ->. apply Hnin2. apply list_elem_of_here.
Qed.

Lemma mark_free_idempotent (ids : list string) (m : gmap string Z) :
  mark_free ids (mark_free ids m) = mark_free ids m.
Proof.
  apply map_eq; intros k. rewrite !mark_free_lookup. by case_decide.
Qed.

Lemma mark_free_dom (ids : list string) (m : gmap string Z) :
  dom (mark_free ids m) = dom m ∪ list_to_set ids.
Proof.
  apply set_eq; intros k.
  rewrite elem_of_union, !elem_of_dom, elem_of_list_to_set, mark_free_lookup.
  case_decide; [split; eauto | split; [eauto | by intros [?|?]]].
Qed.

Lemma mark_free_dom_within (ids : list string) (m : gmap string Z) :
  Forall (fun id => id ∈ dom m) ids -> dom (mark_free ids m) = dom m.
Proof.
  intros H. rewrite mark_free_dom. apply set_eq; intros k.
  rewrite elem_of_union, elem_of_list_to_set. split; [|by left].
  intros [?|Hk]; [done|]. by eapply Forall_forall in H.
Qed.

Lemma dom_insert_member (m : gmap string Z) (k : string) (v : Z) :
  k ∈ dom m -> dom (<[ k := v ]> m) = dom m.
Proof.
  intros H. rewrite dom_insert_L. apply set_eq; intros j.
  rewrite elem_of_union, elem_of_singleton. split; [|by right].
  by intros [->|?].
Qed.

Lemma apply_loop_dom (num : Z) (order : list string) (m : gmap string Z)
    (available : list string) :
  dom (apply_loop num order m available).1 = dom m.
Proof.
  revert m available. induction order as [|k rest IH]; intros m available; simpl; [done|].
  destruct (m !! k) as [v|] eqn:Hk; [|apply IH].
  destruct (v =? 0); [|apply IH].
  assert (Hd : dom (<[ k := 1 ]> m) = dom m)
    by (apply dom_insert_member; by eapply elem_of_dom_2).
  destruct (llen (available ++ [k])%list =? num); simpl; [done|].
  by rewrite IH.
Qed.

Lemma cpu_apply_loop_dom (num : Z) (indices : list Z) (m : gmap string Z)
    (applyCpus : list string) :
  Forall (fun k => Itoa k ∈ dom m) indices ->
  Forall (fun id => id ∈ dom m) applyCpus ->
  dom (Cpu.apply_loop num indices m applyCpus).1 = dom m
  /\ Forall (fun id => id ∈ dom m) (Cpu.apply_loop num indices m applyCpus).2.
Proof.
  revert m applyCpus.
  induction indices as [|k rest IH]; intros m applyCpus Hi Ha; simpl; [done|].
  apply Forall_cons in Hi as [Hk Hrest].
  destruct (default 0 (m !! Itoa k) =? 0); [|by apply IH].
  assert (Hd : dom (<[ Itoa k := 1 ]> m) = dom m) by by apply dom_insert_member.
  assert (Ha' : Forall (fun id => id ∈ dom m) (applyCpus ++ [Itoa k])%list)
    by (apply Forall_app; split; [done | by apply Forall_singleton]).
  destruct (llen (applyCpus ++ [Itoa k])%list =? num); simpl; [done|].
  destruct (IH (<[ Itoa k := 1 ]> m) (applyCpus ++ [Itoa k])%list) as [H1 H2];
    rewrite ?Hd; try done.
  by rewrite H1, Hd in *.
Qed.

Lemma count_free_in_use (m : gmap string Z) :
  count_free m + count_in_use m = Z.of_nat (size m).
Proof.
  unfold count_free, count_in_use.
  rewrite <- Nat2Z.inj_add, <- map_size_disj_union
    by apply map_disjoint_filter_complement.
  by rewrite map_filter_union_complement.
Qed.

Global Instance Itoa_of_nat_inj : Inj (=) (=) (fun i : nat => Itoa (Z.of_nat i)).
Proof.
  intros i j H. unfold Itoa in H. apply (inj pretty) in H. lia.
Qed.

Lemma getAllCpuProcessors_NoDup (cpuNum : Z) : NoDup (Cpu.getAllCpuProcessors cpuNum).
Proof.
  unfold Cpu.getAllCpuProcessors.
  apply (NoDup_fmap_2 (fun i : nat => Itoa (Z.of_nat i))), NoDup_seq.
Qed.

Lemma getAllCpuProcessors_length (cpuNum : Z) :
  length (Cpu.getAllCpuProcessors cpuNum) = Z.to_nat cpuNum.
Proof. unfold Cpu.getAllCpuProcessors. by rewrite length_fmap, length_seq. Qed.

(** On a pool whose ids are the numerals 0 .. n-1, the indices that the
    loop of [cpuScheduler.Apply] runs over are the ids themselves. *)
Lemma range_indices_members (cpuNum : Z) (m : gmap string Z) :
  dom m = list_to_set (Cpu.getAllCpuProcessors cpuNum) ->
  Forall (fun k => Itoa k ∈ dom m) (Cpu.range_indices (Cpu.sorted_keys m)).
Proof.
  intros Hd. apply Forall_forall. intros k Hk.
  unfold Cpu.range_indices in Hk.
  apply list_elem_of_fmap in Hk as (i & -> & Hi).
  apply elem_of_seq in Hi.
  assert (Hlen : length (Cpu.sorted_keys m) = Z.to_nat cpuNum).
  { unfold Cpu.sorted_keys.
    rewrite (Permutation_length (merge_sort_Permutation _ _)), length_fmap.
    change (length (elements (dom m))) with (size (dom m)).
    rewrite Hd, size_list_to_set by apply getAllCpuProcessors_NoDup.
    apply getAllCpuProcessors_length. }
  rewrite Hd, elem_of_list_to_set. unfold Cpu.getAllCpuProcessors.
  apply (list_elem_of_fmap_2 (fun i : nat => Itoa (Z.of_nat i))).
  apply elem_of_seq. lia.
Qed.

Lemma llen_app_one {A} (l : list A) (x : A) : llen (l ++ [x])%list = llen l + 1.
Proof. unfold llen. rewrite length_app. simpl. lia. Qed.

(** What the loop of [gpuScheduler.Apply] does: it appends ids that were
    free, marks them in use, touches no other id and stops at [num]. *)
Lemma apply_loop_spec (num : Z) (order : list string) (m : gmap string Z)
    (available : list string) :
  llen available < num ->
  exists new,
    (apply_loop num order m available).2 = (available ++ new)%list
    /\ NoDup new
    /\ llen (available ++ new)%list <= num
    /\ (forall id, id ∈ new ->
          m !! id = Some 0 /\ (apply_loop num order m available).1 !! id = Some 1)
    /\ (forall id, id ∉ new -> (apply_loop num order m available).1 !! id = m !! id).
Proof.
  revert m available. induction order as [|k rest IH]; intros m available Hlt; simpl.
  - exists []. rewrite app_nil_r. split; [done|]. split; [apply NoDup_nil_2|]. split; [lia|]. split; [|done].
    intros id Hid. by apply elem_of_nil in Hid.
  - destruct (m !! k) as [v|] eqn:Hk; [|by apply IH].
    destruct (Z.eqb_spec v 0) as [->|Hv]; [|by apply IH].
    destruct (Z.eqb_spec (llen (available ++ [k])%list) num) as [Hfull|Hnot]; simpl.
    + exists [k]. split; [done|]. split; [apply NoDup_singleton|].
      split; [lia|]. split.
      * intros id Hid. apply list_elem_of_singleton in Hid as ->.
        by rewrite lookup_insert_eq.
      * intros id Hid. apply lookup_insert_ne. intros ->. apply Hid, list_elem_of_here.
    + rewrite llen_app_one in Hnot.
      destruct (IH (<[ k := 1 ]> m) (available ++ [k])%list) as (new & He & Hnd & Hlen & Hin & Hout).
      { rewrite llen_app_one. lia. }
      assert (Hknew : k ∉ new).
      { intros Hin'. destruct (Hin k Hin') as [H0 _]. by rewrite lookup_insert_eq in H0. }
      exists (k :: new). rewrite He, <- app_assoc. simpl.
      split; [done|]. split; [by apply NoDup_cons|].
      split; [by rewrite <- app_assoc in Hlen|]. split.
      * intros id Hid. apply elem_of_cons in Hid as [->|Hid].
        -- split; [done|]. rewrite (Hout k Hknew). apply lookup_insert_eq.
        -- destruct (Hin id Hid) as [H0 H1]. split; [|done].
           rewrite lookup_insert_ne in H0; [done|]. by intros ->.
      * intros id Hid. apply not_elem_of_cons in Hid as [Hne Hid].
        rewrite (Hout id Hid). by apply lookup_insert_ne.
Qed.

Global Instance Itoa_inj : Inj (=) (=) Itoa.
Proof. intros i j H. unfold Itoa in H. by apply (inj pretty) in H. Qed.

(** The same for the loop of [cpuScheduler.Apply], whose ids are the
    numerals of the indices it runs over. *)
Lemma cpu_apply_loop_spec (num : Z) (indices : list Z) (m : gmap string Z)
    (applyCpus : list string) :
  StronglySorted Z.lt indices ->
  llen applyCpus < num ->
  exists new,
    (Cpu.apply_loop num indices m applyCpus).2 = (applyCpus ++ (Itoa <$> new))%list
    /\ StronglySorted Z.lt new
    /\ (forall k, k ∈ new -> k ∈ indices)
    /\ llen (applyCpus ++ (Itoa <$> new))%list <= num
    /\ (forall k, k ∈ new ->
          default 0 (m !! Itoa k) = 0
          /\ (Cpu.apply_loop num indices m applyCpus).1 !! Itoa k = Some 1)
    /\ (forall id, id ∉ Itoa <$> new ->
          (Cpu.apply_loop num indices m applyCpus).1 !! id = m !! id).
Proof.
  revert m applyCpus.
  induction indices as [|k rest IH]; intros m applyCpus Hs Hlt; simpl.
  - exists []. simpl. rewrite app_nil_r.
    split; [done|]. split; [constructor|]. split; [done|]. split; [lia|].
    split; [|done]. intros j Hj. by apply elem_of_nil in Hj.
  - apply StronglySorted_inv in Hs as [Hrest Hk].
    destruct (Z.eqb_spec (default 0 (m !! Itoa k)) 0) as [Hfree|Hheld].
    2:{ destruct (IH m applyCpus Hrest Hlt) as (new & He & Hnew & Hsub & Hlen & Hin & Hout).
        exists new. repeat split; try done.
        - intros j Hj. apply list_elem_of_further. by apply Hsub.
        - by apply Hin.
        - by apply Hin. }
    destruct (Z.eqb_spec (llen (applyCpus ++ [Itoa k])%list) num) as [Hfull|Hnot]; simpl.
    + exists [k]. simpl. split; [done|].
      split; [repeat constructor|].
      split; [intros j Hj; apply list_elem_of_singleton in Hj as ->; apply list_elem_of_here|].
      split; [lia|]. split.
      * intros j Hj. apply list_elem_of_singleton in Hj as ->.
        by rewrite lookup_insert_eq.
      * intros id Hid. apply lookup_insert_ne. intros <-. apply Hid, list_elem_of_here.
    + rewrite llen_app_one in Hnot.
      destruct (IH (<[ Itoa k := 1 ]> m) (applyCpus ++ [Itoa k])%list Hrest)
        as (new & He & Hnew & Hsub & Hlen & Hin & Hout).
      { rewrite llen_app_one. lia. }
      assert (Hgt : Forall (Z.lt k) new).
      { apply Forall_forall. intros j Hj. eapply Forall_forall in Hk; [done|]. by apply Hsub. }
      assert (Hknew : Itoa k ∉ Itoa <$> new).
      { intros Hin'. apply list_elem_of_fmap in Hin' as (j & Hj & Hjn).
        apply (inj Itoa) in Hj as <-. eapply Forall_forall in Hgt; [|done]. lia. }
      exists (k :: new). rewrite He, <- app_assoc. simpl.
      split; [done|]. split; [by constructor|].
      split. { intros j Hj. apply elem_of_cons in Hj as [->|Hj];
               [apply list_elem_of_here | apply list_elem_of_further; by apply Hsub]. }
      split; [by rewrite <- app_assoc in Hlen|]. split.
      * intros j Hj. apply elem_of_cons in Hj as [->|Hj].
        -- split; [done|]. rewrite (Hout _ Hknew). apply lookup_insert_eq.
        -- destruct (Hin j Hj) as [H0 H1]. split; [|done].
           rewrite lookup_insert_ne in H0; [done|].
           intros Heq. apply (inj Itoa) in Heq as <-.
           eapply Forall_forall in Hgt; [|done]. lia.
      * intros id Hid. apply not_elem_of_cons in Hid as [Hne Hid].
        rewrite (Hout id Hid). by apply lookup_insert_ne.
Qed.

Lemma range_indices_sorted {A} (l : list A) : StronglySorted Z.lt (Cpu.range_indices l).
Proof.
  unfold Cpu.range_indices. generalize 0%nat as j. generalize (length l) as n.
  induction n as [|n IH]; intros j; simpl; constructor; [apply IH|].
  apply Forall_forall. intros k Hk.
  apply list_elem_of_fmap in Hk as (i & -> & Hi). apply elem_of_seq in Hi. lia.
Qed.

(** ** Restore *)

Lemma gpu_unlock_status (m : gmap string Z) (gs : Gpu.gpuScheduler) :
  Gpu.mu gs = false ->
  Gpu.with_mu false (Gpu.with_status m (Gpu.with_mu true gs)) = Gpu.with_status m gs.
Proof. destruct gs; simpl; intros ->; reflexivity. Qed.

Lemma cpu_unlock_status (m : gmap string Z) (cs : Cpu.cpuScheduler) :
  Cpu.mu cs = false ->
  Cpu.with_mu false (Cpu.with_status m (Cpu.with_mu true cs)) = Cpu.with_status m cs.
Proof. destruct cs; simpl; intros ->; reflexivity. Qed.

Lemma Gpu_Restore_in_range (gpus : list string) (gs : Gpu.gpuScheduler) :
  Gpu.mu gs = false ->
  1 <= llen gpus <= Gpu.AvailableGpuNums gs ->
  Gpu.Restore gpus gs
  = Returns tt (Gpu.with_status (mark_free gpus (Gpu.GpuStatusMap gs)) gs).
Proof.
  intros Hmu [H1 H2]. unfold Gpu.Restore.
  destruct (Z.leb_spec (llen gpus) 0); [lia|].
  destruct (Z.ltb_spec (Gpu.AvailableGpuNums gs) (llen gpus)); [lia|].
  simpl. rewrite Hmu. f_equal. by apply gpu_unlock_status.
Qed.

Lemma Gpu_Restore_out_of_range (gpus : list string) (gs : Gpu.gpuScheduler) :
  ~ (1 <= llen gpus <= Gpu.AvailableGpuNums gs) ->
  Gpu.Restore gpus gs = Returns tt gs.
Proof.
  intros H. unfold Gpu.Restore.
  destruct (Z.leb_spec (llen gpus) 0); [done|].
  destruct (Z.ltb_spec (Gpu.AvailableGpuNums gs) (llen gpus)); [done|]. lia.
Qed.

Lemma Cpu_Restore_returns (cpuSet : list string) (cs : Cpu.cpuScheduler) :
  Cpu.mu cs = false ->
  Cpu.Restore cpuSet cs
  = Returns None (Cpu.with_status (mark_free cpuSet (Cpu.CpuStatusMap cs)) cs).
Proof.
  intros Hmu. unfold Cpu.Restore, Cpu.restore. rewrite Hmu. f_equal.
  by apply cpu_unlock_status.
Qed.

(** A list longer than the cached total makes [gpuScheduler.Restore]
    return at its guard: here three ids on a pool of two, both held, and
    both still held afterwards. *)
Lemma Gpu_Restore_long_list_ignored :
  Gpu.Restore [ "GPU-0"; "GPU-1"; "GPU-0" ] gpus_held = Returns tt gpus_held
  /\ ~ is_free (Gpu.GpuStatusMap gpus_held) "GPU-0"
  /\ ~ is_free (Gpu.GpuStatusMap gpus_held) "GPU-1".
Proof.
  split; [reflexivity|]. unfold is_free. split; vm_compute; discriminate.
Qed.

(** C9, amended. On a scheduler whose lock is free, [Restore] returns
    without an error and is idempotent. The CPU scheduler marks every
    passed id free, for every list; the GPU scheduler does so when the list
    has between one and [AvailableGpuNums] ids, and leaves the pool as it
    is when the list is empty or longer than that. Ids that are not
    passed keep their flag. *)
Theorem Restore_marks_free_idempotent (gs : Gpu.gpuScheduler)
    (cs : Cpu.cpuScheduler) (ids : list string) :
  Gpu.mu gs = false ->
  Cpu.mu cs = false ->
  (exists gs',
      Gpu.Restore ids gs = Returns tt gs'
      /\ Gpu.Restore ids gs' = Returns tt gs'
      /\ (1 <= llen ids <= Gpu.AvailableGpuNums gs ->
          forall id, id ∈ ids -> is_free (Gpu.GpuStatusMap gs') id)
      /\ (~ (1 <= llen ids <= Gpu.AvailableGpuNums gs) -> gs' = gs)
      /\ (forall id, id ∉ ids ->
          Gpu.GpuStatusMap gs' !! id = Gpu.GpuStatusMap gs !! id))
  /\ (exists cs',
      Cpu.Restore ids cs = Returns None cs'
      /\ Cpu.Restore ids cs' = Returns None cs'
      /\ (forall id, id ∈ ids -> is_free (Cpu.CpuStatusMap cs') id)
      /\ (forall id, id ∉ ids ->
          Cpu.CpuStatusMap cs' !! id = Cpu.CpuStatusMap cs !! id)).
Proof.
  intros Hg Hc. split.
  - destruct (decide (1 <= llen ids <= Gpu.AvailableGpuNums gs)) as [Hin|Hout].
    + exists (Gpu.with_status (mark_free ids (Gpu.GpuStatusMap gs)) gs).
      split; [by apply Gpu_Restore_in_range|].
      split.
      { rewrite Gpu_Restore_in_range by (destruct gs; done).
        f_equal. destruct gs; unfold Gpu.with_status; simpl.
        by rewrite mark_free_idempotent. }
      split.
      { intros _ id Hid. unfold is_free. destruct gs; simpl.
        rewrite mark_free_lookup. by destruct (decide (id ∈ ids)). }
      split; [done|].
      intros id Hid. destruct gs; simpl.
      rewrite mark_free_lookup. by destruct (decide (id ∈ ids)).
    + exists gs. rewrite Gpu_Restore_out_of_range by done. done.
  - exists (Cpu.with_status (mark_free ids (Cpu.CpuStatusMap cs)) cs).
    split; [by apply Cpu_Restore_returns|].
    split.
    { rewrite Cpu_Restore_returns by (destruct cs; done).
      f_equal. destruct cs; unfold Cpu.with_status; simpl.
      by rewrite mark_free_idempotent. }
    split.
    + intros id Hid. unfold is_free. destruct cs; simpl.
      rewrite mark_free_lookup. by destruct (decide (id ∈ ids)).
    + intros id Hid. destruct cs; simpl.
      rewrite mark_free_lookup. by destruct (decide (id ∈ ids)).
Qed.

Lemma Restore_marks_free_idempotent_witness :
  is_free (Gpu.GpuStatusMap (state_of (Gpu.Restore [ "GPU-1" ] gpus_held))) "GPU-1"
  /\ is_free (Cpu.CpuStatusMap (state_of (Cpu.Restore [ "GPU-1" ] (Cpu.InitCpuScheduler 2)))) "GPU-1".
Proof.
  destruct (Restore_marks_free_idempotent gpus_held (Cpu.InitCpuScheduler 2) [ "GPU-1" ])
    as [(gs' & Hg & _ & Hfree & _) (cs' & Hc & _ & Hcfree & _)];
    [reflexivity | reflexivity |].
  rewrite Hg, Hc. simpl. split.
  - apply Hfree; [vm_compute; split; discriminate | apply list_elem_of_here].
  - apply Hcfree. apply list_elem_of_here.
Defined.

(** ** Membership and the count of free and in-use ids *)

Lemma Gpu_Restore_preserves (D : gset string) (T : Z) (gpus : list string)
    (gs : Gpu.gpuScheduler) :
  dom (Gpu.GpuStatusMap gs) = D -> Gpu.AvailableGpuNums gs = T ->
  Forall (fun id => id ∈ D) gpus ->
  dom (Gpu.GpuStatusMap (state_of (Gpu.Restore gpus gs))) = D
  /\ Gpu.AvailableGpuNums (state_of (Gpu.Restore gpus gs)) = T.
Proof.
  intros HD HT Hin. unfold Gpu.Restore.
  destruct ((llen gpus <=? 0) || (Gpu.AvailableGpuNums gs <? llen gpus)); [done|].
  destruct (Gpu.mu gs); [done|]. simpl. split; [|done].
  rewrite mark_free_dom_within; [done | by rewrite HD].
Qed.

Lemma Gpu_Apply_preserves (D : gset string) (T : Z) (order : list string) (num : Z)
    (gs : Gpu.gpuScheduler) :
  dom (Gpu.GpuStatusMap gs) = D -> Gpu.AvailableGpuNums gs = T ->
  dom (Gpu.GpuStatusMap (state_of (Gpu.Apply order num gs))) = D
  /\ Gpu.AvailableGpuNums (state_of (Gpu.Apply order num gs)) = T.
Proof.
  intros HD HT. unfold Gpu.Apply.
  destruct ((num <=? 0) || (Gpu.AvailableGpuNums gs <? num)); [done|].
  destruct (Gpu.mu gs); [done|].
  pose proof (apply_loop_dom num order (Gpu.GpuStatusMap (Gpu.with_mu true gs)) []) as Hl.
  destruct (apply_loop num order (Gpu.GpuStatusMap (Gpu.with_mu true gs)) [])
    as [m availableGpus].
  simpl in Hl.
  destruct (llen availableGpus <? num); [|simpl; by rewrite Hl].
  unfold Gpu.Restore; simpl.
  destruct ((llen availableGpus <=? 0) || (Gpu.AvailableGpuNums gs <? llen availableGpus));
    simpl; by rewrite Hl.
Qed.

Lemma gpu_run_preserves (D : gset string) (T : Z) (calls : list gpu_call)
    (gs : Gpu.gpuScheduler) :
  dom (Gpu.GpuStatusMap gs) = D -> Gpu.AvailableGpuNums gs = T ->
  Forall (gpu_restores_within D) calls ->
  dom (Gpu.GpuStatusMap (state_of (gpu_run calls gs))) = D
  /\ Gpu.AvailableGpuNums (state_of (gpu_run calls gs)) = T.
Proof.
  revert gs. induction calls as [|c rest IH]; intros gs HD HT Hin; [done|].
  apply Forall_cons in Hin as [Hc Hrest]. simpl.
  assert (Hstep : dom (Gpu.GpuStatusMap (state_of (gpu_step c gs))) = D
                  /\ Gpu.AvailableGpuNums (state_of (gpu_step c gs)) = T).
  { destruct c as [order num|gpus]; simpl.
    - pose proof (Gpu_Apply_preserves D T order num gs HD HT) as H.
      by destruct (Gpu.Apply order num gs).
    - by apply Gpu_Restore_preserves. }
  destruct (gpu_step c gs) as [[] s|s]; simpl in *; [|done].
  destruct Hstep. by apply IH.
Qed.

Lemma Cpu_Restore_preserves (D : gset string) (T : Z) (cpuSet : list string)
    (cs : Cpu.cpuScheduler) :
  dom (Cpu.CpuStatusMap cs) = D -> Cpu.AvailableCpuNums cs = T ->
  Forall (fun id => id ∈ D) cpuSet ->
  dom (Cpu.CpuStatusMap (state_of (Cpu.Restore cpuSet cs))) = D
  /\ Cpu.AvailableCpuNums (state_of (Cpu.Restore cpuSet cs)) = T.
Proof.
  intros HD HT Hin. unfold Cpu.Restore.
  destruct (Cpu.mu cs); [done|]. simpl. split; [|done].
  rewrite mark_free_dom_within; [done | by rewrite HD].
Qed.

Lemma Cpu_Apply_ids_preserves (T : Z) (num : Z) (cs : Cpu.cpuScheduler) :
  dom (Cpu.CpuStatusMap cs) = list_to_set (Cpu.getAllCpuProcessors T) ->
  Cpu.AvailableCpuNums cs = T ->
  dom (Cpu.CpuStatusMap (state_of (Cpu.Apply_ids num cs)))
  = list_to_set (Cpu.getAllCpuProcessors T)
  /\ Cpu.AvailableCpuNums (state_of (Cpu.Apply_ids num cs)) = T.
Proof.
  intros HD HT. unfold Cpu.Apply_ids.
  destruct ((num <=? 0) || (Cpu.AvailableCpuNums cs <? num)); [done|].
  destruct (Cpu.mu cs); [done|].
  destruct (cpu_apply_loop_dom num
              (Cpu.range_indices (Cpu.sorted_keys (Cpu.CpuStatusMap (Cpu.with_mu true cs))))
              (Cpu.CpuStatusMap (Cpu.with_mu true cs)) []) as [Hl Hids].
  { by apply (range_indices_members T). }
  { constructor. }
  destruct (Cpu.apply_loop num
              (Cpu.range_indices (Cpu.sorted_keys (Cpu.CpuStatusMap (Cpu.with_mu true cs))))
              (Cpu.CpuStatusMap (Cpu.with_mu true cs)) []) as [m applyCpus].
  simpl in Hl, Hids.
  destruct (llen applyCpus <? num); simpl; [|by rewrite Hl].
  split; [|done]. rewrite mark_free_dom_within; [by rewrite Hl | by rewrite Hl].
Qed.

Lemma cpu_run_preserves (T : Z) (calls : list cpu_call) (cs : Cpu.cpuScheduler) :
  dom (Cpu.CpuStatusMap cs) = list_to_set (Cpu.getAllCpuProcessors T) ->
  Cpu.AvailableCpuNums cs = T ->
  Forall (cpu_restores_within (list_to_set (Cpu.getAllCpuProcessors T))) calls ->
  dom (Cpu.CpuStatusMap (state_of (cpu_run calls cs)))
  = list_to_set (Cpu.getAllCpuProcessors T)
  /\ Cpu.AvailableCpuNums (state_of (cpu_run calls cs)) = T.
Proof.
  revert cs. induction calls as [|c rest IH]; intros cs HD HT Hin; [done|].
  apply Forall_cons in Hin as [Hc Hrest]. simpl.
  assert (Hstep : dom (Cpu.CpuStatusMap (state_of (cpu_step c cs)))
                  = list_to_set (Cpu.getAllCpuProcessors T)
                  /\ Cpu.AvailableCpuNums (state_of (cpu_step c cs)) = T).
  { destruct c as [num|cpuSet]; simpl.
    - pose proof (Cpu_Apply_ids_preserves T num cs HD HT) as H.
      unfold Cpu.Apply. by destruct (Cpu.Apply_ids num cs) as [[[? ?] ?] ?|].
    - pose proof (Cpu_Restore_preserves _ T cpuSet cs HD HT Hc) as H.
      by destruct (Cpu.Restore cpuSet cs). }
  destruct (cpu_step c cs) as [[] s|s]; simpl in *; [|done].
  destruct Hstep. by apply IH.
Qed.

(** Restoring an id that the pool does not have adds it to the pool: the
    pool of two GPUs has three ids afterwards, and free and in-use ids no
    longer add up to the cached total. In the same way [Apply] on a CPU
    pool whose two ids are "5" and "7" reads the ids "0" and "1", which
    the pool does not have, and adds them. *)
Lemma Restore_unknown_id_grows_pool :
  (Z.of_nat (size (Gpu.GpuStatusMap gpus_one_free)) = Gpu.AvailableGpuNums gpus_one_free
   /\ ("GPU-9" ∉ dom (Gpu.GpuStatusMap gpus_one_free))
   /\ exists gs',
       gpu_run [ CallGpuRestore [ "GPU-9" ] ] gpus_one_free = Returns tt gs'
       /\ "GPU-9" ∈ dom (Gpu.GpuStatusMap gs')
       /\ count_free (Gpu.GpuStatusMap gs') + count_in_use (Gpu.GpuStatusMap gs') = 3
       /\ Gpu.AvailableGpuNums gs' = 2)
  /\ (Z.of_nat (size (Cpu.CpuStatusMap cpus_5_7)) = Cpu.AvailableCpuNums cpus_5_7
      /\ exists cs',
          cpu_run [ CallCpuApply 2 ] cpus_5_7 = Returns tt cs'
          /\ dom (Cpu.CpuStatusMap cs') = {[ "0"; "1"; "5"; "7" ]}
          /\ count_free (Cpu.CpuStatusMap cs') + count_in_use (Cpu.CpuStatusMap cs') = 4
          /\ Cpu.AvailableCpuNums cs' = 2).
Proof.
  split.
  - split; [reflexivity|].
    split; [apply not_elem_of_dom; reflexivity|].
    eexists. split; [reflexivity|].
    split; [apply elem_of_dom; eexists; reflexivity|].
    split; reflexivity.
  - split; [reflexivity|].
    eexists. split; [vm_compute; reflexivity|].
    split; [vm_compute; reflexivity|].
    split; reflexivity.
Qed.

(** C2, amended. Take a GPU pool whose cached total is the number of its
    ids, and a CPU pool whose ids are the numerals 0 .. total-1, as
    discovery builds them. After every finite sequence of [Apply] and
    [Restore] calls in which every restored id is an id of the pool, the
    pool has the same ids and the same cached total, and the free and the
    in-use ids add up to that total; this holds for the state any call
    leaves, also one that does not return. *)
Theorem pool_invariant_member_restores (gs : Gpu.gpuScheduler)
    (gcalls : list gpu_call) (cs : Cpu.cpuScheduler) (ccalls : list cpu_call) :
  Z.of_nat (size (Gpu.GpuStatusMap gs)) = Gpu.AvailableGpuNums gs ->
  Forall (gpu_restores_within (dom (Gpu.GpuStatusMap gs))) gcalls ->
  0 <= Cpu.AvailableCpuNums cs ->
  dom (Cpu.CpuStatusMap cs)
    = list_to_set (Cpu.getAllCpuProcessors (Cpu.AvailableCpuNums cs)) ->
  Forall (cpu_restores_within (dom (Cpu.CpuStatusMap cs))) ccalls ->
  let gs' := state_of (gpu_run gcalls gs) in
  let cs' := state_of (cpu_run ccalls cs) in
  (dom (Gpu.GpuStatusMap gs') = dom (Gpu.GpuStatusMap gs)
   /\ Gpu.AvailableGpuNums gs' = Gpu.AvailableGpuNums gs
   /\ count_free (Gpu.GpuStatusMap gs') + count_in_use (Gpu.GpuStatusMap gs')
      = Gpu.AvailableGpuNums gs')
  /\ (dom (Cpu.CpuStatusMap cs') = dom (Cpu.CpuStatusMap cs)
      /\ Cpu.AvailableCpuNums cs' = Cpu.AvailableCpuNums cs
      /\ count_free (Cpu.CpuStatusMap cs') + count_in_use (Cpu.CpuStatusMap cs')
         = Cpu.AvailableCpuNums cs').
Proof.
  intros Hgt Hgin Hc0 Hcd Hcin gs' cs'. split.
  - destruct (gpu_run_preserves _ _ gcalls gs eq_refl eq_refl Hgin) as [HD HT].
    fold gs' in HD, HT. split; [done|]. split; [done|].
    by rewrite count_free_in_use, <- size_dom, HD, size_dom, HT.
  - rewrite Hcd in Hcin.
    destruct (cpu_run_preserves _ ccalls cs Hcd eq_refl Hcin) as [HD HT].
    fold cs' in HD, HT. split; [by rewrite HD, Hcd|]. split; [done|].
    rewrite count_free_in_use, <- size_dom, HD, HT.
    rewrite size_list_to_set by apply getAllCpuProcessors_NoDup.
    rewrite getAllCpuProcessors_length. lia.
Qed.

(** Closes [Forall (gpu_restores_within D) calls] for given calls. *)
Ltac restores_within :=
  repeat first
    [ apply Forall_nil_2
    | apply Forall_cons_2
    | exact I
    | apply elem_of_dom; eexists; reflexivity
    | progress simpl ].

Lemma pool_invariant_member_restores_witness :
  let gs' := state_of (gpu_run gpu_calls_ok gpus_one_free) in
  let cs' := state_of (cpu_run cpu_calls_ok (Cpu.InitCpuScheduler 2)) in
  count_free (Gpu.GpuStatusMap gs') + count_in_use (Gpu.GpuStatusMap gs') = 2
  /\ count_free (Cpu.CpuStatusMap cs') + count_in_use (Cpu.CpuStatusMap cs') = 2.
Proof.
  intros gs' cs'.
  destruct (pool_invariant_member_restores gpus_one_free gpu_calls_ok
              (Cpu.InitCpuScheduler 2) cpu_calls_ok)
    as [(_ & HgT & Hg) (_ & HcT & Hc)].
  - reflexivity.
  - unfold gpu_calls_ok. restores_within.
  - vm_compute. discriminate.
  - vm_compute. reflexivity.
  - unfold cpu_calls_ok. restores_within.
  - fold gs' in HgT, Hg. fold cs' in HcT, Hc.
    rewrite Hg, HgT, Hc, HcT. split; reflexivity.
Defined.

(** ** Apply *)

(** X3. [gpuScheduler.Apply] that returns without an error returns [num]
    distinct ids, each free before the call and in use after it, and
    leaves the other ids alone. *)
Lemma Gpu_Apply_success (order : list string) (num : Z) (gs gs' : Gpu.gpuScheduler)
    (ids : list string) :
  Gpu.Apply order num gs = Returns (ids, None) gs' ->
  llen ids = num
  /\ NoDup ids
  /\ (forall id, id ∈ ids ->
        is_free (Gpu.GpuStatusMap gs) id /\ Gpu.GpuStatusMap gs' !! id = Some 1)
  /\ (forall id, id ∉ ids -> Gpu.GpuStatusMap gs' !! id = Gpu.GpuStatusMap gs !! id).
Proof.
  unfold Gpu.Apply.
  destruct (Z.leb_spec num 0) as [|Hpos]; [discriminate|].
  destruct (Z.ltb_spec (Gpu.AvailableGpuNums gs) num); [discriminate|]. simpl.
  destruct (Gpu.mu gs); [discriminate|].
  destruct (apply_loop_spec num order (Gpu.GpuStatusMap gs) [])
    as (new & He & Hnd & Hlen & Hin & Hout); [unfold llen; simpl; lia|].
  destruct (apply_loop num order (Gpu.GpuStatusMap gs) [])
    as [m availableGpus]. simpl in *. subst availableGpus.
  destruct (Z.ltb_spec (llen new) num) as [Hshort|Hfull].
  - match goal with |- context [Gpu.Restore ?a ?b] => destruct (Gpu.Restore a b) end;
      discriminate.
  - intros [= <- <-]. simpl. split; [lia|]. done.
Qed.

(** X4. [gpuScheduler.Apply] that returns an error leaves the pool as it
    was. *)
Lemma Gpu_Apply_error_unchanged (order : list string) (num : Z)
    (gs gs' : Gpu.gpuScheduler) (ids : list string) (e : error) :
  Gpu.Apply order num gs = Returns (ids, Some e) gs' ->
  Gpu.GpuStatusMap gs' = Gpu.GpuStatusMap gs.
Proof.
  unfold Gpu.Apply.
  destruct (Z.leb_spec num 0) as [|Hpos]; [by intros [= <- <- <-]|].
  destruct (Z.ltb_spec (Gpu.AvailableGpuNums gs) num); [by intros [= <- <- <-]|]. simpl.
  destruct (Gpu.mu gs); [discriminate|].
  destruct (apply_loop_spec num order (Gpu.GpuStatusMap gs) [])
    as (new & He & Hnd & Hlen & Hin & Hout); [unfold llen; simpl; lia|].
  destruct (apply_loop num order (Gpu.GpuStatusMap gs) [])
    as [m availableGpus]. simpl in *. subst availableGpus.
  destruct (Z.ltb_spec (llen new) num) as [Hshort|Hfull]; [|discriminate].
  unfold Gpu.Restore. simpl.
  destruct (Z.leb_spec (llen new) 0) as [Hempty|Hsome]; simpl.
  - intros [= <- <- <-]. simpl. destruct new; [|unfold llen in Hempty; simpl in Hempty; lia].
    apply map_eq. intros id. apply Hout. apply not_elem_of_nil.
  - destruct (Z.ltb_spec (Gpu.AvailableGpuNums gs) (llen new)); [lia|discriminate].
Qed.

(** A batch that stays short of [num] and is not empty sends
    [gpuScheduler.Apply] into [Restore] while it holds the lock, and
    [Restore] waits for that lock: the call does not return, and the ids
    of the batch stay marked in use. *)
Lemma Gpu_Apply_partial_batch_blocks (order : list string) (num : Z)
    (gs : Gpu.gpuScheduler) (m : gmap string Z) (availableGpus : list string) :
  Gpu.mu gs = false ->
  0 < num <= Gpu.AvailableGpuNums gs ->
  apply_loop num order (Gpu.GpuStatusMap gs) [] = (m, availableGpus) ->
  0 < llen availableGpus < num ->
  Gpu.Apply order num gs = Blocks (Gpu.with_status m (Gpu.with_mu true gs)).
Proof.
  intros Hmu [Hn1 Hn2] Hloop [Ha1 Ha2]. unfold Gpu.Apply.
  destruct (Z.leb_spec num 0); [lia|].
  destruct (Z.ltb_spec (Gpu.AvailableGpuNums gs) num); [lia|].
  simpl. rewrite Hmu. simpl. rewrite Hloop.
  destruct (Z.ltb_spec (llen availableGpus) num); [|lia].
  unfold Gpu.Restore. simpl.
  destruct (Z.leb_spec (llen availableGpus) 0); [lia|].
  destruct (Z.ltb_spec (Gpu.AvailableGpuNums gs) (llen availableGpus)); [lia|].
  reflexivity.
Qed.

(** C3. Two GPUs, one free, and [Apply(2)]: whichever way the map is
    read, the call reserves the free GPU, finds the batch short, and then
    blocks in [Restore] on the lock it holds itself. It does not return
    the GpuNotEnough error, and the GPU it reserved stays in use. *)
Theorem Gpu_Apply_short_pool_blocks :
  is_free (Gpu.GpuStatusMap gpus_one_free) "GPU-0"
  /\ Forall
       (fun order =>
          exists gs',
            Gpu.Apply order 2 gpus_one_free = Blocks gs'
            /\ Gpu.mu gs' = true
            /\ in_use (Gpu.GpuStatusMap gs') "GPU-0"
            /\ Gpu.GpuStatusMap gs' <> Gpu.GpuStatusMap gpus_one_free)
       [ [ "GPU-0"; "GPU-1" ]; [ "GPU-1"; "GPU-0" ] ].
Proof.
  split; [reflexivity|].
  repeat apply Forall_cons_2; [| |apply Forall_nil_2];
    eexists; (split; [reflexivity|]); (split; [reflexivity|]).
  - split; [exists 1; split; [reflexivity | discriminate]|].
    intros H. apply (f_equal (fun m => m !! "GPU-0")) in H. discriminate.
  - split; [exists 1; split; [reflexivity | discriminate]|].
    intros H. apply (f_equal (fun m => m !! "GPU-0")) in H. discriminate.
Qed.

(** On a pool whose ids are the numerals 0 .. T-1, [Apply] that succeeds
    returns [num] ids in ascending order, each a free id of the pool before
    the call and in use after it; [Apply] that returns an error leaves the
    pool as it was. *)
Lemma Cpu_Apply_numeral_pool (T num : Z) (cs cs' : Cpu.cpuScheduler)
    (ids : list string) (cpuSet : string) (err : option error) :
  dom (Cpu.CpuStatusMap cs) = list_to_set (Cpu.getAllCpuProcessors T) ->
  Cpu.Apply_ids num cs = Returns (ids, cpuSet, err) cs' ->
  match err with
  | None =>
      llen ids = num
      /\ cpuSet = Trim (Join ids ",") ","%char
      /\ (exists ks, ids = Itoa <$> ks /\ StronglySorted Z.lt ks)
      /\ (forall id, id ∈ ids ->
            is_free (Cpu.CpuStatusMap cs) id /\ Cpu.CpuStatusMap cs' !! id = Some 1)
      /\ (forall id, id ∉ ids -> Cpu.CpuStatusMap cs' !! id = Cpu.CpuStatusMap cs !! id)
  | Some _ => Cpu.CpuStatusMap cs' = Cpu.CpuStatusMap cs
  end.
Proof.
  intros Hdom. unfold Cpu.Apply_ids.
  destruct (Z.leb_spec num 0) as [|Hpos]; [by intros [= <- <- <- <-]|].
  destruct (Z.ltb_spec (Cpu.AvailableCpuNums cs) num); [by intros [= <- <- <- <-]|]. simpl.
  destruct (Cpu.mu cs); [discriminate|].
  pose proof (range_indices_members T _ Hdom) as Hmem.
  destruct (cpu_apply_loop_spec num (Cpu.range_indices (Cpu.sorted_keys (Cpu.CpuStatusMap cs)))
              (Cpu.CpuStatusMap cs) [])
    as (new & He & Hnew & Hsub & Hlen & Hin & Hout);
    [apply range_indices_sorted | unfold llen; simpl; lia |].
  destruct (Cpu.apply_loop num (Cpu.range_indices (Cpu.sorted_keys (Cpu.CpuStatusMap cs)))
              (Cpu.CpuStatusMap cs) []) as [m applyCpus].
  simpl in *. subst applyCpus.
  assert (Hwas : forall k, k ∈ new -> Cpu.CpuStatusMap cs !! Itoa k = Some 0).
  { intros k Hk. destruct (Hin k Hk) as [H0 _].
    assert (Hd : Itoa k ∈ dom (Cpu.CpuStatusMap cs)).
    { eapply Forall_forall in Hmem; [done|]. by apply Hsub. }
    apply elem_of_dom in Hd as [v Hv]. rewrite Hv in H0 |- *. simpl in H0. by subst. }
  destruct (Z.ltb_spec (llen (Itoa <$> new)) num) as [Hshort|Hfull].
  - intros [= <- <- <- <-]. simpl.
    apply map_eq. intros id. rewrite mark_free_lookup.
    destruct (decide (id ∈ Itoa <$> new)) as [Hid|Hid].
    + apply list_elem_of_fmap in Hid as (k & -> & Hk). by rewrite Hwas.
    + by apply Hout.
  - intros [= <- <- <- <-]. simpl.
    split; [lia|]. split; [done|]. split; [by exists new|]. split; [|done].
    intros id Hid. apply list_elem_of_fmap in Hid as (k & -> & Hk).
    split; [by apply Hwas | by apply Hin].
Qed.

(** C6. A host with two processors: one CPU is taken, then the empty id
    is restored (which is what the controller passes for a container
    without a cpu set). The pool then has the three ids "", "0", "1", so
    the loop of [Apply] runs over the indices 0, 1, 2, and [Apply(2)]
    returns "1,2": ascending, but the id "2" was not an id of the pool
    before the call. *)
Theorem Cpu_Apply_returns_unknown_id :
  cpu_reachable 2 cpus_after_empty_restore
  /\ dom (Cpu.CpuStatusMap cpus_after_empty_restore) = {[ ""; "0"; "1" ]}
  /\ exists cs',
       Cpu.Apply 2 cpus_after_empty_restore = Returns ("1,2", None) cs'
       /\ ids_of "1,2" = [ "1"; "2" ]
       /\ ascending (ids_of "1,2")
       /\ ("2" ∉ dom (Cpu.CpuStatusMap cpus_after_empty_restore))
       /\ ~ is_free (Cpu.CpuStatusMap cpus_after_empty_restore) "2"
       /\ in_use (Cpu.CpuStatusMap cs') "2".
Proof.
  split.
  { apply (reach_step 2 (CallCpuRestore [ "" ])
             (state_of (cpu_run [ CallCpuApply 1 ] (Cpu.InitCpuScheduler 2))) tt).
    - apply (reach_step 2 (CallCpuApply 1) (Cpu.InitCpuScheduler 2) tt).
      + apply reach_init.
      + vm_compute. reflexivity.
    - vm_compute. reflexivity. }
  split; [vm_compute; reflexivity|].
  eexists. split; [vm_compute; reflexivity|].
  split; [reflexivity|].
  split.
  { unfold ascending. vm_compute. repeat constructor. }
  split; [apply not_elem_of_dom; reflexivity|].
  split; [unfold is_free; vm_compute; discriminate|].
  exists 1. split; [reflexivity | discriminate].
Qed.

(** ** The replica-set controller *)

(** C1. A run that asks for one GPU, one CPU and one published port on a
    fresh host, with a runtime that refuses to create the container:
    [RunGpuContainer] returns the failure with the GPU and the CPU pool
    as they were before the call, but the host port it acquired is still
    marked in use; nothing on the failure path restores it. *)
Theorem RunGpuContainer_failure_keeps_port :
  exists err w',
    RunGpuContainer refusing (job 1 1 [ "22" ]) fresh = Returns ("", "", Some err) w'
    /\ Gpu.GpuStatusMap (GpuScheduler w') = Gpu.GpuStatusMap (GpuScheduler fresh)
    /\ Cpu.CpuStatusMap (CpuScheduler w') = Cpu.CpuStatusMap (CpuScheduler fresh)
    /\ is_free (Port.PortStatusMap (PortScheduler fresh)) "40000"
    /\ Port.PortStatusMap (PortScheduler w') !! "40000" = Some 1
    /\ Port.PortStatusMap (PortScheduler w') <> Port.PortStatusMap (PortScheduler fresh).
Proof.
  eexists. eexists. split; [vm_compute; reflexivity|].
  split; [vm_compute; reflexivity|].
  split; [vm_compute; reflexivity|].
  split; [reflexivity|].
  split; [reflexivity|].
  intros H. apply (f_equal (fun m => m !! "40000")) in H. vm_compute in H. discriminate.
Qed.

(** The same failure for a run that asks for no CPU: the failure path
    restores the ids of the empty cpu-set string, that is the one id "",
    and the CPU pool has that id afterwards. *)
Lemma RunGpuContainer_failure_adds_empty_cpu_id :
  exists err w',
    RunGpuContainer refusing (job 1 0 []) fresh = Returns ("", "", Some err) w'
    /\ Cpu.CpuStatusMap (CpuScheduler fresh) !! "" = None
    /\ Cpu.CpuStatusMap (CpuScheduler w') !! "" = Some 0.
Proof.
  eexists. eexists. split; [vm_compute; reflexivity|]. split; reflexivity.
Qed.

(** When the memory string does not parse, the GPUs and CPUs acquired
    before are restored and all three pools are as before the call. *)
Lemma RunGpuContainer_memory_failure_restores :
  let bad_memory :=
    {| ContainerList := ContainerList obliging;
       ContainerCreate := ContainerCreate obliging;
       ContainerStart := ContainerStart obliging;
       ContainerRemove := ContainerRemove obliging;
       ContainerInspect := ContainerInspect obliging;
       RemoveAll := RemoveAll obliging; Now := Now obliging;
       ToBytes := fun _ => (0, Some (New "invalid syntax"));
       gpu_order := gpu_order obliging; port_order := port_order obliging |} in
  exists err w',
    RunGpuContainer bad_memory (job 1 1 [ "22" ]) fresh = Returns ("", "", Some err) w'
    /\ Gpu.GpuStatusMap (GpuScheduler w') = Gpu.GpuStatusMap (GpuScheduler fresh)
    /\ Cpu.CpuStatusMap (CpuScheduler w') = Cpu.CpuStatusMap (CpuScheduler fresh)
    /\ Port.PortStatusMap (PortScheduler w') = Port.PortStatusMap (PortScheduler fresh).
Proof.
  intros bad_memory. eexists. eexists. split; [vm_compute; reflexivity|].
  repeat split; vm_compute; reflexivity.
Qed.

(** X14. A failed port acquisition, in general: [runContainer] returns
    the failure and the registry holds the incremented version. *)
Lemma runContainer_port_failure_general (o : Outside) (name : string)
    (info : EtcdContainerInfo) (onlyCreate : bool) (w : world)
    (ports : list string) (e : error) (p' : Port.portScheduler) :
  let pb := container.PortBindings (HostConfig info) in
  0 < Z.of_nat (size pb) ->
  Port.Apply (port_order o) (Z.of_nat (size pb)) (PortScheduler w) = ((ports, Some e), p') ->
  exists info' w',
    runContainer o name info onlyCreate w
    = Returns ("", "", None, Some (Wrap e "Portscheduler.Apply failed"), info') w'
    /\ ContainerVersionMap w'
       = <[ name := (vmap.Get name (ContainerVersionMap w)).1 + 1 ]> (ContainerVersionMap w).
Proof.
  intros pb Hpb Happly.
  unfold runContainer, bind, versionGet, versionSet, PortApply. simpl.
  destruct (vmap.Get name (ContainerVersionMap w)) as [version0 ok] eqn:Hget. simpl.
  fold pb. destruct (Z.ltb_spec 0 (Z.of_nat (size pb))); [|lia].
  simpl. rewrite Happly. simpl. eexists. eexists. split; reflexivity.
Qed.

(** A refused creation, in general: the version is rolled back, and the
    port scheduler stays as the acquisition left it. *)
Lemma runContainer_create_failure_general (o : Outside) (name : string)
    (info : EtcdContainerInfo) (onlyCreate : bool) (w : world)
    (ports : list string) (id : string) (e : error) (p' : Port.portScheduler) :
  let pb := container.PortBindings (HostConfig info) in
  let version := (vmap.Get name (ContainerVersionMap w)).1 + 1 in
  0 < Z.of_nat (size pb) ->
  Port.Apply (port_order o) (Z.of_nat (size pb)) (PortScheduler w) = ((ports, None), p') ->
  ContainerCreate o (versionName name version) = (id, Some e) ->
  exists r w',
    runContainer o name info onlyCreate w = Returns r w'
    /\ r.1.2 = Some (Wrap e ("docker.ContainerCreate failed, name: " +:+ versionName name version))
    /\ PortScheduler w' = p'
    /\ ContainerVersionMap w'
       = if version =? 1 then delete name (ContainerVersionMap w)
         else <[ name := version - 1 ]> (ContainerVersionMap w).
Proof.
  intros pb version Hpb Happly Hcreate.
  unfold runContainer, bind, versionGet, versionSet, PortApply. simpl.
  subst version.
  destruct (vmap.Get name (ContainerVersionMap w)) as [version0 ok] eqn:Hget. simpl in *.
  fold pb. destruct (Z.ltb_spec 0 (Z.of_nat (size pb))); [|lia].
  simpl. rewrite Happly. simpl. rewrite Hcreate. 
  unfold rollbackVersion, versionRemove, versionSet, vmap.Remove, vmap.Set_.
  destruct (version0 + 1 =? 1) eqn:Hv; simpl.
  - eexists. eexists. split; [reflexivity|]. split; [reflexivity|]. split; [reflexivity|].
    apply delete_insert_eq.
  - eexists. eexists. split; [reflexivity|]. split; [reflexivity|]. split; [reflexivity|].
    apply insert_insert_eq.
Qed.

(** C4. [runContainer] for the new replica set "job" with one published
    port, on a host without a free port: the port acquisition fails, the
    call returns the PortNotEnough failure without having created a
    container, and the registry keeps version 1 for "job". The next run
    of "job" that succeeds creates its first container as "job-2". A
    refused creation, in contrast, takes the entry out again. *)
Theorem runContainer_port_failure_keeps_version :
  ContainerVersionMap no_port_left !! "job" = None
  /\ (exists err info' w',
        runContainer obliging "job" info_one_port false no_port_left
        = Returns ("", "", None, Some err, info') w'
        /\ xerrors.IsPortNotEnoughError (Some err) = true
        /\ ContainerVersionMap w' !! "job" = Some 1
        /\ exists w'',
            RunGpuContainer obliging (job 0 0 []) w'
            = Returns ("id-job-2", "job-2", None) w'')
  /\ (exists err info' w',
        runContainer refusing "job" info_one_port false fresh
        = Returns ("", "", None, Some err, info') w'
        /\ ContainerVersionMap w' !! "job" = None).
Proof.
  split; [reflexivity|]. split.
  - eexists. eexists. eexists. split; [vm_compute; reflexivity|].
    split; [vm_compute; reflexivity|].
    split; [vm_compute; reflexivity|].
    eexists. vm_compute. reflexivity.
  - eexists. eexists. eexists. split; [vm_compute; reflexivity|].
    vm_compute. reflexivity.
Qed.

Lemma split_acc_no_sep (sep : ascii) (cur s : string) :
  has_byte sep s = false -> split_acc sep cur s = [ String.rev_app cur s ].
Proof.
  revert cur. induction s as [|c s IH]; intros cur H; simpl in *; [done|].
  apply orb_false_iff in H as [Hc Hs]. by rewrite Hc, (IH _ Hs).
Qed.



(** C5. Deleting the replica set "a-b" next to a replica set "a": the
    call succeeds, the delete of containers/a-b is enqueued and the merges
    directory that holds the overlays of "a-b" is removed, but the
    registry entry that is removed is the one of "a"; "a-b" keeps its
    version 1. *)
Theorem DeleteContainer_dashed_name_keeps_version :
  exists w',
    DeleteContainer obliging "a-b" two_sets = Returns None w'
    /\ Queue w' = [ workQueue.DelKey etcd.Containers "a-b" ]
    /\ merges w' = ∅
    /\ ContainerVersionMap two_sets !! "a-b" = Some 1
    /\ ContainerVersionMap w' !! "a-b" = Some 1
    /\ ContainerVersionMap two_sets !! "a" = Some 3
    /\ ContainerVersionMap w' !! "a" = None.
Proof.
  eexists. split; [vm_compute; reflexivity|].
  repeat split; vm_compute; reflexivity.
Qed.

(** * Further properties of the schedulers *)

Lemma free_ids_insert_other (rest : list string) (m : gmap string Z) (k : string) (v : Z) :
  k ∉ rest -> free_ids rest (<[ k := v ]> m) = free_ids rest m.
Proof.
  intros Hk. unfold free_ids. induction rest as [|x rest IH]; [done|].
  apply not_elem_of_cons in Hk as [Hne Hk].
  rewrite !filter_cons, lookup_insert_ne by done. by rewrite IH.
Qed.

(** The ids the loop of [gpuScheduler.Apply] collects are the first [num]
    free ids in the order the map is read. *)
Lemma apply_loop_take (num : Z) (order : list string) (m : gmap string Z)
    (available : list string) :
  NoDup order ->
  llen available < num ->
  (apply_loop num order m available).2
  = (available ++ take (Z.to_nat (num - llen available)) (free_ids order m))%list.
Proof.
  revert m available. induction order as [|k rest IH]; intros m available Hnd Hlt; simpl.
  - unfold free_ids. by rewrite filter_nil, take_nil, app_nil_r.
  - apply NoDup_cons in Hnd as [Hk Hnd].
    destruct (m !! k) as [v|] eqn:Hmk.
    2:{ rewrite IH by done. unfold free_ids. rewrite filter_cons_False; [done|].
        by rewrite Hmk. }
    destruct (Z.eqb_spec v 0) as [->|Hv].
    2:{ rewrite IH by done. unfold free_ids. rewrite filter_cons_False; [done|].
        rewrite Hmk. by intros [= ?]. }
    assert (Hfree : free_ids (k :: rest) m = k :: free_ids rest m).
    { unfold free_ids. by rewrite filter_cons_True. }
    rewrite Hfree.
    destruct (Z.eqb_spec (llen (available ++ [k])%list) num) as [Hfull|Hnot]; simpl.
    + rewrite llen_app_one in Hfull.
      replace (Z.to_nat (num - llen available)) with 1%nat by lia. simpl. by rewrite take_0.
    + rewrite llen_app_one in Hnot.
      rewrite IH by (try done; rewrite llen_app_one; lia).
      rewrite free_ids_insert_other by done. rewrite llen_app_one, <- app_assoc. simpl.
      replace (Z.to_nat (num - llen available)) with (S (Z.to_nat (num - (llen available + 1)))) by lia.
      done.
Qed.

Lemma free_ids_count (order : list string) (m : gmap string Z) :
  order ≡ₚ elements (dom m) -> llen (free_ids order m) = count_free m.
Proof.
  intros Hp. unfold count_free, llen. f_equal.
  rewrite <- size_dom. unfold size, set_size. simpl.
  apply Permutation_length, NoDup_Permutation.
  - apply NoDup_filter. rewrite Hp. apply NoDup_elements.
  - apply NoDup_elements.
  - intros id. unfold free_ids. rewrite list_elem_of_filter, Hp, !elem_of_elements, !elem_of_dom.
    split.
    + intros [H0 _]. exists 0. by apply map_lookup_filter_Some.
    + intros [v Hv]. apply map_lookup_filter_Some in Hv as [Hv Hz]. simpl in Hz. subst.
      split; [done | by exists 0].
Qed.

(** What [gpuScheduler.Apply] leaves when it returns without an error. *)
Lemma Gpu_Apply_returns_inv (order : list string) (num : Z) (gs gs' : Gpu.gpuScheduler)
    (ids : list string) :
  Gpu.Apply order num gs = Returns (ids, None) gs' ->
  Gpu.mu gs = false
  /\ 0 < num <= Gpu.AvailableGpuNums gs
  /\ (apply_loop num order (Gpu.GpuStatusMap gs) []).2 = ids
  /\ llen ids = num
  /\ gs' = Gpu.with_status (apply_loop num order (Gpu.GpuStatusMap gs) []).1 gs.
Proof.
  unfold Gpu.Apply.
  destruct (Z.leb_spec num 0) as [|Hpos]; [discriminate|].
  destruct (Z.ltb_spec (Gpu.AvailableGpuNums gs) num); [discriminate|]. simpl.
  destruct (Gpu.mu gs) eqn:Hmu; [discriminate|].
  destruct (apply_loop_spec num order (Gpu.GpuStatusMap gs) [])
    as (new & He & _ & Hlen & _); [unfold llen; simpl; lia|].
  destruct (apply_loop num order (Gpu.GpuStatusMap gs) []) as [m availableGpus].
  simpl in *. subst availableGpus.
  destruct (Z.ltb_spec (llen new) num) as [Hshort|Hfull].
  - match goal with |- context [Gpu.Restore ?a ?b] => destruct (Gpu.Restore a b) end;
      discriminate.
  - intros [= <- <-]. repeat split; try done; try lia.
    destruct gs; simpl in *; by subst.
Qed.


Lemma count_free_after_take (m m' : gmap string Z) (ids : list string) :
  NoDup ids ->
  (forall id, id ∈ ids -> m !! id = Some 0 /\ m' !! id = Some 1) ->
  (forall id, id ∉ ids -> m' !! id = m !! id) ->
  count_free m' = count_free m - llen ids.
Proof.
  intros Hnd Hin Hout. unfold count_free, llen.
  rewrite <- !size_dom.
  assert (Hsub : list_to_set ids ⊆ dom (filter (fun kv : string * Z => kv.2 = 0) m)).
  { intros id Hid. apply elem_of_list_to_set in Hid. apply elem_of_dom. exists 0.
    apply map_lookup_filter_Some. split; [by apply Hin | done]. }
  assert (Heq : dom (filter (fun kv : string * Z => kv.2 = 0) m')
                = dom (filter (fun kv : string * Z => kv.2 = 0) m) ∖ list_to_set ids).
  { apply set_eq. intros id.
    rewrite elem_of_difference, !elem_of_dom, elem_of_list_to_set. split.
    - intros [v Hv]. apply map_lookup_filter_Some in Hv as [Hv Hz]. simpl in Hz. subst.
      destruct (decide (id ∈ ids)) as [Hid|Hid].
      + destruct (Hin id Hid) as [_ H1]. congruence.
      + split; [|done]. exists 0. apply map_lookup_filter_Some.
        split; [by rewrite <- (Hout id Hid) | done].
    - intros [[v Hv] Hid]. apply map_lookup_filter_Some in Hv as [Hv Hz]. simpl in Hz. subst.
      exists 0. apply map_lookup_filter_Some. split; [by rewrite (Hout id Hid) | done]. }
  rewrite Heq, size_difference by done.
  rewrite size_list_to_set by done.
  apply subseteq_size in Hsub. rewrite size_list_to_set in Hsub by done. lia.
Qed.

(** X1. [gpuScheduler.Apply] by the number of free GPUs, for a request
    within 1 .. AvailableGpuNums on an unlocked scheduler whose map is
    read in the order [order]: with no free GPU it returns the GpuNotEnough
    error and leaves the scheduler as it was; with some free GPUs but
    fewer than [num] it does not return and no GPU is left free; with
    [num] or more it returns the first [num] free ids of [order] and the
    number of free GPUs goes down by [num]. *)
Theorem Gpu_Apply_by_free_count (order : list string) (num : Z) (gs : Gpu.gpuScheduler) :
  Gpu.mu gs = false ->
  0 < num <= Gpu.AvailableGpuNums gs ->
  order ≡ₚ elements (dom (Gpu.GpuStatusMap gs)) ->
  let free := count_free (Gpu.GpuStatusMap gs) in
  (free = 0 ->
     Gpu.Apply order num gs = Returns ([], Some xerrors.NewGpuNotEnoughError) gs)
  /\ (0 < free < num ->
      exists gs', Gpu.Apply order num gs = Blocks gs'
                  /\ count_free (Gpu.GpuStatusMap gs') = 0)
  /\ (num <= free ->
      exists gs', Gpu.Apply order num gs
                  = Returns (take (Z.to_nat num) (free_ids order (Gpu.GpuStatusMap gs)), None) gs'
                  /\ count_free (Gpu.GpuStatusMap gs') = free - num).
Proof.
  intros Hmu [Hn1 Hn2] Hperm free.
  assert (Hnd : NoDup order) by (rewrite Hperm; apply NoDup_elements).
  pose proof (free_ids_count order _ Hperm) as Hcount. fold free in Hcount.
  pose proof (apply_loop_take num order (Gpu.GpuStatusMap gs) [] Hnd) as Htake.
  destruct (apply_loop_spec num order (Gpu.GpuStatusMap gs) [])
    as (new & He & Hnew & Hlen & Hin & Hout); [unfold llen; simpl; lia|].
  rewrite He in Htake. simpl in Htake, He, Hlen.
  change (llen (@nil string)) with 0 in Htake. rewrite Z.sub_0_r in Htake.
  specialize (Htake ltac:(lia)).
  assert (Hnewlen : llen new = Z.min num free).
  { rewrite Htake. unfold llen. rewrite length_take. unfold llen in Hcount. lia. }
  pose proof (count_free_after_take _ _ new Hnew Hin Hout) as Hafter. fold free in Hafter.
  unfold Gpu.Apply.
  destruct (Z.leb_spec num 0); [lia|].
  destruct (Z.ltb_spec (Gpu.AvailableGpuNums gs) num); [lia|]. simpl. rewrite Hmu.
  destruct (apply_loop num order (Gpu.GpuStatusMap gs) []) as [m availableGpus].
  simpl in *. subst availableGpus.
  split; [|split].
  - intros Hzero. assert (new = []) as -> by (destruct new; [done | unfold llen in Hnewlen; simpl in Hnewlen; lia]).
    simpl. destruct (Z.ltb_spec (llen (@nil string)) num); [|unfold llen in *; simpl in *; lia].
    unfold Gpu.Restore. simpl. f_equal.
    assert (m = Gpu.GpuStatusMap gs) as ->.
    { apply map_eq. intros id. apply Hout. apply not_elem_of_nil. }
    destruct gs; simpl in *; by subst.
  - intros [Hf1 Hf2]. destruct (Z.ltb_spec (llen new) num); [|lia].
    unfold Gpu.Restore. simpl.
    destruct (Z.leb_spec (llen new) 0); [lia|].
    destruct (Z.ltb_spec (Gpu.AvailableGpuNums gs) (llen new)); [lia|]. simpl.
    eexists. split; [reflexivity|]. simpl. lia.
  - intros Hf. destruct (Z.ltb_spec (llen new) num); [lia|].
    eexists. rewrite Htake at 1. split; [reflexivity|]. simpl. lia.
Qed.

Lemma Gpu_Apply_by_free_count_witness :
  Gpu.Apply gpu_order2 1 gpus_held = Returns ([], Some xerrors.NewGpuNotEnoughError) gpus_held
  /\ (exists gs', Gpu.Apply gpu_order2 2 gpus_one_free = Blocks gs'
                  /\ count_free (Gpu.GpuStatusMap gs') = 0)
  /\ (exists gs', Gpu.Apply gpu_order2 1 gpus_free = Returns ([ "GPU-0" ], None) gs'
                  /\ count_free (Gpu.GpuStatusMap gs') = 1).
Proof.
  assert (Hperm : forall a b, gpu_order2 ≡ₚ elements (dom (pool2 a b))).
  { intros a b. unfold pool2. rewrite !dom_insert_L, dom_empty_L.
    rewrite elements_union_singleton
      by (rewrite not_elem_of_union, not_elem_of_singleton;
          split; [discriminate | apply not_elem_of_empty]).
    apply Permutation_skip.
    rewrite elements_union_singleton by apply not_elem_of_empty.
    by rewrite elements_empty. }
  split; [|split].
  - apply (Gpu_Apply_by_free_count gpu_order2 1 gpus_held);
      [reflexivity | simpl; lia | apply Hperm | vm_compute; reflexivity].
  - apply (Gpu_Apply_by_free_count gpu_order2 2 gpus_one_free);
      [reflexivity | simpl; lia | apply Hperm | vm_compute; split; reflexivity].
  - apply (Gpu_Apply_by_free_count gpu_order2 1 gpus_free);
      [reflexivity | simpl; lia | apply Hperm | vm_compute; discriminate].
Defined.

(** ** Strings: append, reverse, trim, split and join *)

Lemma string_app_cons (c : ascii) (s t : string) : String c s +:+ t = String c (s +:+ t).
Proof. reflexivity. Qed.

Lemma string_app_nil_l (t : string) : "" +:+ t = t.
Proof. reflexivity. Qed.

Lemma string_app_nil_r (s : string) : s +:+ "" = s.
Proof.
  induction s as [|c s IH]; [reflexivity|]. by rewrite string_app_cons, IH.
Qed.

Lemma rev_app_rev_app (a b c : string) :
  String.rev_app (String.rev_app a b) c = String.rev_app b (a +:+ c).
Proof.
  revert b c. induction a as [|x a IH]; intros b c; [reflexivity|].
  change (String.rev_app (String.rev_app a (String x b)) c
          = String.rev_app b (String x a +:+ c)).
  by rewrite IH, string_app_cons.
Qed.

Lemma string_rev_involutive (s : string) : String.rev (String.rev s) = s.
Proof.
  unfold String.rev. rewrite rev_app_rev_app.
  change (String.rev_app "" (s +:+ "")) with (s +:+ ""). apply string_app_nil_r.
Qed.

Lemma rev_app_app (a b c : string) :
  String.rev_app (a +:+ b) c = String.rev_app b (String.rev_app a c).
Proof.
  revert c. induction a as [|x a IH]; intros c; [reflexivity|].
  rewrite string_app_cons.
  change (String.rev_app (a +:+ b) (String x c) = String.rev_app b (String.rev_app a (String x c))).
  apply IH.
Qed.

(** A string that starts and ends with a byte other than [cut] is left
    alone by [strings.Trim]. *)
Lemma Trim_id (cut c d : ascii) (s t : string) :
  Ascii.eqb c cut = false -> Ascii.eqb d cut = false ->
  String c s = t +:+ String d "" ->
  Trim (String c s) cut = String c s.
Proof.
  intros Hc Hd Hs. unfold Trim.
  assert (H1 : trim_left cut (String c s) = String c s) by (simpl; by rewrite Hc).
  rewrite H1.
  assert (H2 : String.rev (String c s) = String d (String.rev t)).
  { rewrite Hs. unfold String.rev. by rewrite rev_app_app. }
  rewrite H2.
  assert (H3 : trim_left cut (String d (String.rev t)) = String d (String.rev t))
    by (simpl; by rewrite Hd).
  rewrite H3, <- H2. apply string_rev_involutive.
Qed.

(** The bytes of a decimal numeral *)
Lemma pretty_N_char_digit (x : N) : Ascii.eqb (pretty_N_char x) "," = false
                                     /\ Ascii.eqb (pretty_N_char x) "-" = false.
Proof. unfold pretty_N_char. repeat case_match; done. Qed.

Lemma pretty_N_go_has_byte (c : ascii) (x : N) (s : string) :
  (forall d, Ascii.eqb (pretty_N_char d) c = false) ->
  has_byte c (pretty_N_go x s) = has_byte c s.
Proof.
  intros Hc. revert s. induction (N.lt_wf_0 x) as [x _ IH]; intros s.
  destruct (decide (x = 0)%N) as [->|Hx]; [by rewrite pretty_N_go_0|].
  rewrite pretty_N_go_step by lia. rewrite IH by (apply N.div_lt; lia).
  simpl. by rewrite Hc.
Qed.

Lemma pretty_N_go_suffix (x : N) (s : string) :
  exists t, pretty_N_go x s = t +:+ s.
Proof.
  revert s. induction (N.lt_wf_0 x) as [x _ IH]; intros s.
  destruct (decide (x = 0)%N) as [->|Hx]; [exists ""; by rewrite pretty_N_go_0|].
  rewrite pretty_N_go_step by lia.
  destruct (IH (x `div` 10)%N ltac:(apply N.div_lt; lia)
              (String (pretty_N_char (x `mod` 10)) s)) as [t Ht].
  exists (t +:+ String (pretty_N_char (x `mod` 10)) ""). rewrite Ht.
  clear. induction t as [|a t IHt]; [reflexivity|].
  by rewrite !string_app_cons, IHt.
Qed.

(** The numeral of a natural number has no comma, is not empty and ends
    with a digit. *)
Lemma Itoa_nat_shape (i : nat) :
  has_byte "," (Itoa (Z.of_nat i)) = false
  /\ exists c s d t,
       Itoa (Z.of_nat i) = String c s /\ Itoa (Z.of_nat i) = t +:+ String d ""
       /\ Ascii.eqb c "," = false /\ Ascii.eqb d "," = false.
Proof.
  assert (Hcomma : forall d, Ascii.eqb (pretty_N_char d) "," = false)
    by (intros d; apply pretty_N_char_digit).
  assert (Hpos : forall x : N, (0 < x)%N ->
            has_byte "," (pretty_N_go x "") = false
            /\ exists d t, pretty_N_go x "" = t +:+ String d "" /\ Ascii.eqb d "," = false).
  { intros x Hx. split; [by rewrite pretty_N_go_has_byte|].
    rewrite pretty_N_go_step by done.
    destruct (pretty_N_go_suffix (x `div` 10)%N (String (pretty_N_char (x `mod` 10)) ""))
      as [t Ht].
    exists (pretty_N_char (x `mod` 10)), t. split; [done | apply Hcomma]. }
  assert (Hshape : forall str d t, has_byte "," str = false -> str = t +:+ String d "" ->
            Ascii.eqb d "," = false ->
            exists c s d t, str = String c s /\ str = t +:+ String d ""
                            /\ Ascii.eqb c "," = false /\ Ascii.eqb d "," = false).
  { intros str d t Hb Hs Hd. destruct str as [|c s].
    - destruct t; discriminate.
    - exists c, s, d, t. simpl in Hb. apply orb_false_iff in Hb as [Hc _]. done. }
  unfold Itoa. destruct i as [|i].
  - split; [reflexivity|]. exists "0"%char, "", "0"%char, "". done.
  - change (pretty (Z.of_nat (S i))) with (pretty_N_go (N.pos (Pos.of_succ_nat i)) "").
    destruct (Hpos (N.pos (Pos.of_succ_nat i)) ltac:(lia)) as [Hb (d & t & Hs & Hd)].
    split; [done|]. by eapply Hshape.
Qed.

Lemma Join_cons_cons (e r : string) (rs : list string) (sep : string) :
  Join (e :: r :: rs) sep = e +:+ sep +:+ Join (r :: rs) sep.
Proof. reflexivity. Qed.

(** [strings.Split] undoes [strings.Join] when no element holds the
    separator. *)
Lemma split_acc_Join (sep : ascii) (rest : list string) (e cur : string) :
  has_byte sep e = false ->
  Forall (fun s => has_byte sep s = false) rest ->
  split_acc sep cur (Join (e :: rest) (String sep "")) = String.rev_app cur e :: rest.
Proof.
  revert e cur. induction rest as [|r rs IH]; intros e cur He Hrest.
  - simpl. by apply split_acc_no_sep.
  - apply Forall_cons in Hrest as [Hr Hrs]. rewrite Join_cons_cons.
    revert cur. induction e as [|c e IHe]; intros cur.
    + rewrite string_app_nil_l, string_app_cons, string_app_nil_l.
      simpl. rewrite Ascii.eqb_refl. f_equal. exact (IH r "" Hr Hrs).
    + simpl in He. apply orb_false_iff in He as [Hc He].
      rewrite string_app_cons. simpl. rewrite Hc. by rewrite IHe.
Qed.

Lemma Split_Join (sep : ascii) (e : string) (rest : list string) :
  Forall (fun s => has_byte sep s = false) (e :: rest) ->
  Split (Join (e :: rest) (String sep "")) sep = e :: rest.
Proof.
  intros H. apply Forall_cons in H as [He Hrest]. unfold Split.
  by rewrite split_acc_Join.
Qed.

Lemma Join_starts (e : string) (rest : list string) (sep : string) :
  exists u, Join (e :: rest) sep = e +:+ u.
Proof.
  destruct rest as [|r rs]; [exists ""; simpl; by rewrite string_app_nil_r|].
  rewrite Join_cons_cons. eauto.
Qed.

Lemma string_app_assoc (a b c : string) : (a +:+ b) +:+ c = a +:+ (b +:+ c).
Proof.
  induction a as [|x a IH]; [reflexivity|]. by rewrite !string_app_cons, IH.
Qed.

Lemma Join_ends (l : list string) (e : string) (sep : string) :
  exists p, Join (l ++ [e])%list sep = p +:+ e.
Proof.
  induction l as [|x l [p Hp]]; [by exists ""|].
  destruct l as [|y l].
  - simpl. exists (x +:+ sep). by rewrite string_app_assoc.
  - change (((x :: y :: l) ++ [e])%list) with (x :: y :: (l ++ [e])%list).
    rewrite Join_cons_cons.
    change (y :: (l ++ [e])%list) with (((y :: l) ++ [e])%list). rewrite Hp.
    exists (x +:+ sep +:+ p). by rewrite !string_app_assoc.
Qed.

(** The cpu-set string of a non-empty list of numerals splits back into
    the numerals. *)
Lemma cpuSet_ids (ns : list nat) :
  ns <> [] ->
  let ids := (fun i => Itoa (Z.of_nat i)) <$> ns in
  Trim (Join ids ",") ","%char = Join ids ","
  /\ Split (Join ids ",") ","%char = ids.
Proof.
  intros Hne. set (f := fun i : nat => Itoa (Z.of_nat i)). intros ids.
  assert (Hall : Forall (fun s => has_byte "," s = false) ids).
  { apply Forall_fmap, Forall_forall. intros i _. apply Itoa_nat_shape. }
  destruct ns as [|n0 ns']; [done|].
  split; [|by apply Split_Join].
  destruct (Itoa_nat_shape n0) as [_ (c & s & _ & _ & Hs & _ & Hc & _)].
  assert (exists l e, (n0 :: ns') = (l ++ [e])%list) as (l & e & Hl).
  { destruct (@exists_last _ (n0 :: ns')) as (l & e & ->); [done|]. eauto. }
  destruct (Itoa_nat_shape e) as [_ (_ & _ & d & t & _ & Ht & _ & Hd)].
  destruct (Join_starts (f n0) (f <$> ns') ",") as [u Hu].
  assert (Hends : exists p, Join ids "," = p +:+ String d "").
  { subst ids. rewrite Hl, fmap_app. simpl.
    destruct (Join_ends (f <$> l) (f e) ",") as [p Hp].
    rewrite Hp. change (f e) with (Itoa (Z.of_nat e)). rewrite Ht. exists (p +:+ t). by rewrite string_app_assoc. }
  destruct Hends as [p Hp].
  assert (Hstart : Join ids "," = String c (s +:+ u)).
  { subst ids. rewrite fmap_cons, Hu. change (f n0) with (Itoa (Z.of_nat n0)). by rewrite Hs, string_app_cons. }
  rewrite Hstart in *. by eapply Trim_id.
Qed.

(** On a map that has every numeral of [indices], the loop of
    [cpuScheduler.Apply] is the loop of [gpuScheduler.Apply] over those
    numerals. *)
Lemma cpu_loop_as_apply_loop (num : Z) (indices : list Z) (m : gmap string Z)
    (applyCpus : list string) :
  Forall (fun k => Itoa k ∈ dom m) indices ->
  Cpu.apply_loop num indices m applyCpus = apply_loop num (Itoa <$> indices) m applyCpus.
Proof.
  revert m applyCpus. induction indices as [|k rest IH]; intros m applyCpus Hall; [done|].
  apply Forall_cons in Hall as [Hk Hrest]. simpl.
  apply elem_of_dom in Hk as [v Hv]. rewrite Hv. simpl.
  destruct (v =? 0); [|by apply IH].
  destruct (llen (applyCpus ++ [Itoa k])%list =? num); [done|].
  apply IH. by rewrite dom_insert_member by (apply elem_of_dom; eauto).
Qed.

Lemma sorted_keys_length (T : Z) (m : gmap string Z) :
  dom m = list_to_set (Cpu.getAllCpuProcessors T) ->
  length (Cpu.sorted_keys m) = Z.to_nat T.
Proof.
  intros Hd. unfold Cpu.sorted_keys.
  rewrite (Permutation_length (merge_sort_Permutation _ _)), length_fmap.
  change (length (elements (dom m))) with (size (dom m)).
  rewrite Hd, size_list_to_set by apply getAllCpuProcessors_NoDup.
  apply getAllCpuProcessors_length.
Qed.

Lemma numeral_order (T : Z) (m : gmap string Z) :
  dom m = list_to_set (Cpu.getAllCpuProcessors T) ->
  Itoa <$> Cpu.range_indices (Cpu.sorted_keys m) = Cpu.getAllCpuProcessors T.
Proof.
  intros Hd. unfold Cpu.range_indices, Cpu.getAllCpuProcessors.
  rewrite (sorted_keys_length T m Hd), <- list_fmap_compose. done.
Qed.

Lemma numerals_listing (T : Z) (m : gmap string Z) :
  dom m = list_to_set (Cpu.getAllCpuProcessors T) ->
  Cpu.getAllCpuProcessors T ≡ₚ elements (dom m).
Proof.
  intros ->. symmetry. apply elements_list_to_set, getAllCpuProcessors_NoDup.
Qed.

Lemma fmap_preimage {A B} (f : A -> B) (l : list B) :
  Forall (fun y => exists x, y = f x) l -> exists xs, l = f <$> xs.
Proof.
  induction 1 as [|y l [x ->] _ [xs ->]]; [by exists []|]. by exists (x :: xs).
Qed.

(** What [cpuScheduler.Apply] does on a pool whose ids are the numerals
    0 .. T-1: lowest free ids first, or nothing at all. *)
Lemma Cpu_Apply_ids_cases (T num : Z) (cs : Cpu.cpuScheduler) :
  Cpu.mu cs = false ->
  0 < num <= Cpu.AvailableCpuNums cs ->
  dom (Cpu.CpuStatusMap cs) = list_to_set (Cpu.getAllCpuProcessors T) ->
  let m := Cpu.CpuStatusMap cs in
  let ids := take (Z.to_nat num) (free_ids (Cpu.getAllCpuProcessors T) m) in
  (count_free m < num ->
     Cpu.Apply_ids num cs = Returns ([], "", Some xerrors.NewCpuNotEnoughError) cs)
  /\ (num <= count_free m ->
      exists m',
        Cpu.Apply_ids num cs = Returns (ids, Join ids ",", None) (Cpu.with_status m' cs)
        /\ llen ids = num /\ NoDup ids
        /\ (exists ns, ns <> [] /\ ids = (fun i => Itoa (Z.of_nat i)) <$> ns)
        /\ (forall id, id ∈ ids -> m !! id = Some 0 /\ m' !! id = Some 1)
        /\ (forall id, id ∉ ids -> m' !! id = m !! id)).
Proof.
  intros Hmu [Hn1 Hn2] Hdom m ids.
  pose proof (numerals_listing T _ Hdom) as Hperm.
  assert (Hnd : NoDup (Cpu.getAllCpuProcessors T)) by apply getAllCpuProcessors_NoDup.
  pose proof (free_ids_count _ _ Hperm) as Hcount. fold m in Hcount.
  pose proof (apply_loop_take num (Cpu.getAllCpuProcessors T) m [] Hnd) as Htake.
  destruct (apply_loop_spec num (Cpu.getAllCpuProcessors T) m [])
    as (new & He & Hnew & Hlen & Hin & Hout); [unfold llen; simpl; lia|].
  rewrite He in Htake. simpl in Htake, He, Hlen.
  change (llen (@nil string)) with 0 in Htake. rewrite Z.sub_0_r in Htake.
  specialize (Htake ltac:(lia)). fold ids in Htake.
  assert (Hnewlen : llen new = Z.min num (count_free m)).
  { rewrite Htake. unfold ids, llen. rewrite length_take. unfold llen in Hcount. lia. }
  unfold Cpu.Apply_ids.
  destruct (Z.leb_spec num 0); [lia|].
  destruct (Z.ltb_spec (Cpu.AvailableCpuNums cs) num); [lia|]. simpl. rewrite Hmu.
  rewrite cpu_loop_as_apply_loop by (by apply (range_indices_members T)).
  rewrite (numeral_order T _ Hdom). fold m.
  destruct (apply_loop num (Cpu.getAllCpuProcessors T) m []) as [m' applyCpus].
  simpl in *. subst applyCpus.
  split.
  - intros Hshort. destruct (Z.ltb_spec (llen new) num); [|lia]. f_equal.
    unfold Cpu.restore. simpl.
    assert (mark_free new m' = m) as ->.
    { apply map_eq. intros id. rewrite mark_free_lookup.
      destruct (decide (id ∈ new)) as [Hid|Hid]; [by destruct (Hin id Hid) as [-> _] | by apply Hout]. }
    subst m. destruct cs; simpl in *; by subst.
  - intros Hfull. destruct (Z.ltb_spec (llen new) num); [lia|].
    assert (Hpre : exists ns, new = (fun i => Itoa (Z.of_nat i)) <$> ns).
    { apply fmap_preimage, Forall_forall. intros id Hid.
      destruct (Hin id Hid) as [Hwas _].
      assert (Hd : id ∈ dom m) by (apply elem_of_dom; eauto).
      subst m. rewrite Hdom in Hd. apply elem_of_list_to_set in Hd.
      unfold Cpu.getAllCpuProcessors in Hd. apply list_elem_of_fmap in Hd as (i & -> & _). by exists i. }
    destruct Hpre as [ns Hns].
    assert (Hne : ns <> []).
    { intros ->. rewrite Hns in Hnewlen. unfold llen in Hnewlen.
      rewrite length_fmap in Hnewlen. simpl in Hnewlen. lia. }
    destruct (cpuSet_ids ns Hne) as [Htrim _]. rewrite <- Hns in Htrim.
    exists m'. rewrite Htrim, <- Htake. split; [by destruct cs; simpl in *; subst|].
    split; [lia|]. split; [done|]. split; [by exists ns|]. done.
Qed.

(** ** Apply and Restore together *)

(** When [gpuScheduler.Apply] has returned ids, the scheduler is unlocked,
    the ids pass the guard of [Restore], and marking them free gives the
    scheduler the call started from. *)
Lemma Gpu_Apply_undone (order : list string) (num : Z)
    (gs gs' : Gpu.gpuScheduler) (ids : list string) :
  Gpu.Apply order num gs = Returns (ids, None) gs' ->
  Gpu.mu gs' = false
  /\ 1 <= llen ids <= Gpu.AvailableGpuNums gs'
  /\ Gpu.with_status (mark_free ids (Gpu.GpuStatusMap gs')) gs' = gs.
Proof.
  intros Happly.
  destruct (Gpu_Apply_returns_inv _ _ _ _ _ Happly) as (Hmu & Hnum & Hids & Hlen & Hgs').
  destruct (apply_loop_spec num order (Gpu.GpuStatusMap gs) [])
    as (new & He & _ & _ & Hin & Hout); [unfold llen; simpl; lia|].
  rewrite Hids in He. simpl in He. subst new.
  split; [by rewrite Hgs'; destruct gs|].
  split; [rewrite Hgs'; destruct gs; simpl in *; lia|].
  rewrite Hgs'. simpl.
  assert (mark_free ids (apply_loop num order (Gpu.GpuStatusMap gs) []).1 = Gpu.GpuStatusMap gs) as Hm.
  { apply map_eq. intros id. rewrite mark_free_lookup.
    destruct (decide (id ∈ ids)) as [Hid|Hid]; [by destruct (Hin id Hid) as [-> _] | by apply Hout]. }
  destruct gs; unfold Gpu.with_status; simpl in *. by rewrite Hm.
Qed.

(** X2. Restoring the ids that [gpuScheduler.Apply] returned, on the
    scheduler it left, returns and gives back the scheduler as it was
    before the [Apply]: status map, total and allocation index. *)
Theorem Gpu_Apply_then_Restore (order : list string) (num : Z)
    (gs gs' : Gpu.gpuScheduler) (ids : list string) :
  Gpu.Apply order num gs = Returns (ids, None) gs' ->
  Gpu.Restore ids gs' = Returns tt gs.
Proof.
  intros Happly.
  destruct (Gpu_Apply_undone _ _ _ _ _ Happly) as (Hmu & Hlen & Hback).
  rewrite Gpu_Restore_in_range by done. by rewrite Hback.
Qed.

Lemma Gpu_Apply_then_Restore_witness :
  Gpu.Restore [ "GPU-0" ] (state_of (Gpu.Apply gpu_order2 1 gpus_one_free))
  = Returns tt gpus_one_free.
Proof.
  apply (Gpu_Apply_then_Restore gpu_order2 1 gpus_one_free). vm_compute. reflexivity.
Defined.

(** X3 on both GPUs of a free pool. *)
Lemma Gpu_Apply_success_witness :
  let gs' := state_of (Gpu.Apply gpu_order2 2 gpus_free) in
  llen gpu_order2 = 2
  /\ NoDup gpu_order2
  /\ (forall id, id ∈ gpu_order2 ->
        is_free (Gpu.GpuStatusMap gpus_free) id /\ Gpu.GpuStatusMap gs' !! id = Some 1)
  /\ (forall id, id ∉ gpu_order2 ->
        Gpu.GpuStatusMap gs' !! id = Gpu.GpuStatusMap gpus_free !! id).
Proof.
  intros gs'. apply (Gpu_Apply_success gpu_order2 2 gpus_free gs' gpu_order2).
  vm_compute. reflexivity.
Defined.

(** X4 on a pool without a free GPU. *)
Lemma Gpu_Apply_error_unchanged_witness :
  Gpu.GpuStatusMap (state_of (Gpu.Apply gpu_order2 1 gpus_held)) = Gpu.GpuStatusMap gpus_held.
Proof.
  apply (Gpu_Apply_error_unchanged gpu_order2 1 gpus_held _ [] xerrors.NewGpuNotEnoughError).
  vm_compute. reflexivity.
Defined.

Lemma in_use_insert_1 (m : gmap string Z) (k id : string) :
  in_use m id -> in_use (<[ k := 1 ]> m) id.
Proof.
  intros (v & Hv & Hne). destruct (decide (k = id)) as [->|Hk].
  - exists 1. by rewrite lookup_insert_eq.
  - exists v. by rewrite lookup_insert_ne.
Qed.

Lemma apply_loop_keeps_in_use (num : Z) (order : list string) (m : gmap string Z)
    (available : list string) (id : string) :
  in_use m id -> in_use (apply_loop num order m available).1 id.
Proof.
  revert m available. induction order as [|k rest IH]; intros m available Hid; simpl; [done|].
  destruct (m !! k); [|by apply IH]. destruct (_ =? 0); [|by apply IH].
  destruct (_ =? num); simpl; [by apply in_use_insert_1|].
  by apply IH, in_use_insert_1.
Qed.

Lemma cpu_apply_loop_keeps (num : Z) (indices : list Z) (m : gmap string Z)
    (applyCpus : list string) (id : string) :
  in_use m id -> id ∉ applyCpus ->
  in_use (Cpu.apply_loop num indices m applyCpus).1 id
  /\ id ∉ (Cpu.apply_loop num indices m applyCpus).2.
Proof.
  revert m applyCpus. induction indices as [|k rest IH]; intros m applyCpus Hid Hno; simpl; [done|].
  destruct (Z.eqb_spec (default 0 (m !! Itoa k)) 0) as [Hfree|Hheld]; [|by apply IH].
  assert (Hne : id <> Itoa k).
  { intros ->. destruct Hid as (v & Hv & Hv0). rewrite Hv in Hfree. simpl in Hfree. lia. }
  assert (Hno' : id ∉ (applyCpus ++ [Itoa k])%list).
  { rewrite elem_of_app, list_elem_of_singleton. by intros [?|?]. }
  destruct (_ =? num); simpl; [split; [by apply in_use_insert_1 | done]|].
  apply IH; [by apply in_use_insert_1 | done].
Qed.

Lemma in_use_mark_free_other (m : gmap string Z) (ids : list string) (id : string) :
  in_use m id -> id ∉ ids -> in_use (mark_free ids m) id.
Proof.
  intros (v & Hv & Hne) Hid. exists v. rewrite mark_free_lookup.
  by destruct (decide (id ∈ ids)).
Qed.

(** X5. [Apply] never frees: an id that is in use before a call of
    [gpuScheduler.Apply] or [cpuScheduler.Apply] is in use in the state the
    call leaves, whatever the request, the lock, the pool and the outcome
    of the call, the rollback of a short batch included. *)
Theorem Apply_never_frees (order : list string) (num : Z) (gs : Gpu.gpuScheduler)
    (cs : Cpu.cpuScheduler) (id : string) :
  (in_use (Gpu.GpuStatusMap gs) id ->
     in_use (Gpu.GpuStatusMap (state_of (Gpu.Apply order num gs))) id)
  /\ (in_use (Cpu.CpuStatusMap cs) id ->
      in_use (Cpu.CpuStatusMap (state_of (Cpu.Apply num cs))) id).
Proof.
  split; intros Hid.
  - unfold Gpu.Apply.
    destruct ((num <=? 0) || (Gpu.AvailableGpuNums gs <? num)); [done|].
    destruct (Gpu.mu gs); [done|]. simpl.
    pose proof (apply_loop_keeps_in_use num order (Gpu.GpuStatusMap gs) [] id Hid) as Hk.
    destruct (apply_loop num order (Gpu.GpuStatusMap gs) []) as [m availableGpus].
    simpl in Hk. destruct (llen availableGpus <? num); [|done].
    unfold Gpu.Restore. simpl.
    by destruct ((llen availableGpus <=? 0) || (Gpu.AvailableGpuNums gs <? llen availableGpus)).
  - unfold Cpu.Apply, Cpu.Apply_ids.
    destruct ((num <=? 0) || (Cpu.AvailableCpuNums cs <? num)); [done|].
    destruct (Cpu.mu cs); [done|]. simpl.
    destruct (cpu_apply_loop_keeps num
                (Cpu.range_indices (Cpu.sorted_keys (Cpu.CpuStatusMap cs)))
                (Cpu.CpuStatusMap cs) [] id Hid) as [Hk Hno]; [apply not_elem_of_nil|].
    destruct (Cpu.apply_loop num _ (Cpu.CpuStatusMap cs) []) as [m applyCpus].
    simpl in Hk, Hno. destruct (llen applyCpus <? num); simpl; [|done].
    by apply in_use_mark_free_other.
Qed.

(** X6. The CPU scheduler does not lock itself out: on an unlocked
    scheduler [Apply] and [Restore] return, for every request and every
    pool, and leave the scheduler unlocked; [Restore] reports no error.
    ([cpuScheduler.Apply] rolls a short batch back through the unexported
    [restore], which takes no lock.) *)
Theorem Cpu_calls_return (num : Z) (cpuSet : list string) (cs : Cpu.cpuScheduler) :
  Cpu.mu cs = false ->
  (exists r cs', Cpu.Apply num cs = Returns r cs' /\ Cpu.mu cs' = false)
  /\ (exists cs', Cpu.Restore cpuSet cs = Returns None cs' /\ Cpu.mu cs' = false).
Proof.
  intros Hmu. split.
  - unfold Cpu.Apply, Cpu.Apply_ids.
    destruct ((num <=? 0) || (Cpu.AvailableCpuNums cs <? num)); [by eauto|].
    rewrite Hmu.
    destruct (Cpu.apply_loop num _ _ []) as [m applyCpus].
    destruct (llen applyCpus <? num); eauto.
  - rewrite Cpu_Restore_returns by done. eauto.
Qed.

Lemma Cpu_calls_return_witness :
  (exists r cs', Cpu.Apply 3 cpus_5_7 = Returns r cs' /\ Cpu.mu cs' = false)
  /\ (exists cs', Cpu.Restore [ "5" ] cpus_5_7 = Returns None cs' /\ Cpu.mu cs' = false).
Proof.
  apply (Cpu_calls_return 3 [ "5" ] cpus_5_7). reflexivity.
Defined.

(** X7. [cpuScheduler.Apply] on a pool whose ids are the numerals
    0 .. T-1, unlocked, for a request within 1 .. AvailableCpuNums: with
    fewer than [num] free CPUs it returns the CpuNotEnough error and the
    scheduler as it was; otherwise it returns the [num] lowest free ids,
    joined by commas in ascending order, the string splits back into these
    ids, each of them is in use afterwards and the number of free CPUs
    goes down by [num]. *)
Theorem Cpu_Apply_lowest_free_first (T num : Z) (cs : Cpu.cpuScheduler) :
  Cpu.mu cs = false ->
  0 < num <= Cpu.AvailableCpuNums cs ->
  dom (Cpu.CpuStatusMap cs) = list_to_set (Cpu.getAllCpuProcessors T) ->
  let m := Cpu.CpuStatusMap cs in
  let ids := take (Z.to_nat num) (free_ids (Cpu.getAllCpuProcessors T) m) in
  (count_free m < num ->
     Cpu.Apply num cs = Returns ("", Some xerrors.NewCpuNotEnoughError) cs)
  /\ (num <= count_free m ->
      exists cs',
        Cpu.Apply num cs = Returns (Join ids ",", None) cs'
        /\ ids_of (Join ids ",") = ids
        /\ llen ids = num
        /\ (forall id, id ∈ ids -> in_use (Cpu.CpuStatusMap cs') id)
        /\ count_free (Cpu.CpuStatusMap cs') = count_free m - num).
Proof.
  intros Hmu Hnum Hdom m ids.
  destruct (Cpu_Apply_ids_cases T num cs Hmu Hnum Hdom) as [Hshort Hfull].
  fold m in Hshort, Hfull. fold ids in Hfull. unfold Cpu.Apply. split.
  - intros H. by rewrite (Hshort H).
  - intros H. destruct (Hfull H) as (m' & Ha & Hlen & Hnd & (ns & Hne & Hns) & Hin & Hout).
    rewrite Ha. eexists. split; [reflexivity|].
    split; [rewrite Hns; unfold ids_of; by apply cpuSet_ids|].
    split; [done|]. split.
    + intros id Hid. exists 1. split; [by apply Hin | done].
    + simpl. rewrite (count_free_after_take m m' ids) by done. lia.
Qed.

Lemma InitCpuScheduler_dom (cpuNum : Z) :
  dom (Cpu.CpuStatusMap (Cpu.InitCpuScheduler cpuNum))
  = list_to_set (Cpu.getAllCpuProcessors cpuNum).
Proof.
  unfold Cpu.InitCpuScheduler. simpl. rewrite mark_free_dom, dom_empty_L.
  apply set_eq. intros id. rewrite elem_of_union, elem_of_empty. tauto.
Qed.

Lemma Cpu_Apply_lowest_free_first_witness :
  exists cs', Cpu.Apply 2 (Cpu.InitCpuScheduler 3) = Returns ("0,1", None) cs'
              /\ ids_of "0,1" = [ "0"; "1" ]
              /\ count_free (Cpu.CpuStatusMap cs') = 1.
Proof.
  destruct (Cpu_Apply_lowest_free_first 3 2 (Cpu.InitCpuScheduler 3)) as [_ H];
    [reflexivity | vm_compute; split; [reflexivity | discriminate]
    | apply InitCpuScheduler_dom |].
  destruct H as (cs' & Ha & Hids & _ & _ & Hfree); [vm_compute; discriminate|].
  exists cs'. split; [exact Ha|]. split; [exact Hids|]. exact Hfree.
Defined.

(** When [cpuScheduler.Apply] has returned a cpu-set on a pool of
    numerals, the cpu-set splits into the ids taken, and marking them free
    gives the scheduler the call started from, unlocked. *)
Lemma Cpu_Apply_undone (T num : Z) (cs cs' : Cpu.cpuScheduler) (cpuSet : string) :
  dom (Cpu.CpuStatusMap cs) = list_to_set (Cpu.getAllCpuProcessors T) ->
  Cpu.Apply num cs = Returns (cpuSet, None) cs' ->
  Cpu.mu cs' = false
  /\ cpuSet <> ""
  /\ Cpu.with_status (mark_free (ids_of cpuSet) (Cpu.CpuStatusMap cs')) cs' = cs.
Proof.
  intros Hdom Happly.
  assert (Hpre : Cpu.mu cs = false /\ 0 < num <= Cpu.AvailableCpuNums cs).
  { revert Happly. unfold Cpu.Apply, Cpu.Apply_ids.
    destruct (Z.leb_spec num 0); [discriminate|].
    destruct (Z.ltb_spec (Cpu.AvailableCpuNums cs) num); [discriminate|]. simpl.
    destruct (Cpu.mu cs); [discriminate|]. intros _. split; [done | lia]. }
  destruct Hpre as [Hmu Hnum].
  destruct (Cpu_Apply_ids_cases T num cs Hmu Hnum Hdom) as [Hshort Hfull].
  unfold Cpu.Apply in Happly.
  destruct (Z.lt_ge_cases (count_free (Cpu.CpuStatusMap cs)) num) as [Hlt|Hge].
  { rewrite (Hshort Hlt) in Happly. discriminate. }
  destruct (Hfull ltac:(lia)) as (m' & Ha & Hlen & Hnd & (ns & Hne & Hns) & Hin & Hout).
  rewrite Ha in Happly. injection Happly as <- <-.
  assert (Hids : ids_of (Join (take (Z.to_nat num)
                   (free_ids (Cpu.getAllCpuProcessors T) (Cpu.CpuStatusMap cs))) ",")
                 = take (Z.to_nat num) (free_ids (Cpu.getAllCpuProcessors T) (Cpu.CpuStatusMap cs))).
  { rewrite Hns. unfold ids_of. by apply cpuSet_ids. }
  split; [by destruct cs|]. split.
  - intros Hempty. rewrite Hempty in Hids. rewrite <- Hids in Hlen.
    change (llen (ids_of "")) with 1 in Hlen.
    rewrite <- Hids in Hin. destruct (Hin "") as [Hfree _]; [apply list_elem_of_here|].
    assert (Hd : "" ∈ dom (Cpu.CpuStatusMap cs)) by (apply elem_of_dom; eauto).
    rewrite Hdom in Hd. apply elem_of_list_to_set in Hd.
    unfold Cpu.getAllCpuProcessors in Hd. apply list_elem_of_fmap in Hd as (i & Hi & _).
    destruct (Itoa_nat_shape i) as (_ & c & s & _ & _ & Hs & _).
    rewrite <- Hi in Hs. discriminate.
  - rewrite Hids. simpl.
    assert (Hm : mark_free (take (Z.to_nat num)
                   (free_ids (Cpu.getAllCpuProcessors T) (Cpu.CpuStatusMap cs))) m'
                 = Cpu.CpuStatusMap cs).
    { apply map_eq. intros id. rewrite mark_free_lookup.
      destruct (decide (id ∈ _)) as [Hid|Hid]; [by destruct (Hin id Hid) as [-> _] | by apply Hout]. }
    destruct cs; unfold Cpu.with_status; simpl in *. by rewrite Hm.
Qed.

(** X8. On a pool of numerals, splitting the cpu-set that
    [cpuScheduler.Apply] returned at its commas and restoring these ids,
    as the controller does, returns without an error and gives back the
    scheduler as it was before the [Apply]. *)
Theorem Cpu_Apply_then_Restore (T num : Z) (cs cs' : Cpu.cpuScheduler) (cpuSet : string) :
  dom (Cpu.CpuStatusMap cs) = list_to_set (Cpu.getAllCpuProcessors T) ->
  Cpu.Apply num cs = Returns (cpuSet, None) cs' ->
  Cpu.Restore (Split cpuSet ","%char) cs' = Returns None cs.
Proof.
  intros Hdom Happly.
  destruct (Cpu_Apply_undone T num cs cs' cpuSet Hdom Happly) as (Hmu & _ & Hback).
  rewrite Cpu_Restore_returns by done. unfold ids_of in Hback. by rewrite Hback.
Qed.

Lemma Cpu_Apply_then_Restore_witness :
  Cpu.Restore (Split "0,1" ","%char) (state_of (Cpu.Apply 2 (Cpu.InitCpuScheduler 3)))
  = Returns None (Cpu.InitCpuScheduler 3).
Proof.
  apply (Cpu_Apply_then_Restore 3 2 (Cpu.InitCpuScheduler 3));
    [apply InitCpuScheduler_dom | vm_compute; reflexivity].
Defined.

(** X9. [InitCpuScheduler] on a host without a snapshot and with
    [cpuNum] processors builds a pool with total [cpuNum] whose ids are
    the numerals 0 .. cpuNum-1, all free. *)
Theorem InitCpuScheduler_pool (cpuNum : Z) :
  0 <= cpuNum ->
  let cs := Cpu.InitCpuScheduler cpuNum in
  Cpu.AvailableCpuNums cs = cpuNum
  /\ dom (Cpu.CpuStatusMap cs) = list_to_set (Cpu.getAllCpuProcessors cpuNum)
  /\ (forall id, id ∈ dom (Cpu.CpuStatusMap cs) -> is_free (Cpu.CpuStatusMap cs) id)
  /\ (forall i, 0 <= i < cpuNum -> is_free (Cpu.CpuStatusMap cs) (Itoa i))
  /\ count_free (Cpu.CpuStatusMap cs) = cpuNum
  /\ count_in_use (Cpu.CpuStatusMap cs) = 0.
Proof.
  intros Hn cs.
  assert (HT : Cpu.AvailableCpuNums cs = cpuNum).
  { unfold cs, Cpu.InitCpuScheduler, llen. simpl. rewrite getAllCpuProcessors_length. lia. }
  pose proof (InitCpuScheduler_dom cpuNum) as Hdom. fold cs in Hdom.
  assert (Hfree : forall id, id ∈ dom (Cpu.CpuStatusMap cs) -> is_free (Cpu.CpuStatusMap cs) id).
  { intros id Hid. rewrite Hdom in Hid. apply elem_of_list_to_set in Hid.
    unfold is_free, cs, Cpu.InitCpuScheduler. simpl. rewrite mark_free_lookup.
    by destruct (decide (id ∈ Cpu.getAllCpuProcessors cpuNum)). }
  assert (Hsize : Z.of_nat (size (Cpu.CpuStatusMap cs)) = cpuNum).
  { rewrite <- size_dom, Hdom, size_list_to_set by apply getAllCpuProcessors_NoDup.
    rewrite getAllCpuProcessors_length. lia. }
  assert (Hall : count_free (Cpu.CpuStatusMap cs) = cpuNum).
  { unfold count_free. rewrite map_filter_id; [done|].
    intros id v Hv. simpl.
    assert (Hid : id ∈ dom (Cpu.CpuStatusMap cs)) by (apply elem_of_dom; eauto).
    apply Hfree in Hid. unfold is_free in Hid. congruence. }
  split; [done|]. split; [done|]. split; [done|]. split.
  - intros i Hi. apply Hfree. rewrite Hdom. apply elem_of_list_to_set.
    unfold Cpu.getAllCpuProcessors.
    replace i with (Z.of_nat (Z.to_nat i)) by lia.
    apply (list_elem_of_fmap_2 (fun i : nat => Itoa (Z.of_nat i))). apply elem_of_seq. lia.
  - pose proof (count_free_in_use (Cpu.CpuStatusMap cs)). split; [done | lia].
Qed.

Lemma InitCpuScheduler_pool_witness :
  Cpu.AvailableCpuNums (Cpu.InitCpuScheduler 4) = 4
  /\ is_free (Cpu.CpuStatusMap (Cpu.InitCpuScheduler 4)) "3"
  /\ count_free (Cpu.CpuStatusMap (Cpu.InitCpuScheduler 4)) = 4.
Proof.
  destruct (InitCpuScheduler_pool 4) as (HT & _ & _ & Hi & Hfree & _); [lia|].
  split; [exact HT|]. split; [|exact Hfree].
  apply (Hi 3). lia.
Defined.
(** * Further properties of the errors and of the controller *)

(** ** Error kinds *)

Lemma Cause_wraps (e : error) (msgs : list string) :
  Cause (foldl Wrap e msgs) = Cause e.
Proof.
  revert e. induction msgs as [|msg msgs IH]; intros e; [done|].
  simpl. by rewrite IH.
Qed.

(** X10. The three NotEnough kinds of package [xerrors] are recognised by
    the cause of an error: wrapping an error any number of times, as the
    controller does with [errors.Wrapf] and [errors.WithMessage], does not
    change the answer of an Is...NotEnoughError; each constructor gives an
    error of its own kind under any number of wraps; and no error is of
    two kinds. *)
Theorem not_enough_kinds (e : error) (msgs : list string) :
  let wrapped := Some (foldl Wrap e msgs) in
  (xerrors.IsGpuNotEnoughError wrapped = xerrors.IsGpuNotEnoughError (Some e)
   /\ xerrors.IsCpuNotEnoughError wrapped = xerrors.IsCpuNotEnoughError (Some e)
   /\ xerrors.IsPortNotEnoughError wrapped = xerrors.IsPortNotEnoughError (Some e))
  /\ (xerrors.IsGpuNotEnoughError (Some (foldl Wrap xerrors.NewGpuNotEnoughError msgs)) = true
      /\ xerrors.IsCpuNotEnoughError (Some (foldl Wrap xerrors.NewCpuNotEnoughError msgs)) = true
      /\ xerrors.IsPortNotEnoughError (Some (foldl Wrap xerrors.NewPortNotEnoughError msgs)) = true)
  /\ (xerrors.IsGpuNotEnoughError (Some e) && xerrors.IsCpuNotEnoughError (Some e) = false
      /\ xerrors.IsGpuNotEnoughError (Some e) && xerrors.IsPortNotEnoughError (Some e) = false
      /\ xerrors.IsCpuNotEnoughError (Some e) && xerrors.IsPortNotEnoughError (Some e) = false).
Proof.
  intros wrapped. unfold wrapped, xerrors.IsGpuNotEnoughError, xerrors.IsCpuNotEnoughError,
    xerrors.IsPortNotEnoughError.
  rewrite !Cause_wraps. split; [done|]. split; [done|].
  repeat split; repeat case_bool_decide; try done;
    unfold xerrors.gpuNotEnough, xerrors.cpuNotEnough, xerrors.portNotEnough in *;
    congruence.
Qed.

(** ** The version entry of the environment *)

Lemma prefix_app (p s : string) : String.prefix p (p +:+ s) = true.
Proof.
  induction p as [|c p IH]; simpl; [by destruct s|].
  destruct (ascii_dec c c); [done | congruence].
Qed.

Lemma replaceVersionEnv_None (entry : string) (env : list string) :
  replaceVersionEnv entry env = None <-> Forall (fun e => HasPrefix e "CONTAINER_VERSION=" = false) env.
Proof.
  induction env as [|e rest IH]; simpl; [split; [by constructor | done]|].
  destruct (HasPrefix e "CONTAINER_VERSION=") eqn:He.
  - split; [done|]. intros H. apply Forall_cons in H as [H _]. congruence.
  - destruct (replaceVersionEnv entry rest) eqn:Hr; simpl.
    + split; [done|]. intros H. apply Forall_cons in H as [_ H]. apply IH in H. done.
    + split; [|done]. intros _. constructor; [done|]. by apply IH.
Qed.

Lemma replaceVersionEnv_Some (entry : string) (env env' : list string) :
  replaceVersionEnv entry env = Some env' ->
  exists pre old post,
    env = (pre ++ old :: post)%list
    /\ Forall (fun e => HasPrefix e "CONTAINER_VERSION=" = false) pre
    /\ HasPrefix old "CONTAINER_VERSION=" = true
    /\ env' = (pre ++ entry :: post)%list.
Proof.
  revert env'. induction env as [|e rest IH]; intros env'; simpl; [done|].
  destruct (HasPrefix e "CONTAINER_VERSION=") eqn:He.
  - intros [= <-]. exists [], e, rest. by repeat split.
  - destruct (replaceVersionEnv entry rest) as [r|] eqn:Hr; simpl; [|done].
    intros [= <-]. destruct (IH r eq_refl) as (pre & old & post & -> & Hpre & Hold & ->).
    exists (e :: pre), old, post. repeat split; try done. by constructor.
Qed.

Lemma replaceVersionEnv_at (entry : string) (pre post : list string) (old : string) :
  Forall (fun e => HasPrefix e "CONTAINER_VERSION=" = false) pre ->
  HasPrefix old "CONTAINER_VERSION=" = true ->
  replaceVersionEnv entry (pre ++ old :: post)%list = Some (pre ++ entry :: post)%list.
Proof.
  induction 1 as [|e pre He _ IH]; intros Hold; simpl; [by rewrite Hold|].
  by rewrite He, IH.
Qed.


(** X11. The loop of [runContainer] on the environment writes exactly one
    entry CONTAINER_VERSION=<version>: over the first entry that has this
    prefix, the entries around it untouched, or at the end when no entry
    has the prefix. Writing a second version afterwards gives the same
    list as writing that version alone: the environment does not grow
    from one version of a replica set to the next. *)
Theorem setVersionEnv_overwrites (version : Z) (env : list string) :
  let entry := "CONTAINER_VERSION=" +:+ Itoa version in
  let env' := setVersionEnv version env in
  ((Forall (fun e => HasPrefix e "CONTAINER_VERSION=" = false) env
    /\ env' = (env ++ [entry])%list)
   \/ (exists pre old post,
         env = (pre ++ old :: post)%list
         /\ Forall (fun e => HasPrefix e "CONTAINER_VERSION=" = false) pre
         /\ HasPrefix old "CONTAINER_VERSION=" = true
         /\ env' = (pre ++ entry :: post)%list))
  /\ entry ∈ env'
  /\ forall version2, setVersionEnv version2 env' = setVersionEnv version2 env.
Proof.
  intros entry env'.
  assert (Hentry : forall v, HasPrefix ("CONTAINER_VERSION=" +:+ Itoa v) "CONTAINER_VERSION=" = true)
    by (intros v; apply prefix_app).
  unfold env', setVersionEnv. fold entry.
  destruct (replaceVersionEnv entry env) as [r|] eqn:Hr.
  - destruct (replaceVersionEnv_Some _ _ _ Hr) as (pre & old & post & -> & Hpre & Hold & ->).
    split; [right; by exists pre, old, post|].
    split; [apply elem_of_app; right; apply list_elem_of_here|].
    intros v2. by rewrite !replaceVersionEnv_at by (done || apply Hentry).
  - apply replaceVersionEnv_None in Hr as Hall.
    split; [by left|].
    split; [apply elem_of_app; right; apply list_elem_of_here|].
    intros v2. rewrite (replaceVersionEnv_at _ env [] entry Hall (Hentry version)).
    apply (replaceVersionEnv_None ("CONTAINER_VERSION=" +:+ Itoa v2)) in Hall. by rewrite Hall.
Qed.

(** ** runContainer *)

Ltac run_done :=
  eexists; eexists; split; [reflexivity|]; simpl;
  repeat (split; [done|]);
  first [ done | intros; eexists; by repeat split ].

(** What [runContainer] leaves of the world, whatever it returns: the GPU
    and the CPU scheduler, the queue and the merges directory are not
    touched, nor are the resources of the record; with an error nothing
    else is returned, without one the registry, the name and the queue
    item carry the new version. *)
Lemma runContainer_frame (o : Outside) (name : string) (info : EtcdContainerInfo)
    (onlyCreate : bool) (w : world) :
  let version := (vmap.Get name (ContainerVersionMap w)).1 + 1 in
  exists r w',
    runContainer o name info onlyCreate w = Returns r w'
    /\ GpuScheduler w' = GpuScheduler w /\ CpuScheduler w' = CpuScheduler w
    /\ Queue w' = Queue w /\ merges w' = merges w
    /\ container.HostResources (HostConfig r.2)
       = container.HostResources (HostConfig info)
    /\ (r.1.2 <> None -> r.1.1.1.1 = "" /\ r.1.1.1.2 = "" /\ r.1.1.2 = None)
    /\ (r.1.2 = None ->
        r.1.1.1.2 = versionName name version
        /\ ContainerVersionMap w' = <[ name := version ]> (ContainerVersionMap w)
        /\ exists val,
            r.1.1.2 = Some (workQueue.PutKeyValue etcd.Containers name val)
            /\ Version val = version
            /\ ContainerName val = versionName name version).
Proof.
  intros version. subst version.
  unfold runContainer, bind, versionGet, versionSet, PortApply, ret. simpl.
  destruct (vmap.Get name (ContainerVersionMap w)) as [version0 ok]. simpl.
  destruct (0 <? Z.of_nat (size (container.PortBindings (HostConfig info)))); simpl.
  - destruct (Port.Apply _ _ _) as [[ports [e|]] p']; simpl; [run_done|].
    destruct (ContainerCreate o _) as [respID [e|]]; simpl.
    + unfold versionRemove, versionSet. destruct (version0 + 1 =? 1); simpl; run_done.
    + unfold startContainer. destruct onlyCreate; simpl; [run_done|].
      destruct (ContainerStart o respID); simpl; [|run_done].
      unfold versionRemove, versionSet. destruct (version0 + 1 =? 1); simpl; run_done.
  - destruct (ContainerCreate o _) as [respID [e|]]; simpl.
    + unfold versionRemove, versionSet. destruct (version0 + 1 =? 1); simpl; run_done.
    + unfold startContainer. destruct onlyCreate; simpl; [run_done|].
      destruct (ContainerStart o respID); simpl; [|run_done].
      unfold versionRemove, versionSet. destruct (version0 + 1 =? 1); simpl; run_done.
Qed.



(** X13. When the runtime refuses to create or to start the container,
    that is [runContainer] returns an error although the port acquisition,
    if there was one, succeeded, the deferred function puts the registry
    back exactly as it was, provided the registry did not hold the version
    0 for the name (an entry 0 is removed, since the version tried was
    1); the id, the name and the queue item returned are empty. *)
Theorem runContainer_runtime_failure_restores_registry (o : Outside) (name : string)
    (info : EtcdContainerInfo) (onlyCreate : bool) (w w' : world) (id cname : string)
    (kv : option workQueue.item) (e : error) (info' : EtcdContainerInfo) :
  let pb := container.PortBindings (HostConfig info) in
  ContainerVersionMap w !! name <> Some 0 ->
  (0 < Z.of_nat (size pb) ->
   (Port.Apply (port_order o) (Z.of_nat (size pb)) (PortScheduler w)).1.2 = None) ->
  runContainer o name info onlyCreate w = Returns (id, cname, kv, Some e, info') w' ->
  ContainerVersionMap w' = ContainerVersionMap w
  /\ id = "" /\ cname = "" /\ kv = None.
Proof.
  intros pb Hzero Hports.
  assert (Hback : forall m : gmap string Z,
            m = ContainerVersionMap w ->
            (if (vmap.Get name m).1 + 1 =? 1
             then delete name (<[ name := (vmap.Get name m).1 + 1 ]> m)
             else <[ name := (vmap.Get name m).1 + 1 - 1 ]>
                    (<[ name := (vmap.Get name m).1 + 1 ]> m)) = m).
  { intros m ->. unfold vmap.Get.
    destruct (ContainerVersionMap w !! name) as [v|] eqn:Hv; simpl.
    - destruct (Z.eqb_spec (v + 1) 1) as [H1|H1]; [exfalso; apply Hzero; f_equal; lia|].
      rewrite insert_insert_eq. replace (v + 1 - 1) with v by lia. by apply insert_id.
    - rewrite delete_insert_eq. by apply delete_id. }
  specialize (Hback _ eq_refl).
  unfold runContainer, bind, versionGet, versionSet, PortApply, ret. simpl.
  fold pb.
  destruct (vmap.Get name (ContainerVersionMap w)) as [version0 ok]. simpl in *.
  destruct (Z.ltb_spec 0 (Z.of_nat (size pb))) as [Hpos|Hnone]; simpl.
  - specialize (Hports Hpos).
    destruct (Port.Apply _ _ _) as [[ports [e'|]] p']; simpl in *; [discriminate|].
    destruct (ContainerCreate o _) as [respID [e'|]] eqn:Hc; simpl.
    { unfold versionRemove, versionSet, vmap.Remove, vmap.Set_.
      destruct (version0 + 1 =? 1); simpl; intros [= <- <- <- <- <- <-]; simpl; by rewrite Hback. }
    unfold startContainer. destruct onlyCreate; simpl; [discriminate|].
    destruct (ContainerStart o respID) eqn:Hs; simpl; [|discriminate].
    unfold versionRemove, versionSet, vmap.Remove, vmap.Set_.
    destruct (version0 + 1 =? 1); simpl; intros [= <- <- <- <- <- <-]; simpl; by rewrite Hback.
  - destruct (ContainerCreate o _) as [respID [e'|]] eqn:Hc; simpl.
    { unfold versionRemove, versionSet, vmap.Remove, vmap.Set_.
      destruct (version0 + 1 =? 1); simpl; intros [= <- <- <- <- <- <-]; simpl; by rewrite Hback. }
    unfold startContainer. destruct onlyCreate; simpl; [discriminate|].
    destruct (ContainerStart o respID) eqn:Hs; simpl; [|discriminate].
    unfold versionRemove, versionSet, vmap.Remove, vmap.Set_.
    destruct (version0 + 1 =? 1); simpl; intros [= <- <- <- <- <- <-]; simpl; by rewrite Hback.
Qed.

Lemma runContainer_runtime_failure_restores_registry_witness :
  ContainerVersionMap (state_of (runContainer refusing "job" info_one_port false fresh))
  = ContainerVersionMap fresh.
Proof.
  eassert (H : runContainer refusing "job" info_one_port false fresh
               = Returns (_, _, _, Some _, _) _) by (vm_compute; reflexivity).
  edestruct (runContainer_runtime_failure_restores_registry refusing "job" info_one_port
               false fresh) as (Hv & _);
    [vm_compute; discriminate | intros _; vm_compute; reflexivity | exact H |].
  rewrite H. exact Hv.
Defined.

(** X14 for the new replica set "job" on a host without a free port. *)
Lemma runContainer_port_failure_general_witness :
  exists info' w',
    runContainer obliging "job" info_one_port false no_port_left
    = Returns ("", "", None,
               Some (Wrap xerrors.NewPortNotEnoughError "Portscheduler.Apply failed"),
               info') w'
    /\ ContainerVersionMap w' = <[ "job" := 1 ]> ∅.
Proof.
  destruct (runContainer_port_failure_general obliging "job" info_one_port false
              no_port_left [] xerrors.NewPortNotEnoughError (ports 1))
    as (info' & w' & H & Hv); [vm_compute; reflexivity | vm_compute; reflexivity |].
  exists info', w'. split; [exact H | exact Hv].
Defined.

(** ** RunGpuContainer *)

(** A bind that returns has run both of its parts. *)
Lemma bind_Returns {A B : Type} (c : M A) (k : A -> M B) (w w' : world) (b : B) :
  bind c k w = Returns b w' ->
  exists a w1, c w = Returns a w1 /\ k a w1 = Returns b w'.
Proof.
  unfold bind. destruct (c w) as [a w1|w1]; [|discriminate]. eauto.
Qed.

Lemma same_records_refl (w : world) : same_records w w.
Proof. done. Qed.






Lemma with_Gpu_same (w : world) : with_Gpu (GpuScheduler w) w = w.
Proof. by destruct w. Qed.

Lemma with_Cpu_same (w : world) : with_Cpu (CpuScheduler w) w = w.
Proof. by destruct w. Qed.


(** X16. When the replica set has no container yet, the GPUs asked for,
    if any, were acquired, and [CpuScheduler.Apply] then returns an error,
    [RunGpuContainer] returns that error wrapped, with an empty id and
    name, and the world is the one [CpuScheduler.Apply] left: the GPU
    scheduler is back as it was before the call, ports, registry and
    queue are untouched. *)
Theorem RunGpuContainer_cpu_failure_restores_gpus (o : Outside) (spec : ContainerRun)
    (w : world) (uuids : list string) (g : Gpu.gpuScheduler)
    (cpuSet : string) (e : error) (c : Cpu.cpuScheduler) :
  existContainer o (ReplicaSetName spec) = false ->
  (0 < GpuCount spec ->
   Gpu.Apply (gpu_order o) (GpuCount spec) (GpuScheduler w) = Returns (uuids, None) g) ->
  0 < CpuCount spec ->
  Cpu.Apply (CpuCount spec) (CpuScheduler w) = Returns (cpuSet, Some e) c ->
  RunGpuContainer o spec w
  = Returns ("", "", Some (Wrap e "CpuScheduler.Apply failed")) (with_Cpu c w).
Proof.
  intros Hex Hgpu Hcpus Hcpu. unfold RunGpuContainer. rewrite Hex.
  unfold bind, ret, GpuApply, CpuApply, GpuRestore, lift_gpu, lift_cpu.
  destruct (Z.ltb_spec 0 (GpuCount spec)) as [Hg|Hg]; simpl.
  - rewrite (Hgpu Hg). simpl.
    destruct (Z.ltb_spec 0 (CpuCount spec)); [|lia]. simpl.
    rewrite Hcpu. simpl.
    destruct (Z.ltb_spec 0 (GpuCount spec)); [|lia]. simpl.
    destruct (Gpu_Apply_undone _ _ _ _ _ (Hgpu Hg)) as (Hmu & Hlen & Hback).
    rewrite Gpu_Restore_in_range, Hback by done. by destruct w.
  - destruct (Z.ltb_spec 0 (CpuCount spec)); [|lia]. simpl.
    rewrite Hcpu. simpl.
    destruct (Z.ltb_spec 0 (GpuCount spec)); [lia|]. done.
Qed.

Lemma RunGpuContainer_cpu_failure_restores_gpus_witness :
  exists e, RunGpuContainer obliging (job 1 3 []) fresh
            = Returns ("", "", Some (Wrap e "CpuScheduler.Apply failed")) fresh.
Proof.
  eexists.
  erewrite (RunGpuContainer_cpu_failure_restores_gpus obliging (job 1 3 []) fresh);
    [ | reflexivity | intros _; vm_compute; reflexivity | simpl; lia
      | vm_compute; reflexivity ].
  reflexivity.
Defined.




Lemma Gpu_Apply_error_state (order : list string) (num : Z)
    (gs gs' : Gpu.gpuScheduler) (ids : list string) (e : error) :
  Gpu.Apply order num gs = Returns (ids, Some e) gs' -> gs' = gs.
Proof.
  unfold Gpu.Apply.
  destruct (Z.leb_spec num 0) as [|Hpos]; [by intros [= <- <- <-]|].
  destruct (Z.ltb_spec (Gpu.AvailableGpuNums gs) num); [by intros [= <- <- <-]|]. simpl.
  destruct (Gpu.mu gs) eqn:Hmu; [discriminate|].
  destruct (apply_loop_spec num order (Gpu.GpuStatusMap gs) [])
    as (new & He & Hnd & Hlen & Hin & Hout); [unfold llen; simpl; lia|].
  destruct (apply_loop num order (Gpu.GpuStatusMap gs) [])
    as [m availableGpus]. simpl in *. subst availableGpus.
  destruct (Z.ltb_spec (llen new) num) as [Hshort|Hfull]; [|discriminate].
  unfold Gpu.Restore. simpl.
  destruct (Z.leb_spec (llen new) 0) as [Hempty|]; simpl.
  - intros [= <- <- <-]. destruct new; [|unfold llen in Hempty; simpl in Hempty; lia].
    assert (m = Gpu.GpuStatusMap gs) as ->.
    { apply map_eq. intros id. apply Hout. apply not_elem_of_nil. }
    destruct gs; simpl in *; by subst.
  - destruct (Z.ltb_spec (Gpu.AvailableGpuNums gs) (llen new)); simpl; [lia | discriminate].
Qed.

Lemma Cpu_Apply_error_state (T num : Z) (cs cs' : Cpu.cpuScheduler)
    (cpuSet : string) (e : error) :
  dom (Cpu.CpuStatusMap cs) = list_to_set (Cpu.getAllCpuProcessors T) ->
  Cpu.Apply num cs = Returns (cpuSet, Some e) cs' -> cs' = cs.
Proof.
  intros Hdom Happly.
  destruct (Z.leb_spec num 0) as [Hn|Hn];
    [|destruct (Z.ltb_spec (Cpu.AvailableCpuNums cs) num) as [Hn'|Hn']].
  - revert Happly. unfold Cpu.Apply, Cpu.Apply_ids.
    destruct (Z.leb_spec num 0); [|lia]. simpl. by intros [= <- <- <-].
  - revert Happly. unfold Cpu.Apply, Cpu.Apply_ids.
    destruct (Z.leb_spec num 0); [lia|].
    destruct (Z.ltb_spec (Cpu.AvailableCpuNums cs) num); [|lia]. simpl. by intros [= <- <- <-].
  - destruct (Cpu.mu cs) eqn:Hmu.
    { revert Happly. unfold Cpu.Apply, Cpu.Apply_ids.
      destruct (Z.leb_spec num 0); [lia|].
      destruct (Z.ltb_spec (Cpu.AvailableCpuNums cs) num); [lia|]. simpl.
      by rewrite Hmu. }
    destruct (Cpu_Apply_ids_cases T num cs Hmu ltac:(lia) Hdom) as [Hshort Hfull].
    unfold Cpu.Apply in Happly.
    destruct (Z.lt_ge_cases (count_free (Cpu.CpuStatusMap cs)) num) as [Hlt|Hge].
    + rewrite (Hshort Hlt) in Happly. by injection Happly as <- <- <-.
    + destruct (Hfull ltac:(lia)) as (m' & Ha & _). rewrite Ha in Happly. discriminate.
Qed.


(** X18. A run that asks for CPUs, on a CPU pool whose ids are the
    numerals 0 .. T-1, leaks neither GPUs nor CPUs when it fails: whatever
    step of [RunGpuContainer] returned the error (the existence check, a
    scheduler, the memory string, the creation or the start of the
    container), the GPU scheduler and the CPU scheduler are exactly as
    before the call. *)
Theorem RunGpuContainer_failure_restores_pools (o : Outside) (spec : ContainerRun)
    (w w' : world) (T : Z) (id cname : string) (e : error) :
  0 < CpuCount spec ->
  dom (Cpu.CpuStatusMap (CpuScheduler w)) = list_to_set (Cpu.getAllCpuProcessors T) ->
  RunGpuContainer o spec w = Returns (id, cname, Some e) w' ->
  GpuScheduler w' = GpuScheduler w /\ CpuScheduler w' = CpuScheduler w.
Proof.
  intros Hcpus Hdom. unfold RunGpuContainer.
  destruct (existContainer o (ReplicaSetName spec)) eqn:Hex.
  { by intros [= <- <- <- <-]. }
  intros H.
  (* gpu *)
  apply bind_Returns in H as ([[uuids gpuErr] hostConfig1] & w1 & Hgpu & H).
  assert (H1 : CpuScheduler w1 = CpuScheduler w
               /\ match gpuErr with
                  | Some _ => GpuScheduler w1 = GpuScheduler w
                  | None =>
                      if 0 <? GpuCount spec
                      then Gpu.Apply (gpu_order o) (GpuCount spec) (GpuScheduler w)
                           = Returns (uuids, None) (GpuScheduler w1)
                           /\ container.HostResources hostConfig1 = newContainerResource uuids
                      else GpuScheduler w1 = GpuScheduler w
                           /\ container.DeviceRequests (container.HostResources hostConfig1) = []
                  end).
  { revert Hgpu. destruct (0 <? GpuCount spec); [|by intros [= <- <- <- <-]].
    intros Hgpu. apply bind_Returns in Hgpu as ([uuids' e'] & w0 & Hg & Hgpu).
    unfold GpuApply, lift_gpu in Hg.
    destruct (Gpu.Apply _ _ _) as [[ids err] g|g] eqn:Ha; [|discriminate].
    injection Hg as <- <- <-.
    destruct err; injection Hgpu as <- <- <- <-; simpl; [|done].
    split; [done|]. by apply Gpu_Apply_error_state in Ha. }
  destruct H1 as [HC1 HG1].
  destruct gpuErr as [e1|]; [by injection H as <- <- <- <-|].
  (* cpu *)
  apply bind_Returns in H as ([cpuErr hostConfig2] & w2 & Hcpu & H).
  destruct (Z.ltb_spec 0 (CpuCount spec)) as [_|]; [|lia].
  apply bind_Returns in Hcpu as ([cpusets cerr] & w0 & Hc & Hcpu).
  unfold CpuApply, lift_cpu in Hc. rewrite HC1 in Hc.
  destruct (Cpu.Apply _ _) as [[cpuSet err] c|c] eqn:Hca; [|discriminate].
  injection Hc as <- <- <-.
  destruct err as [e2|].
  { apply bind_Returns in Hcpu as ([] & wr & Hr & Hcpu). injection Hcpu as <- <- <-.
    injection H as <- <- <- <-.
    apply Cpu_Apply_error_state with (T := T) in Hca; [|done]. subst c.
    destruct (0 <? GpuCount spec).
    - destruct HG1 as [Ha _]. unfold GpuRestore, lift_gpu in Hr. simpl in Hr.
      destruct (Gpu_Apply_undone _ _ _ _ _ Ha) as (Hmu & Hlen & Hback).
      rewrite Gpu_Restore_in_range, Hback in Hr by done. by injection Hr as <-.
    - injection Hr as <-. by destruct HG1. }
  injection Hcpu as <- <- <-.
  destruct (Cpu_Apply_undone T _ _ _ _ Hdom Hca) as (Hcmu & _ & Hcback).
  unfold ids_of in Hcback.
  (* memory *)
  apply bind_Returns in H as ([memErr hostConfig3] & w3 & Hmem & H).
  assert (H3 : match memErr with
               | Some _ => GpuScheduler w3 = GpuScheduler w /\ CpuScheduler w3 = CpuScheduler w
               | None =>
                   w3 = with_Cpu c w1
                   /\ container.DeviceRequests (container.HostResources hostConfig3)
                      = container.DeviceRequests (container.HostResources hostConfig1)
                   /\ container.CpusetCpus (container.HostResources hostConfig3) = cpuSet
               end).
  { revert Hmem. destruct (bool_decide (Memory spec <> "")); [|by intros [= <- <- <-]].
    destruct (ToBytes o (Memory spec)) as [memory [e3|]]; [|by intros [= <- <- <-]].
    intros Hmem. apply bind_Returns in Hmem as ([] & wa & Ha & Hmem).
    apply bind_Returns in Hmem as ([] & wb & Hb & Hmem). injection Hmem as <- <- <-.
    apply bind_Returns in Hb as (r & wc & Hb & Hret). injection Hret as <-.
    unfold CpuRestore, lift_cpu in Hb. simpl in Hb.
    destruct (0 <? GpuCount spec).
    - destruct HG1 as [Hga _]. unfold GpuRestore, lift_gpu in Ha. simpl in Ha.
      destruct (Gpu_Apply_undone _ _ _ _ _ Hga) as (Hmu & Hlen & Hback).
      rewrite Gpu_Restore_in_range, Hback in Ha by done. injection Ha as <-.
      simpl in Hb. rewrite Cpu_Restore_returns, Hcback in Hb by done. by injection Hb as <- <-.
    - injection Ha as <-. simpl in Hb.
      rewrite Cpu_Restore_returns, Hcback in Hb by done. injection Hb as <- <-.
      by destruct HG1. }
  destruct memErr as [e3|]; [by injection H as <- <- <- <-|].
  destruct H3 as (-> & Hdr & Hcs).
  (* create and start *)
  apply bind_Returns in H as ([[[[id0 cname0] kv] rerr] info'] & w4 & Hrun & H).
  destruct (runContainer_frame o (ReplicaSetName spec)
              {| Version := 0; CreateTime := ""; Config :=
                   {| container.Image := ImageName spec; container.Cmd := Cmd spec;
                      container.Env := Env spec;
                      container.ExposedPorts :=
                        list_to_set ((fun port => port +:+ "/tcp") <$> ContainerPorts spec);
                      container.OpenStdin := true; container.Tty := true |};
                 HostConfig := container.with_Binds
                   (((fun b => Src b +:+ ":" +:+ Dest b) <$> Binds spec) ++ lxcfsBind)%list
                   hostConfig3;
                 ContainerName := "" |} false (with_Cpu c w1))
    as (r & w4' & Hrun' & HG4 & HC4 & _ & _ & Hres & _).
  rewrite Hrun in Hrun'. injection Hrun' as <- <-. simpl in HG4, HC4, Hres.
  destruct rerr as [e4|]; [|destruct kv; [apply bind_Returns in H as ([] & wa & Ha & H)|]; discriminate].
  apply bind_Returns in H as ([] & wa & Ha & H).
  apply bind_Returns in H as (r & wb & Hb & H). injection H as <- <- <- <-.
  rewrite Hres in Ha, Hb. rewrite Hcs in Hb.
  unfold firstDeviceIDs in Ha. rewrite Hdr in Ha.
  unfold CpuRestore, lift_cpu in Hb.
  destruct (0 <? GpuCount spec).
  - destruct HG1 as [Hga Hhc]. rewrite Hhc in Ha. simpl in Ha.
    unfold GpuRestore, lift_gpu in Ha. rewrite HG4 in Ha.
    destruct (Gpu_Apply_undone _ _ _ _ _ Hga) as (Hmu & Hlen & Hback).
    rewrite Gpu_Restore_in_range, Hback in Ha by done. injection Ha as <-.
    simpl in Hb. rewrite HC4, Cpu_Restore_returns, Hcback in Hb by done.
    by injection Hb as <- <-.
  - destruct HG1 as [HG1 Hnone]. rewrite Hnone in Ha. simpl in Ha. injection Ha as <-.
    rewrite HC4, Cpu_Restore_returns, Hcback in Hb by done.
    injection Hb as <- <-. simpl. by rewrite HG4.
Qed.

Lemma RunGpuContainer_failure_restores_pools_witness :
  GpuScheduler (state_of (RunGpuContainer refusing (job 1 1 [ "22" ]) fresh))
  = GpuScheduler fresh
  /\ CpuScheduler (state_of (RunGpuContainer refusing (job 1 1 [ "22" ]) fresh))
     = CpuScheduler fresh.
Proof.
  eassert (H : RunGpuContainer refusing (job 1 1 [ "22" ]) fresh
               = Returns (_, _, Some _) _) by (vm_compute; reflexivity).
  edestruct RunGpuContainer_failure_restores_pools
    with (o := refusing) (spec := job 1 1 [ "22" ]) (w := fresh) (T := 2)
    as (HG & HC); [simpl; lia | apply InitCpuScheduler_dom | exact H |].
  rewrite H. split; [exact HG | exact HC].
Defined.


(** ** DeleteContainer and the merges directory *)








(** * Further properties: the allocation index, stopping and patching *)

(** ** The allocation index of the GPU scheduler *)

(** X22. On an unlocked GPU scheduler [Alloc(name, gpus)] returns and
    [GetAllocGpus(name)] then gives back [gpus] and [true]; the entries of
    other names are not touched; [Dealloc(name)] then returns and
    [GetAllocGpus(name)] gives the nil slice and [false], and when the
    name had no entry before, the scheduler is back as it was. The status
    map is the same throughout. *)
Theorem Alloc_round_trip (name : string) (gpus : list string) (gs : Gpu.gpuScheduler) :
  Gpu.mu gs = false ->
  exists gs1 gs2,
    GpuAlloc.Alloc name gpus gs = Returns tt gs1
    /\ GpuAlloc.GetAllocGpus name gs1 = Returns (gpus, true) gs1
    /\ (forall other, other <> name ->
          Gpu.GpuAllocMap gs1 !! other = Gpu.GpuAllocMap gs !! other)
    /\ GpuAlloc.Dealloc name gs1 = Returns tt gs2
    /\ GpuAlloc.GetAllocGpus name gs2 = Returns ([], false) gs2
    /\ (Gpu.GpuAllocMap gs !! name = None -> gs2 = gs)
    /\ Gpu.GpuStatusMap gs1 = Gpu.GpuStatusMap gs
    /\ Gpu.GpuStatusMap gs2 = Gpu.GpuStatusMap gs.
Proof.
  intros Hmu. unfold GpuAlloc.Alloc, GpuAlloc.Dealloc, GpuAlloc.GetAllocGpus. rewrite Hmu.
  eexists. eexists. split; [reflexivity|]. simpl.
  rewrite lookup_insert_eq. split; [reflexivity|].
  split; [by intros other Hne; rewrite lookup_insert_ne|].
  split; [reflexivity|]. simpl. rewrite lookup_delete_eq.
  split; [reflexivity|]. split; [|done].
  intros Hnone. rewrite delete_insert_eq, delete_id by done.
  destruct gs; simpl in *; by subst.
Qed.

Lemma Alloc_round_trip_witness :
  exists gs1,
    GpuAlloc.Alloc "job" [ "GPU-0" ] gpus_free = Returns tt gs1
    /\ GpuAlloc.GetAllocGpus "job" gs1 = Returns ([ "GPU-0" ], true) gs1
    /\ GpuAlloc.Dealloc "job" gs1 = Returns tt gpus_free.
Proof.
  destruct (Alloc_round_trip "job" [ "GPU-0" ] gpus_free)
    as (gs1 & gs2 & Ha & Hg & _ & Hd & _ & Hback & _); [reflexivity|].
  exists gs1. split; [exact Ha|]. split; [exact Hg|].
  rewrite Hd, (Hback eq_refl). reflexivity.
Defined.


(** X23. The allocation index and the status map are kept apart: no call
    of [Apply] or [Restore], whatever its arguments and its outcome,
    changes the allocation index, and [Alloc] and [Dealloc] never change
    the status map. Acquiring or releasing GPUs therefore does not
    record or drop an allocation. *)
Theorem alloc_index_apart (order : list string) (num : Z) (ids : list string)
    (name : string) (gs : Gpu.gpuScheduler) :
  Gpu.GpuAllocMap (state_of (Gpu.Apply order num gs)) = Gpu.GpuAllocMap gs
  /\ Gpu.GpuAllocMap (state_of (Gpu.Restore ids gs)) = Gpu.GpuAllocMap gs
  /\ Gpu.GpuStatusMap (state_of (GpuAlloc.Alloc name ids gs)) = Gpu.GpuStatusMap gs
  /\ Gpu.GpuStatusMap (state_of (GpuAlloc.Dealloc name gs)) = Gpu.GpuStatusMap gs.
Proof.
  split; [|split; [|split]].
  - unfold Gpu.Apply.
    destruct ((num <=? 0) || (Gpu.AvailableGpuNums gs <? num)); [done|].
    destruct (Gpu.mu gs); [done|]. simpl.
    destruct (apply_loop num order (Gpu.GpuStatusMap gs) []) as [m availableGpus].
    destruct (llen availableGpus <? num); [|done].
    unfold Gpu.Restore. simpl.
    by destruct ((llen availableGpus <=? 0) || (Gpu.AvailableGpuNums gs <? llen availableGpus)).
  - unfold Gpu.Restore. by repeat case_match.
  - unfold GpuAlloc.Alloc. by case_match.
  - unfold GpuAlloc.Dealloc. by case_match.
Qed.

(** ** StopContainer *)



Lemma Gpu_Restore_nil (gs : Gpu.gpuScheduler) : Gpu.Restore [] gs = Returns tt gs.
Proof. done. Qed.






(** ** patchGpu and patchCpu *)

Lemma count_free_after_restore (m : gmap string Z) (ids : list string) :
  NoDup ids ->
  (forall id, id ∈ ids -> m !! id = Some 1) ->
  count_free (mark_free ids m) = count_free m + llen ids.
Proof.
  intros Hnd Hin.
  pose proof (count_free_after_take (mark_free ids m) m ids Hnd) as H.
  rewrite H; [lia| |].
  - intros id Hid. rewrite mark_free_lookup. destruct (decide (id ∈ ids)); [|done].
    split; [done | by apply Hin].
  - intros id Hid. rewrite mark_free_lookup. by destruct (decide (id ∈ ids)).
Qed.

Lemma Gpu_Apply_count (order : list string) (num : Z) (gs gs' : Gpu.gpuScheduler)
    (ids : list string) :
  Gpu.Apply order num gs = Returns (ids, None) gs' ->
  count_free (Gpu.GpuStatusMap gs') = count_free (Gpu.GpuStatusMap gs) - num
  /\ llen ids = num
  /\ (forall id, id ∈ ids -> Gpu.GpuStatusMap gs' !! id = Some 1).
Proof.
  intros Happly.
  destruct (Gpu_Apply_returns_inv _ _ _ _ _ Happly) as (Hmu & Hnum & Hids & Hlen & Hgs').
  destruct (apply_loop_spec num order (Gpu.GpuStatusMap gs) [])
    as (new & He & Hnd & _ & Hin & Hout); [unfold llen; simpl; lia|].
  rewrite Hids in He. simpl in He. subst new.
  rewrite Hgs'. simpl. split; [|split; [done|]].
  - rewrite (count_free_after_take _ _ ids Hnd Hin Hout). lia.
  - intros id Hid. by apply Hin.
Qed.

Lemma inspect_readers (o : Outside) (name : string) (resp : ContainerJSON) :
  ContainerInspect o name = (resp, None) ->
  containerStatusRunning o name = (Running resp, None)
  /\ containerStatusPaused o name = (Paused resp, None)
  /\ containerDeviceRequestsDeviceIDs o name
     = (match InspectDeviceRequests resp with
        | [] => []
        | d :: _ => container.DeviceIDs d
        end, None)
  /\ containerCpusetCpus o name = (Split (InspectCpusetCpus resp) ","%char, None).
Proof.
  intros H. unfold containerStatusRunning, containerStatusPaused,
    containerDeviceRequestsDeviceIDs, containerCpusetCpus. rewrite H.
  by destruct (InspectDeviceRequests resp).
Qed.


(** X25. [patchGpu] on a running or paused container that holds the GPUs
    [uuids], marked in use in the pool and no more than the total: when
    the call returns without an error for the request [GpuCount], the
    number of free GPUs has changed by the GPUs released minus the GPUs
    acquired, len(uuids) - GpuCount. With the count the container already
    has, record and world are untouched; otherwise the record lists
    [GpuCount] device ids, each in use in the pool afterwards (none for
    0). *)
Theorem patchGpu_live_conservation (o : Outside) (name : string) (GpuCount : Z)
    (info info' : EtcdContainerInfo) (w w' : world) (resp : ContainerJSON) :
  let uuids := match InspectDeviceRequests resp with
               | [] => []
               | d :: _ => container.DeviceIDs d
               end in
  let m := Gpu.GpuStatusMap (GpuScheduler w) in
  ContainerInspect o name = (resp, None) ->
  Running resp || Paused resp = true ->
  NoDup uuids ->
  (forall id, id ∈ uuids -> m !! id = Some 1) ->
  llen uuids <= Gpu.AvailableGpuNums (GpuScheduler w) ->
  replicaset.patchGpu o name (Some GpuCount) info w = Returns (info', None) w' ->
  count_free (Gpu.GpuStatusMap (GpuScheduler w')) = count_free m + llen uuids - GpuCount
  /\ (GpuCount = llen uuids -> info' = info /\ w' = w)
  /\ (GpuCount <> llen uuids ->
      let ids := firstDeviceIDs (container.HostResources (HostConfig info')) in
      llen ids = GpuCount
      /\ (forall id, id ∈ ids -> Gpu.GpuStatusMap (GpuScheduler w') !! id = Some 1)).
Proof.
  intros uuids m Hinspect Hlive Hnd Hheld Hlen.
  destruct (inspect_readers o name resp Hinspect) as (Hr & Hp & Hd & _).
  unfold replicaset.patchGpu. rewrite Hr, Hp, Hd, Hlive. fold uuids.
  rewrite andb_true_r.
  destruct (Z.eqb_spec (llen uuids) GpuCount) as [Heq|Hne].
  { intros [= <- <-]. split; [fold m; lia|]. split; [done|]. by intros []. }
  intros H.
  apply bind_Returns in H as ([] & w1 & Hrestore & H).
  assert (H1 : count_free (Gpu.GpuStatusMap (GpuScheduler w1)) = count_free m + llen uuids
               /\ (llen uuids = 0 -> w1 = w)).
  { unfold GpuRestore, lift_gpu in Hrestore.
    destruct (Z.le_gt_cases (llen uuids) 0) as [Hempty|Hsome].
    - assert (uuids = []) as Hnil
        by (destruct uuids; [done | unfold llen in Hempty; simpl in Hempty; lia]).
      rewrite Hnil in *. simpl in Hrestore. injection Hrestore as <-.
      split; [simpl; unfold llen; simpl; fold m; lia | intros _; apply with_Gpu_same].
    - unfold Gpu.Restore in Hrestore.
      destruct (Z.leb_spec (llen uuids) 0); [lia|].
      destruct (Z.ltb_spec (Gpu.AvailableGpuNums (GpuScheduler w)) (llen uuids)); [lia|].
      simpl in Hrestore.
      destruct (Gpu.mu (GpuScheduler w)); [discriminate|]. injection Hrestore as <-.
      simpl. split; [by apply count_free_after_restore | lia]. }
  destruct H1 as [H1 _].
  destruct (Z.eqb_spec GpuCount 0) as [Hzero|Hpos].
  - injection H as <- <-. split; [lia|]. split; [by intros ?; lia|].
    intros _. simpl. split; [by subst|]. intros id Hid. by apply elem_of_nil in Hid.
  - apply bind_Returns in H as ([uuids' err] & w2 & Happly & H).
    destruct err as [e|]; [discriminate|]. injection H as <- <-.
    unfold GpuApply, lift_gpu in Happly.
    destruct (Gpu.Apply _ _ _) as [[ids err] g|g] eqn:Ha; [|discriminate].
    injection Happly as <- Herr <-. subst err.
    destruct (Gpu_Apply_count _ _ _ _ _ Ha) as (Hcount & Hn & Hin).
    simpl. split; [lia|]. split; [by intros ?; lia|]. by intros _.
Qed.

Lemma patchGpu_live_conservation_witness :
  count_free (Gpu.GpuStatusMap (GpuScheduler
     (state_of (replicaset.patchGpu running "job-1" (Some 2) info_one_port busy)))) = 0.
Proof.
  eassert (H : replicaset.patchGpu running "job-1" (Some 2) info_one_port busy
               = Returns (_, None) _) by (vm_compute; reflexivity).
  edestruct patchGpu_live_conservation
    with (o := running) (name := "job-1") (GpuCount := 2) (info := info_one_port)
         (w := busy) (resp := live)
    as (Hcount & _);
    [ reflexivity | reflexivity
    | apply NoDup_singleton
    | intros id Hid; apply list_elem_of_singleton in Hid; subst id; reflexivity
    | vm_compute; discriminate
    | exact H | ].
  rewrite H. exact Hcount.
Defined.






(** ** The mock build *)

Lemma has_byte_app (c : ascii) (s t : string) :
  has_byte c (s +:+ t) = has_byte c s || has_byte c t.
Proof.
  induction s as [|d s IH]; [done|]. rewrite string_app_cons. simpl.
  by rewrite IH, orb_assoc.
Qed.

Lemma has_byte_Join (c sep : ascii) (ids : list string) :
  Ascii.eqb sep c = false ->
  Forall (fun s => has_byte c s = false) ids ->
  has_byte c (Join ids (String sep "")) = false.
Proof.
  intros Hsep. induction 1 as [|e rest He _ IH]; [done|].
  destruct rest as [|r rs]; [done|].
  rewrite Join_cons_cons, !has_byte_app, He, IH. simpl. by rewrite Hsep.
Qed.

(** Reading the device ids back from the entry that [runContainer]
    writes. *)
Lemma decode_gpu_entry (uuids : list string) :
  uuids <> [] ->
  Forall (fun s => has_byte "," s = false /\ has_byte "=" s = false) uuids ->
  Split (default "" (Split ("MOCK_GPU_UUID=" +:+ Join uuids ",") "="%char !! 1%nat)) ","%char
  = uuids.
Proof.
  intros Hne Hall.
  assert (Hcomma : Forall (fun s => has_byte "," s = false) uuids)
    by (eapply Forall_impl; [exact Hall | by intros s [? _]]).
  assert (Heq : Forall (fun s => has_byte "=" s = false) uuids)
    by (eapply Forall_impl; [exact Hall | by intros s [_ ?]]).
  change ("MOCK_GPU_UUID=" +:+ Join uuids ",")
    with (Join [ "MOCK_GPU_UUID"; Join uuids "," ] "=").
  rewrite Split_Join.
  - simpl. destruct uuids as [|e rest]; [done|]. by apply Split_Join.
  - constructor; [done|]. constructor; [|done]. by apply has_byte_Join.
Qed.

Lemma envDeviceIDs_setGpuEnv (uuids : list string) (env : list string) :
  mock.envDeviceIDs (mock.setGpuEnv uuids env)
  = Split (default "" (Split ("MOCK_GPU_UUID=" +:+ Join uuids ",") "="%char !! 1%nat)) ","%char.
Proof.
  unfold mock.setGpuEnv.
  assert (Hentry : HasPrefix ("MOCK_GPU_UUID=" +:+ Join uuids ",") "MOCK_GPU_UUID=" = true)
    by apply prefix_app.
  set (entry := "MOCK_GPU_UUID=" +:+ Join uuids ",") in *.
  induction env as [|e rest IH]; cbn -[HasPrefix].
  - by rewrite Hentry.
  - destruct (HasPrefix e "MOCK_GPU_UUID=") eqn:He; cbn -[HasPrefix].
    + by rewrite Hentry.
    + destruct (mock.replaceGpuEnv entry rest) as [r|]; cbn -[HasPrefix] in *; by rewrite He.
Qed.

Ltac mock_success Henv :=
  eexists; split; [reflexivity|]; simpl;
  split; [done|]; split; [done|]; split; [apply Henv|];
  let Hi := fresh in let He := fresh in
  intros Hi He; unfold mock.containerDeviceRequestsDeviceIDs;
  destruct (ContainerInspect _ _) as [? [?|]]; [done|]; by rewrite He, Henv.


(** X27. The mock build moves the GPU ids of a record into the
    environment and reads them back from there. For a record whose first
    device request lists ids that are not empty and hold no "," and no
    "=": when [runContainer] returns without an error, the record it
    queues and the record it leaves behind have no device requests any
    more, the environment of the queued record decodes to exactly these
    ids, and [containerDeviceRequestsDeviceIDs] on the new container
    returns them when the runtime reports the environment the container
    was created with. When [runContainer] returns an error, the device
    requests are back in the record if the creation or the start failed,
    but are missing from it if the port acquisition failed. *)
Theorem mock_runContainer_device_ids (o : Outside) (InspectEnv : string -> list string)
    (name : string) (info info' : EtcdContainerInfo) (onlyCreate : bool) (w w' : world)
    (id cname : string) (kv : option workQueue.item) (err : option error)
    (d : container.DeviceRequest) (ds : list container.DeviceRequest) :
  let uuids := container.DeviceIDs d in
  let pb := container.PortBindings (HostConfig info) in
  let deviceRequests i := container.DeviceRequests (container.HostResources (HostConfig i)) in
  deviceRequests info = d :: ds ->
  uuids <> [] ->
  Forall (fun s => has_byte "," s = false /\ has_byte "=" s = false) uuids ->
  mock.runContainer o name info onlyCreate w = Returns (id, cname, kv, err, info') w' ->
  match err with
  | None =>
      exists val,
        kv = Some (workQueue.PutKeyValue etcd.Containers name val)
        /\ deviceRequests val = [] /\ deviceRequests info' = []
        /\ mock.envDeviceIDs (container.Env (Config val)) = uuids
        /\ ((ContainerInspect o cname).2 = None ->
            InspectEnv cname = container.Env (Config val) ->
            mock.containerDeviceRequestsDeviceIDs o InspectEnv cname = (uuids, None))
  | Some _ =>
      deviceRequests info'
      = match (if 0 <? Z.of_nat (size pb)
               then (Port.Apply (port_order o) (Z.of_nat (size pb)) (PortScheduler w)).1.2
               else None) with
        | Some _ => []
        | None => d :: ds
        end
  end.
Proof.
  intros uuids pb deviceRequests Hd Hne Hall.
  assert (Henv : forall env, mock.envDeviceIDs (mock.setGpuEnv uuids env) = uuids)
    by (intros env; rewrite envDeviceIDs_setGpuEnv; by apply decode_gpu_entry).
  unfold deviceRequests in *.
  unfold mock.runContainer, bind, versionGet, versionSet, PortApply, ret. simpl.
  rewrite Hd. simpl. fold pb. fold uuids.
  destruct (vmap.Get name (ContainerVersionMap w)) as [version0 ok]. simpl.
  destruct (0 <? Z.of_nat (size pb)); simpl.
  - destruct (Port.Apply _ _ _) as [[ports [e|]] p']; simpl; [by intros [= <- <- <- <- <-]|].
    destruct (ContainerCreate o _) as [respID [e|]]; simpl.
    { unfold versionRemove, versionSet. destruct (version0 + 1 =? 1);
        by intros [= <- <- <- <- <- <-]. }
    destruct onlyCreate; simpl.
    + intros [= <- <- <- <- <- <-]. mock_success Henv.
    + destruct (ContainerStart o respID); simpl.
      { unfold versionRemove, versionSet. destruct (version0 + 1 =? 1);
          by intros [= <- <- <- <- <- <-]. }
      intros [= <- <- <- <- <- <-]. mock_success Henv.
  - destruct (ContainerCreate o _) as [respID [e|]]; simpl.
    { unfold versionRemove, versionSet. destruct (version0 + 1 =? 1);
        by intros [= <- <- <- <- <- <-]. }
    destruct onlyCreate; simpl.
    + intros [= <- <- <- <- <- <-]. mock_success Henv.
    + destruct (ContainerStart o respID); simpl.
      { unfold versionRemove, versionSet. destruct (version0 + 1 =? 1);
          by intros [= <- <- <- <- <- <-]. }
      intros [= <- <- <- <- <- <-]. mock_success Henv.
Qed.

Lemma mock_runContainer_device_ids_witness :
  exists val info' w',
    mock.runContainer obliging "job" info_one_gpu false fresh
    = Returns ("id-job-1", "job-1",
               Some (workQueue.PutKeyValue etcd.Containers "job" val), None, info') w'
    /\ mock.envDeviceIDs (container.Env (Config val)) = [ "GPU-0" ]
    /\ container.DeviceRequests (container.HostResources (HostConfig val)) = [].
Proof.
  eassert (H : mock.runContainer obliging "job" info_one_gpu false fresh
               = Returns ("id-job-1", "job-1",
                          Some (workQueue.PutKeyValue etcd.Containers "job" _), None, _) _)
    by (vm_compute; reflexivity).
  edestruct mock_runContainer_device_ids
    with (o := obliging) (InspectEnv := fun _ : string => @nil string) (name := "job")
         (info := info_one_gpu) (onlyCreate := false) (w := fresh) (err := @None error)
    as (val & Hkv & Hnone & _ & Hids & _);
    [ reflexivity
    | discriminate
    | constructor; [split; reflexivity | constructor]
    | exact H | ].
  injection Hkv as <-.
  eexists. eexists. eexists. split; [exact H|]. split; [exact Hids | exact Hnone].
Defined.
